(** * ARC-AGI-3 engine: sessions, actions and scorecards

    A shallow embedding of [backend/backend.py] and of the part of
    [backend/game_data_loader.py] the engine consumes, followed by the
    properties of the session/action state machine and of the scorecard
    aggregation.

    Conventions of the embedding.
    - The two process-wide dictionaries [scorecards_db] and [sessions_db]
      are the fields of a record [Stores]; every command is a function
      from the stores to the stores after the command, paired with what
      the command produced.
    - A command can return a value, raise an [HTTPException] (a request
      rejected by the endpoint) or die on an uncaught Python exception
      ([KeyError], [IndexError], pydantic's [ValidationError]).  Python
      mutates dictionaries in place, so the stores returned next to an
      exception are the stores as they were when it was raised.
    - [uuid.uuid4()] is an input of the command that draws it.
    - The level files on disk are a parameter of the development: the
      record [GameDataLoader] stands for the global [game_loader].
    - [created_at], [opaque] and the [reasoning] payload are written but
      never read by any rule and are left out; [print] calls are ignored. *)

From Stdlib Require Import ZArith List String Lia Uint63 PrimFloat SpecFloat FloatOps.
From stdpp Require Import gmap strings list fin_maps.

Local Open Scope Z_scope.

(** ** Data model *)

Abbreviation Grid := (list (list Z)).
Abbreviation Frame := (list (list (list Z))).

Inductive GameState := NOT_STARTED | NOT_FINISHED | WIN | GAME_OVER.

Definition GameState_eqb (a b : GameState) : bool :=
  match a, b with
  | NOT_STARTED, NOT_STARTED | NOT_FINISHED, NOT_FINISHED
  | WIN, WIN | GAME_OVER, GAME_OVER => true
  | _, _ => false
  end.

#[global] Instance GameState_eq_dec : EqDecision GameState.
Proof. solve_decision. Defined.

Inductive FrameType := initial | final.

(** What a command produces. *)
Inductive outcome (A : Type) : Type :=
| Returned (a : A)
| HTTPException (status_code : Z) (detail : string)
| Raised (exc : string).
Arguments Returned {A} a.
Arguments HTTPException {A} status_code detail.
Arguments Raised {A} exc.

(** One entry of [sessions_db]. *)
Record Session := mkSession {
  s_game_id : string;
  s_card_id : string;
  s_state : GameState;
  s_score : Z;
  s_level : string;
  s_actions_taken : Z;
  s_current_frame : Frame
}.

(** [PerGameCard]: one entry of a scorecard's ["cards"]. *)
Record PerGameCard := mkPerGameCard {
  gc_game_id : string;
  gc_total_plays : Z;
  gc_total_actions : Z;
  gc_scores : list Z;
  gc_states : list GameState;
  gc_actions : list Z
}.

(** One entry of [scorecards_db]. *)
Record Scorecard := mkScorecard {
  sc_card_id : string;
  sc_api_key : string;
  sc_source_url : option string;
  sc_tags : list string;
  sc_won : Z;
  sc_played : Z;
  sc_total_actions : Z;
  sc_score : Z;
  sc_cards : gmap string PerGameCard
}.

Record Stores := mkStores {
  scorecards_db : gmap string Scorecard;
  sessions_db : gmap string Session
}.

Definition empty_stores : Stores := mkStores ∅ ∅.

Record ScorecardSummary := mkScorecardSummary {
  ss_api_key : string;
  ss_card_id : string;
  ss_won : Z;
  ss_played : Z;
  ss_total_actions : Z;
  ss_score : Z;
  ss_source_url : option string;
  ss_tags : list string;
  ss_cards : gmap string PerGameCard
}.

Record Block := mkBlock { x1 : Z; y1 : Z; x2 : Z; y2 : Z }.

#[global] Instance Block_eq_dec : EqDecision Block.
Proof. solve_decision. Defined.

(** The [action_input] dictionary of a response. *)
Record ActionInput := mkActionInput {
  ai_id : Z;
  ai_x : option Z;
  ai_y : option Z;
  ai_toggled : option bool;
  ai_block_coords : option Block;
  ai_old_colors : list Z;
  ai_new_colors : list Z;
  ai_win_achieved : bool;
  ai_no_op : bool
}.

Record FrameResponse := mkFrameResponse {
  fr_game_id : string;
  fr_guid : string;
  fr_frame : Frame;
  fr_state : GameState;
  fr_score : Z;
  fr_win_score : Z;
  fr_action_input : ActionInput
}.

(** The pydantic model checks [score] and [win_score] against
    [Field(ge=0, le=254)] when the response is built. *)
Definition FrameResponse_validate (r : FrameResponse) : outcome FrameResponse :=
  if (0 <=? fr_score r) && (fr_score r <=? 254)
     && (0 <=? fr_win_score r) && (fr_win_score r <=? 254)
  then Returned r
  else Raised "ValidationError".

(** The [x]/[y] entries of [action_data] (absent keys are [None]). *)
Record ActionData := mkActionData { ad_x : option Z; ad_y : option Z }.

(** ** Python list helpers *)

(** [l[i]] for a Python integer: negative indices count from the end;
    [None] is [IndexError]. *)
Definition py_index {A : Type} (l : list A) (i : Z) : option A :=
  if 0 <=? i then l !! Z.to_nat i
  else if 0 <=? Z.of_nat (length l) + i then l !! Z.to_nat (Z.of_nat (length l) + i)
  else None.

(** [l[-1]] *)
Definition get_last {A : Type} (l : list A) : option A := last l.

(** [l[-1] = v], on a list known to be non-empty *)
Definition set_last {A : Type} (l : list A) (v : A) : list A :=
  <[Nat.pred (length l) := v]> l.

(** [range(a, b)] *)
Definition range (a b : Z) : list Z := seqZ a (b - a).

(** [grid[y][x]] guarded by [y < len(grid) and x < len(grid[y])]. *)
Definition cell (g : Grid) (y x : nat) : option Z :=
  match g !! y with
  | Some row => row !! x
  | None => None
  end.

(** ** Floating point of the progress score *)

Definition float_of_int (n : Z) : float := PrimFloat.of_uint63 (Uint63.of_Z n).

(** Python's [int(f)]: truncation toward zero; [None] for inf/nan. *)
Definition int_of_float (f : float) : option Z :=
  match Prim2SF f with
  | S754_zero _ => Some 0
  | S754_finite s m e =>
      let mag := if 0 <=? e then Z.pos m * 2 ^ e else Z.pos m / 2 ^ (- e) in
      Some (if s then - mag else mag)
  | _ => None
  end.

(** [int((correct_cells / total_cells) * 100)] in binary64. *)
Definition progress_score (correct_cells total_cells : Z) : option Z :=
  let progress_percentage :=
    PrimFloat.div (float_of_int correct_cells) (float_of_int total_cells) in
  int_of_float (PrimFloat.mul progress_percentage (float_of_int 100)).

(** ** Level provider ([game_data_loader.py]) *)

(** What [load_level] found on disk: the ["grid"] entry of [initial.json]
    and of [final.json], [None] when the file or the key is missing. *)
Record LevelData := mkLevelData {
  ld_initial_grid : option Grid;
  ld_final_grid : option Grid
}.

Definition pad_cell (grid : Grid) (y x : nat) : Z :=
  match cell grid y x with
  | Some color_index => color_index
  | None => 0
  end.

Definition pad_grid (grid : Grid) : Grid :=
  map (fun y => map (fun x => pad_cell grid y x) (seq 0 64)) (seq 0 64).

Definition mock_grid : Grid :=
  map (fun y => map (fun x => (Z.of_nat x + Z.of_nat y) mod 16) (seq 0 64)) (seq 0 64).

(** The global [game_loader]: the game directories found on disk and the
    level files under them. *)
Record GameDataLoader := mkGameDataLoader {
  get_available_games : list string;
  load_level : string -> string -> option LevelData
}.

Section Engine.

Variable game_loader : GameDataLoader.

Definition get_frame_data (game_id level : string) (frame_type : FrameType)
  : option Frame :=
  match load_level game_loader game_id level with
  | None => None
  | Some level_data =>
      match (match frame_type with
             | initial => ld_initial_grid level_data
             | final => ld_final_grid level_data
             end) with
      | None => None
      | Some [] => None
      | Some grid => Some [pad_grid grid]
      end
  end.

Definition get_game_state (game_id level : string) : GameState * Z :=
  match load_level game_loader game_id level with
  | None => (NOT_STARTED, 0)
  | Some _ => (NOT_FINISHED, 0)
  end.

Definition create_frame_from_game_data (game_id level : string)
    (frame_type : FrameType) : Frame :=
  match get_frame_data game_id level frame_type with
  | Some frame_data => frame_data
  | None => [mock_grid]
  end.

(** ** Field updates of the dictionaries *)

Definition set_state (v : GameState) (s : Session) : Session :=
  mkSession (s_game_id s) (s_card_id s) v (s_score s) (s_level s)
            (s_actions_taken s) (s_current_frame s).

Definition set_score (v : Z) (s : Session) : Session :=
  mkSession (s_game_id s) (s_card_id s) (s_state s) v (s_level s)
            (s_actions_taken s) (s_current_frame s).

Definition set_actions_taken (v : Z) (s : Session) : Session :=
  mkSession (s_game_id s) (s_card_id s) (s_state s) (s_score s) (s_level s)
            v (s_current_frame s).

Definition set_current_frame (v : Frame) (s : Session) : Session :=
  mkSession (s_game_id s) (s_card_id s) (s_state s) (s_score s) (s_level s)
            (s_actions_taken s) v.

Definition set_total_plays (v : Z) (c : PerGameCard) : PerGameCard :=
  mkPerGameCard (gc_game_id c) v (gc_total_actions c) (gc_scores c)
                (gc_states c) (gc_actions c).

Definition set_total_actions (v : Z) (c : PerGameCard) : PerGameCard :=
  mkPerGameCard (gc_game_id c) (gc_total_plays c) v (gc_scores c)
                (gc_states c) (gc_actions c).

Definition set_scores (v : list Z) (c : PerGameCard) : PerGameCard :=
  mkPerGameCard (gc_game_id c) (gc_total_plays c) (gc_total_actions c) v
                (gc_states c) (gc_actions c).

Definition set_states (v : list GameState) (c : PerGameCard) : PerGameCard :=
  mkPerGameCard (gc_game_id c) (gc_total_plays c) (gc_total_actions c)
                (gc_scores c) v (gc_actions c).

Definition set_actions (v : list Z) (c : PerGameCard) : PerGameCard :=
  mkPerGameCard (gc_game_id c) (gc_total_plays c) (gc_total_actions c)
                (gc_scores c) (gc_states c) v.

Definition set_sc_won (v : Z) (c : Scorecard) : Scorecard :=
  mkScorecard (sc_card_id c) (sc_api_key c) (sc_source_url c) (sc_tags c)
              v (sc_played c) (sc_total_actions c) (sc_score c) (sc_cards c).

Definition set_sc_played (v : Z) (c : Scorecard) : Scorecard :=
  mkScorecard (sc_card_id c) (sc_api_key c) (sc_source_url c) (sc_tags c)
              (sc_won c) v (sc_total_actions c) (sc_score c) (sc_cards c).

Definition set_sc_total_actions (v : Z) (c : Scorecard) : Scorecard :=
  mkScorecard (sc_card_id c) (sc_api_key c) (sc_source_url c) (sc_tags c)
              (sc_won c) (sc_played c) v (sc_score c) (sc_cards c).

Definition set_sc_score (v : Z) (c : Scorecard) : Scorecard :=
  mkScorecard (sc_card_id c) (sc_api_key c) (sc_source_url c) (sc_tags c)
              (sc_won c) (sc_played c) (sc_total_actions c) v (sc_cards c).

Definition set_sc_cards (v : gmap string PerGameCard) (c : Scorecard) : Scorecard :=
  mkScorecard (sc_card_id c) (sc_api_key c) (sc_source_url c) (sc_tags c)
              (sc_won c) (sc_played c) (sc_total_actions c) (sc_score c) v.

(** The stores once the local aliases [session], [scorecard] and
    [game_card] carry the values given: [session] is [sessions_db[guid]],
    [scorecard] is [scorecards_db[card_id]] and [game_card] is
    [scorecard["cards"][game_id]]. *)
Definition put_session (guid : string) (session : Session) (db : Stores) : Stores :=
  mkStores (scorecards_db db) (<[guid := session]> (sessions_db db)).

Definition commit (guid : string) (session : Session)
    (card_id : string) (scorecard : Scorecard)
    (game_id : string) (game_card : PerGameCard) (db : Stores) : Stores :=
  mkStores
    (<[card_id := set_sc_cards (<[game_id := game_card]> (sc_cards scorecard)) scorecard]>
       (scorecards_db db))
    (<[guid := session]> (sessions_db db)).

(** ** Scorecard endpoints *)

(** [card_id] is the fresh [uuid4]. *)
Definition open_scorecard (card_id api_key : string) (source_url : option string)
    (tags : list string) (db : Stores) : Stores * string :=
  (mkStores
     (<[card_id := mkScorecard card_id api_key source_url tags 0 0 0 0 ∅]>
        (scorecards_db db))
     (sessions_db db),
   card_id).

Definition summary_of (scorecard : Scorecard) : ScorecardSummary :=
  let score := if sc_won scorecard >? 0 then 1 else 0 in
  mkScorecardSummary (sc_api_key scorecard) (sc_card_id scorecard)
    (sc_won scorecard) (sc_played scorecard) (sc_total_actions scorecard)
    score (sc_source_url scorecard) (sc_tags scorecard) (sc_cards scorecard).

Definition close_scorecard (card_id : string) (db : Stores)
  : outcome ScorecardSummary :=
  match scorecards_db db !! card_id with
  | None => HTTPException 404 "Scorecard not found"
  | Some scorecard => Returned (summary_of scorecard)
  end.

Definition get_scorecard (card_id : string) (db : Stores)
  : outcome ScorecardSummary :=
  match scorecards_db db !! card_id with
  | None => HTTPException 404 "Scorecard not found"
  | Some scorecard => Returned (summary_of scorecard)
  end.

(** [sum(1 for state in states if state == "WIN")] *)
Definition count_wins (states : list GameState) : Z :=
  fold_left (fun acc state => if GameState_eqb state WIN then acc + 1 else acc)
            states 0.

Definition get_scorecard_for_game (card_id game_id : string) (db : Stores)
  : outcome ScorecardSummary :=
  match scorecards_db db !! card_id with
  | None => HTTPException 404 "Scorecard not found"
  | Some scorecard =>
      match sc_cards scorecard !! game_id with
      | None => HTTPException 404 "Game not found in scorecard"
      | Some game_card =>
          let won := match gc_states game_card with
                     | [] => 0
                     | states => count_wins states
                     end in
          let played := gc_total_plays game_card in
          let total_actions := gc_total_actions game_card in
          let score := if won >? 0 then 1 else 0 in
          Returned
            (mkScorecardSummary (sc_api_key scorecard) (sc_card_id scorecard)
               won played total_actions score
               (sc_source_url scorecard) (sc_tags scorecard)
               {[ game_id := game_card ]})
      end
  end.

(** ** RESET *)

Definition no_action_input : ActionInput :=
  mkActionInput 0 None None None None [] [] false false.

(** [command_guid] is the optional [guid] of the command, [fresh_guid]
    the [uuid4] drawn when it is absent. *)
Definition reset_game (game_id card_id : string) (command_guid : option string)
    (fresh_guid : string) (db : Stores) : Stores * outcome FrameResponse :=
  let game_exists := existsb (String.eqb game_id) (get_available_games game_loader) in
  if negb game_exists then (db, HTTPException 400 "Unknown game_id") else
  match scorecards_db db !! card_id with
  | None => (db, HTTPException 400 "Unknown card_id")
  | Some scorecard =>
      match (match command_guid with
             | None => Some fresh_guid
             | Some guid =>
                 match sessions_db db !! guid with
                 | Some _ => Some guid
                 | None => None
                 end
             end) with
      | None => (db, HTTPException 400 "Unknown guid")
      | Some guid =>
          let game_state := get_game_state game_id "level_1" in
          let session :=
            mkSession game_id card_id (fst game_state) (snd game_state)
                      "level_1" 0
                      (create_frame_from_game_data game_id "level_1" initial) in
          let game_card :=
            match sc_cards scorecard !! game_id with
            | Some game_card => game_card
            | None => mkPerGameCard game_id 0 0 [] [] []
            end in
          let game_card := set_total_plays (gc_total_plays game_card + 1) game_card in
          let game_card := set_scores (gc_scores game_card ++ [snd game_state]) game_card in
          let game_card := set_states (gc_states game_card ++ [fst game_state]) game_card in
          let game_card := set_actions (gc_actions game_card ++ [0]) game_card in
          let scorecard := set_sc_played (sc_played scorecard + 1) scorecard in
          (commit guid session card_id scorecard game_id game_card db,
           FrameResponse_validate
             (mkFrameResponse game_id guid
                (create_frame_from_game_data game_id "level_1" initial)
                (fst game_state) (snd game_state) 100 no_action_input))
      end
  end.

(** ** Actions: the block-toggle rule *)

Definition base_x : Z := 4.
Definition base_y : Z := 10.
Definition block_size : Z := 12.
Definition gap : Z := 4.

(** The eight blocks: [block_index] is [3 * row + col + 1] and index 5 is
    skipped. *)
Definition blocks : list Block :=
  flat_map (fun row =>
    flat_map (fun col =>
      let block_index := 3 * row + col + 1 in
      if block_index =? 5 then []
      else
        let bx1 := base_x + col * (block_size + gap) in
        let by1 := base_y + row * (block_size + gap) in
        [mkBlock bx1 by1 (bx1 + block_size - 1) (by1 + block_size - 1)])
      (range 0 3))
    (range 0 3).

Definition win_blocks : list Block :=
  [ mkBlock 20 10 31 21; mkBlock 4 26 15 37;
    mkBlock 36 26 47 37; mkBlock 20 42 31 53 ].

Definition in_block (block : Block) (x y : Z) : bool :=
  (x1 block <=? x) && (x <=? x2 block) && (y1 block <=? y) && (y <=? y2 block).

Definition toggle_colour (block_color : Z) : Z :=
  if block_color =? 9 then 8
  else if block_color =? 8 then 9
  else 9.

(** The accumulator of the toggle loops: the grid [current_frame[0]],
    [toggled], [old_colors] and [new_colors]. *)
Definition toggle_cell (block_y block_x : Z)
    (acc : Grid * bool * list Z * list Z) : Grid * bool * list Z * list Z :=
  let '(grid, toggled, old_colors, new_colors) := acc in
  match grid !! Z.to_nat block_y with
  | None => acc
  | Some row =>
      match row !! Z.to_nat block_x with
      | None => acc
      | Some block_color =>
          (<[Z.to_nat block_y := <[Z.to_nat block_x := toggle_colour block_color]> row]> grid,
           true,
           old_colors ++ [block_color],
           new_colors ++ [toggle_colour block_color])
      end
  end.

Definition toggle_block (block : Block) (grid : Grid)
  : Grid * bool * list Z * list Z :=
  fold_left
    (fun acc block_y =>
       fold_left (fun acc block_x => toggle_cell block_y block_x acc)
                 (range (x1 block) (x2 block + 1)) acc)
    (range (y1 block) (y2 block + 1))
    (grid, false, [], []).

(** A cell of a win block is acceptable when it is outside the grid or
    holds colour 8. *)
Definition cell_is_red (grid : Grid) (block_y block_x : Z) : bool :=
  match cell grid (Z.to_nat block_y) (Z.to_nat block_x) with
  | Some c => c =? 8
  | None => true
  end.

(** The [break]s only cut the scan short once the flag is [False]. *)
Definition win_condition_met (grid : Grid) : bool :=
  forallb (fun win_block =>
    forallb (fun block_y =>
      forallb (fun block_x => cell_is_red grid block_y block_x)
              (range (x1 win_block) (x2 win_block + 1)))
      (range (y1 win_block) (y2 win_block + 1)))
    win_blocks.

(** [session["win_score"]]: no session dictionary has this key
    ([reset_game] is the only writer of [sessions_db] and does not set
    it), so the lookup is a [KeyError]. *)
Definition session_win_score (session : Session) : option Z := None.

Definition toggle_input (action_id : Z) (action_data : ActionData)
    (block : Block) (old_colors new_colors : list Z) (win : bool) : ActionInput :=
  mkActionInput action_id (ad_x action_data) (ad_y action_data) (Some true)
                (Some block) old_colors new_colors win false.

(** The body of [if toggled:] for the block that was hit; [grid] is
    [current_frame[0]] after the toggle and [rest] the tail of
    [current_frame]. *)
Definition toggled_update (game_id guid : string) (action_id : Z)
    (action_data : ActionData) (block : Block) (session : Session)
    (grid : Grid) (rest : Frame) (old_colors new_colors : list Z)
    (db : Stores) : Stores * outcome FrameResponse :=
  let current_frame := grid :: rest in
  let session := set_current_frame current_frame session in
  let session := set_actions_taken (s_actions_taken session + 1) session in
  let card_id := s_card_id session in
  match scorecards_db db !! card_id with
  | None => (put_session guid session db, Raised "KeyError")
  | Some scorecard =>
  match sc_cards scorecard !! game_id with
  | None => (put_session guid session db, Raised "KeyError")
  | Some game_card =>
  let game_card := set_total_actions (gc_total_actions game_card + 1) game_card in
  match get_last (gc_actions game_card) with
  | None => (commit guid session card_id scorecard game_id game_card db,
             Raised "IndexError")
  | Some n =>
  let game_card := set_actions (set_last (gc_actions game_card) (n + 1)) game_card in
  let scorecard := set_sc_total_actions (sc_total_actions scorecard + 1) scorecard in
  if win_condition_met grid then
    let session := set_state WIN session in
    let session := set_score 1 session in
    match gc_scores game_card with
    | [] => (commit guid session card_id scorecard game_id game_card db,
             Raised "IndexError")
    | _ :: _ =>
    let game_card := set_scores (set_last (gc_scores game_card) (s_score session)) game_card in
    match gc_states game_card with
    | [] => (commit guid session card_id scorecard game_id game_card db,
             Raised "IndexError")
    | _ :: _ =>
    let game_card := set_states (set_last (gc_states game_card) WIN) game_card in
    let scorecard := set_sc_won (sc_won scorecard + 1) scorecard in
    let scorecard := set_sc_score 1 scorecard in
    (commit guid session card_id scorecard game_id game_card db,
     FrameResponse_validate
       (mkFrameResponse game_id guid current_frame WIN (s_score session) 100
          (toggle_input action_id action_data block old_colors new_colors true)))
    end
    end
  else
    (commit guid session card_id scorecard game_id game_card db,
     FrameResponse_validate
       (mkFrameResponse game_id guid current_frame (s_state session)
          (s_score session) 100
          (toggle_input action_id action_data block old_colors new_colors false)))
  end
  end
  end.

(** How the block-toggle part of [execute_action] ends: it returns (or
    raises), or control reaches "Regular action execution". *)
Inductive toggle_exit :=
| Exit (r : Stores * outcome FrameResponse)
| FallThrough.

(** [for block in blocks:] with the flag [clicked_in_block]; a block that
    is hit but toggles nothing lets the loop go on. *)
Fixpoint block_loop (game_id guid : string) (action_id : Z)
    (action_data : ActionData) (x y : Z) (session : Session)
    (grid : Grid) (rest : Frame) (db : Stores)
    (clicked_in_block : bool) (bs : list Block) : toggle_exit :=
  match bs with
  | [] =>
      if negb clicked_in_block then
        match session_win_score session with
        | None => Exit (db, Raised "KeyError")
        | Some win_score =>
            Exit (db, FrameResponse_validate
                        (mkFrameResponse game_id guid (grid :: rest)
                           (s_state session) (s_score session) win_score
                           (mkActionInput action_id (ad_x action_data)
                              (ad_y action_data) (Some false) None [] []
                              false true)))
        end
      else FallThrough
  | block :: bs' =>
      if in_block block x y then
        let '(grid', toggled, old_colors, new_colors) := toggle_block block grid in
        if toggled then
          Exit (toggled_update game_id guid action_id action_data block session
                  grid' rest old_colors new_colors db)
        else
          block_loop game_id guid action_id action_data x y session
                     grid' rest db true bs'
      else
        block_loop game_id guid action_id action_data x y session
                   grid rest db clicked_in_block bs'
  end.

(** [action_id == 6 and action_data and "x" in action_data and "y" in
    action_data], followed by the test that [current_frame[0][y][x]]
    exists. *)
Definition toggle_rule (game_id guid : string) (action_id : Z)
    (action_data : ActionData) (session : Session) (db : Stores) : toggle_exit :=
  if negb (action_id =? 6) then FallThrough else
  match ad_x action_data, ad_y action_data with
  | Some x, Some y =>
      match s_current_frame session with
      | [] => FallThrough
      | grid :: rest =>
          if negb (Z.of_nat (length grid) >? y) then FallThrough else
          match py_index grid y with
          | None => Exit (db, Raised "IndexError")
          | Some row =>
              if negb (Z.of_nat (length row) >? x) then FallThrough else
              block_loop game_id guid action_id action_data x y session
                         grid rest db false blocks
          end
      end
  | _, _ => FallThrough
  end.

(** ** Actions: the generic cell-match rule *)

(** One iteration of the counting loops; the accumulator is
    [(correct_cells, total_cells)]. *)
Definition count_cell (grid final_frame : Grid) (y x : nat) (acc : Z * Z) : Z * Z :=
  match cell grid y x with
  | None => acc
  | Some current_color =>
      let final_color := pad_cell final_frame y x in
      (if current_color =? final_color then fst acc + 1 else fst acc,
       snd acc + 1)
  end.

Definition count_cells (grid final_frame : Grid) : Z * Z :=
  fold_left
    (fun acc y =>
       fold_left (fun acc x => count_cell grid final_frame y x acc) (seq 0 64) acc)
    (seq 0 64) (0, 0).

Definition cell_matches (grid final_frame : Grid) (check_y check_x : nat) : bool :=
  match cell grid check_y check_x with
  | None => true
  | Some current_color => current_color =? pad_cell final_frame check_y check_x
  end.

(** [matches_final] after the two loops; the [break]s leave both loops at
    the first mismatch. *)
Definition matches_final (current_frame : Frame) (final_frame : Grid) : bool :=
  match current_frame with
  | [] => true
  | grid :: _ =>
      forallb (fun check_y =>
        forallb (fun check_x => cell_matches grid final_frame check_y check_x)
                (seq 0 64))
        (seq 0 64)
  end.

(** The score computed under "Calculate meaningful score"; [None] when
    [int()] raises. *)
Definition new_score (session : Session) (final_data : option Frame) : option Z :=
  match final_data, s_current_frame session with
  | Some (final_frame :: _), grid :: _ =>
      let '(correct_cells, total_cells) := count_cells grid final_frame in
      if total_cells >? 0 then progress_score correct_cells total_cells
      else Some (s_score session + 1)
  | _, _ => Some (s_score session + 1)
  end.

Definition generic_input (action_id : Z) (action_data : option ActionData) : ActionInput :=
  mkActionInput action_id
    (match action_data with Some d => ad_x d | None => None end)
    (match action_data with Some d => ad_y d | None => None end)
    None None [] [] false false.

(** "Regular action execution" to the end of [execute_action]. *)
Definition regular_action (game_id guid : string) (action_id : Z)
    (action_data : option ActionData) (session : Session) (db : Stores)
  : Stores * outcome FrameResponse :=
  let session := set_actions_taken (s_actions_taken session + 1) session in
  let level := s_level session in
  let current_frame := s_current_frame session in
  let final_data := get_frame_data game_id level final in
  match new_score session final_data with
  | None => (put_session guid session db, Raised "ValueError")
  | Some score =>
  let session := set_score score session in
  let card_id := s_card_id session in
  match scorecards_db db !! card_id with
  | None => (put_session guid session db, Raised "KeyError")
  | Some scorecard =>
  match sc_cards scorecard !! game_id with
  | None => (put_session guid session db, Raised "KeyError")
  | Some game_card =>
  let game_card := set_total_actions (gc_total_actions game_card + 1) game_card in
  match get_last (gc_actions game_card) with
  | None => (commit guid session card_id scorecard game_id game_card db,
             Raised "IndexError")
  | Some n =>
  let game_card := set_actions (set_last (gc_actions game_card) (n + 1)) game_card in
  match gc_scores game_card with
  | [] => (commit guid session card_id scorecard game_id game_card db,
           Raised "IndexError")
  | _ :: _ =>
  let game_card := set_scores (set_last (gc_scores game_card) (s_score session)) game_card in
  let win :=
    match final_data with
    | Some (final_frame :: _) => matches_final current_frame final_frame
    | _ => false
    end in
  let session :=
    if win then set_score 1 (set_state WIN session)
    else set_state NOT_FINISHED session in
  match gc_states game_card with
  | [] => (commit guid session card_id scorecard game_id game_card db,
           Raised "IndexError")
  | _ :: _ =>
  let game_card :=
    set_states (set_last (gc_states game_card) (if win then WIN else NOT_FINISHED))
               game_card in
  let scorecard :=
    if win then set_sc_score 1 (set_sc_won (sc_won scorecard + 1) scorecard)
    else scorecard in
  let scorecard := set_sc_total_actions (sc_total_actions scorecard + 1) scorecard in
  let frame_type := if GameState_eqb (s_state session) WIN then final else initial in
  let frame_data := create_frame_from_game_data game_id level frame_type in
  let session := set_current_frame frame_data session in
  (commit guid session card_id scorecard game_id game_card db,
   FrameResponse_validate
     (mkFrameResponse game_id guid frame_data (s_state session)
        (s_score session) 100 (generic_input action_id action_data)))
  end
  end
  end
  end
  end
  end.

(** ** [execute_action] *)

Definition execute_action (game_id guid : string) (action_id : Z)
    (action_data : option ActionData) (db : Stores)
  : Stores * outcome FrameResponse :=
  match sessions_db db !! guid with
  | None => (db, HTTPException 400 "Unknown guid")
  | Some session =>
      if negb (String.eqb (s_game_id session) game_id)
      then (db, HTTPException 400 "Guid does not belong to game_id")
      else
        match (match action_data with
               | Some d => toggle_rule game_id guid action_id d session db
               | None => FallThrough
               end) with
        | Exit r => r
        | FallThrough => regular_action game_id guid action_id action_data session db
        end
  end.

(** ** Commands and reachable stores *)

Inductive Command :=
| OpenScorecard (card_id api_key : string) (source_url : option string)
                (tags : list string)
| Reset (game_id card_id : string) (command_guid : option string)
        (fresh_guid : string)
| Action (game_id guid : string) (action_id : Z) (action_data : option ActionData).

(** The stores after a command, whatever the command produced. *)
Definition run (c : Command) (db : Stores) : Stores :=
  match c with
  | OpenScorecard card_id api_key source_url tags =>
      fst (open_scorecard card_id api_key source_url tags db)
  | Reset game_id card_id command_guid fresh_guid =>
      fst (reset_game game_id card_id command_guid fresh_guid db)
  | Action game_id guid action_id action_data =>
      fst (execute_action game_id guid action_id action_data db)
  end.

Definition run_all (cs : list Command) (db : Stores) : Stores :=
  fold_left (fun db c => run c db) cs db.

(** [uuid4] never hands out an identifier twice. *)
Definition fresh_ids (c : Command) (db : Stores) : Prop :=
  match c with
  | OpenScorecard card_id _ _ _ => scorecards_db db !! card_id = None
  | Reset _ _ None fresh_guid => sessions_db db !! fresh_guid = None
  | Reset _ _ (Some _) _ => True
  | Action _ _ _ _ => True
  end.

(** Every command of a sequence draws fresh identifiers. *)
Fixpoint steps_fresh (cs : list Command) (db : Stores) : Prop :=
  match cs with
  | [] => True
  | c :: cs' => fresh_ids c db ∧ steps_fresh cs' (run c db)
  end.

(** The stores the process can be in: those some sequence of commands
    leads to from the empty dictionaries. *)
Inductive reachable : Stores -> Prop :=
| reachable_init : reachable empty_stores
| reachable_step c db :
    reachable db -> fresh_ids c db -> reachable (run c db).

End Engine.

(** ** Concrete level data used by the examples *)

Definition red_grid : Grid := repeat (repeat 8 64%nat) 64%nat.

(** Game ["G"] has a level 1 with an all-red initial grid and no final
    grid; game ["H"] has an initial and a final grid that pad to all
    zeros; game ["P"] has an initial grid that differs from its final
    grid in the cell (0,0) only. *)
Definition demo_loader : GameDataLoader :=
  mkGameDataLoader ["G"; "H"; "P"]
    (fun game_id level =>
       if negb (String.eqb level "level_1") then None
       else if String.eqb game_id "G" then Some (mkLevelData (Some red_grid) None)
       else if String.eqb game_id "H" then Some (mkLevelData (Some [[0]]) (Some [[0]]))
       else if String.eqb game_id "P" then Some (mkLevelData (Some [[1]]) (Some [[0]]))
       else None).

Definition demo_start_P : list Command :=
  [ OpenScorecard "card" "test-api-key-12345" None [];
    Reset "P" "card" None "g1" ].

Definition click (x y : Z) : option ActionData :=
  Some (mkActionData (Some x) (Some y)).

Definition demo_start : list Command :=
  [ OpenScorecard "card" "test-api-key-12345" None [];
    Reset "G" "card" None "g1" ].

Definition session_state (guid : string) (db : Stores) : option GameState :=
  s_state <$> sessions_db db !! guid.

Definition session_score (guid : string) (db : Stores) : option Z :=
  s_score <$> sessions_db db !! guid.

(** After the start, one click in block 2, which turns it blue. *)
Definition demo_toggled : list Command :=
  demo_start ++ [ Action "G" "g1" 6 (click 20 10) ].

Definition session_frame (guid : string) (db : Stores) : option Frame :=
  s_current_frame <$> sessions_db db !! guid.

(** After the start, one click in block 1: the four win blocks are red. *)
Definition demo_won : list Command :=
  demo_start ++ [ Action "G" "g1" 6 (click 4 10) ].

Definition session_game_id (guid : string) (db : Stores) : option string :=
  s_game_id <$> sessions_db db !! guid.

(** After the start, 254 generic actions on the game without final grid. *)
Definition demo_254 : list Command :=
  demo_start ++ repeat (Action "G" "g1" 1 None) 254.

(** A session of game ["H"], whose initial grid pads to its final grid. *)
Definition demo_start_H : list Command :=
  [ OpenScorecard "card" "test-api-key-12345" None [];
    Reset "H" "card" None "g1" ].

(** ** Vocabulary of the statements *)

(** A grid of 64 rows of 64 cells. *)
Definition is_64x64 (g : Grid) : Prop :=
  length g = 64%nat ∧ Forall (fun row : list Z => length row = 64%nat) g.

(** A frame holding exactly one 64x64 grid. *)
Definition frame_ok (f : Frame) : Prop := ∃ g, f = [g] ∧ is_64x64 g.

(** The 4096 positions [(y, x)]. *)
Definition all_cells : list (nat * nat) := list_prod (seq 0 64) (seq 0 64).

(** The grid agrees with the reference at a position; a reference cell
    that is missing counts as colour 0. *)
Definition agrees (grid reference : Grid) (p : nat * nat) : bool :=
  match cell grid (fst p) (snd p) with
  | Some c => c =? pad_cell reference (fst p) (snd p)
  | None => false
  end.

(** The number of the 4096 cells in which the grid equals the reference. *)
Definition matched (grid reference : Grid) : Z :=
  Z.of_nat (length (List.filter (agrees grid reference) all_cells)).

(** The win test of the generic rule. *)
Definition generic_win (game_loader : GameDataLoader) (game_id : string)
    (s : Session) : bool :=
  match get_frame_data game_loader game_id (s_level s) final with
  | Some (final_frame :: _) => matches_final (s_current_frame s) final_frame
  | _ => false
  end.

(** The action is served by the generic rule: the block-toggle part of
    [execute_action] falls through. *)
Definition takes_generic_rule (game_id guid : string) (action_id : Z) (action_data : option ActionData)
    (session : Session) (db : Stores) : Prop :=
  match action_data with
  | None => True
  | Some d => toggle_rule game_id guid action_id d session db = FallThrough
  end.

(** [l'] differs from [l] at most in its last entry. *)
Definition same_but_last {A : Type} (l l' : list A) : Prop :=
  length l' = length l ∧
  ∀ i : nat, (S i < length l)%nat → l' !! i = l !! i.

(** What an action may do to a game card: the number of plays and the
    length of the three lists stay, only last entries change. *)
Definition card_step (gc gc' : PerGameCard) : Prop :=
  gc_game_id gc' = gc_game_id gc ∧
  gc_total_plays gc' = gc_total_plays gc ∧
  same_but_last (gc_scores gc) (gc_scores gc') ∧
  same_but_last (gc_states gc) (gc_states gc') ∧
  same_but_last (gc_actions gc) (gc_actions gc').

(** What an action may do to a session: identity and level stay, and a
    well-shaped frame stays well-shaped. *)
Definition session_step (s s' : Session) : Prop :=
  s_game_id s' = s_game_id s ∧
  s_card_id s' = s_card_id s ∧
  s_level s' = s_level s ∧
  (frame_ok (s_current_frame s) → frame_ok (s_current_frame s')).

(** What an action may do to a scorecard apart from its game card. *)
Definition scorecard_step (sc sc' : Scorecard) : Prop :=
  sc_card_id sc' = sc_card_id sc ∧
  sc_api_key sc' = sc_api_key sc ∧
  sc_played sc' = sc_played sc ∧
  sc_cards sc' = sc_cards sc.

(** The ways [execute_action] can leave the stores. *)
Inductive action_effect (guid game_id : string) (db : Stores) : Stores -> Prop :=
| effect_none : action_effect guid game_id db db
| effect_session s s' :
    sessions_db db !! guid = Some s ->
    session_step s s' ->
    action_effect guid game_id db (put_session guid s' db)
| effect_commit s s' sc sc' gc gc' :
    sessions_db db !! guid = Some s ->
    session_step s s' ->
    scorecards_db db !! s_card_id s = Some sc ->
    sc_cards sc !! game_id = Some gc ->
    scorecard_step sc sc' ->
    card_step gc gc' ->
    action_effect guid game_id db (commit guid s' (s_card_id s) sc' game_id gc' db).

(** The three per-play lists of a game card are as long as its number of
    plays. *)
Definition card_lists_ok (gc : PerGameCard) : Prop :=
  Z.of_nat (length (gc_scores gc)) = gc_total_plays gc ∧
  Z.of_nat (length (gc_states gc)) = gc_total_plays gc ∧
  Z.of_nat (length (gc_actions gc)) = gc_total_plays gc.

Definition cards_ok (db : Stores) : Prop :=
  ∀ card_id sc game_id gc,
    scorecards_db db !! card_id = Some sc →
    sc_cards sc !! game_id = Some gc →
    card_lists_ok gc.

(** A session points at the game card of its current play. *)
Definition session_ok (db : Stores) (s : Session) : Prop :=
  frame_ok (s_current_frame s) ∧
  s_level s = "level_1" ∧
  ∃ sc gc,
    scorecards_db db !! s_card_id s = Some sc ∧
    sc_cards sc !! s_game_id s = Some gc ∧
    (0 < length (gc_scores gc))%nat ∧
    (0 < length (gc_states gc))%nat ∧
    (0 < length (gc_actions gc))%nat.

Definition sessions_ok (db : Stores) : Prop :=
  ∀ guid s, sessions_db db !! guid = Some s → session_ok db s.

(** Every game card of [db] is still there in [db'], with lists at least
    as long. *)
Definition cards_grow (db db' : Stores) : Prop :=
  ∀ card_id sc game_id gc,
    scorecards_db db !! card_id = Some sc →
    sc_cards sc !! game_id = Some gc →
    ∃ sc' gc',
      scorecards_db db' !! card_id = Some sc' ∧
      sc_cards sc' !! game_id = Some gc' ∧
      (length (gc_scores gc) ≤ length (gc_scores gc'))%nat ∧
      (length (gc_states gc) ≤ length (gc_states gc'))%nat ∧
      (length (gc_actions gc) ≤ length (gc_actions gc'))%nat.

(** Some command of the sequence [cs], run from [db], is a reset of
    [game_id] under [card_id] that went through. *)
Fixpoint was_reset (game_loader : GameDataLoader) (game_id card_id : string)
    (cs : list Command) (db : Stores) : Prop :=
  match cs with
  | [] => False
  | c :: cs' =>
      match c with
      | Reset g c' command_guid fresh_guid =>
          g = game_id ∧ c' = card_id ∧
          ∃ r, (reset_game game_loader g c' command_guid fresh_guid db).2 = Returned r
      | _ => False
      end
      ∨ was_reset game_loader game_id card_id cs' (run game_loader c db)
  end.

(** The scorecard [card_id], if there is one, has the game card
    [game_id]. *)
Definition has_game_card (card_id game_id : string) (db : Stores) : Prop :=
  ∃ sc gc, scorecards_db db !! card_id = Some sc ∧ sc_cards sc !! game_id = Some gc.

(** An action command is rejected by validation. *)
Definition action_rejected (game_id guid : string) (db : Stores) : Prop :=
  sessions_db db !! guid = None ∨
  ∃ s, sessions_db db !! guid = Some s ∧ s_game_id s ≠ game_id.

(** A reset command is rejected by validation. *)
Definition reset_rejected (game_loader : GameDataLoader) (game_id card_id : string)
    (command_guid : option string) (db : Stores) : Prop :=
  game_id ∉ get_available_games game_loader ∨
  scorecards_db db !! card_id = None ∨
  ∃ guid, command_guid = Some guid ∧ sessions_db db !! guid = None.

(** [progress_score] gives the exact integer quotient for [m] cells out
    of 4096. *)
Definition progress_row (m : Z) : bool :=
  match progress_score m 4096 with
  | Some v => v =? m * 100 / 4096
  | None => false
  end.

(** ** Vocabulary of the further properties *)

Definition sum_Z (l : list Z) : Z := foldr Z.add 0 l.

(** The sum of a counter over the game cards of a scorecard. *)
Definition cards_total (f : PerGameCard → Z) (cards : gmap string PerGameCard) : Z :=
  map_fold (fun _ gc acc => f gc + acc) 0 cards.

(** A game card once an action is booked on its latest play: one more
    action in total and on the play, and the play's score and state
    overwritten when the action gives one. *)
Definition book_action (play_score : option Z) (play_state : option GameState)
    (gc : PerGameCard) : PerGameCard :=
  mkPerGameCard (gc_game_id gc) (gc_total_plays gc) (gc_total_actions gc + 1)
    (match play_score with
     | Some v => set_last (gc_scores gc) v
     | None => gc_scores gc
     end)
    (match play_state with
     | Some st => set_last (gc_states gc) st
     | None => gc_states gc
     end)
    (set_last (gc_actions gc) (default 0 (get_last (gc_actions gc)) + 1)).

(** A scorecard once an action is booked: one more action, and one more
    win with the score forced to 1 when the action wins. *)
Definition book_scorecard (win : bool) (sc : Scorecard) : Scorecard :=
  mkScorecard (sc_card_id sc) (sc_api_key sc) (sc_source_url sc) (sc_tags sc)
    (if win then sc_won sc + 1 else sc_won sc) (sc_played sc)
    (sc_total_actions sc + 1) (if win then 1 else sc_score sc) (sc_cards sc).

(** The session after a click that toggled [block] in its grid. *)
Definition toggled_session (block : Block) (s : Session) (grid : Grid)
    (rest : Frame) : Session :=
  let grid' := (toggle_block block grid).1.1.1 in
  let win := win_condition_met grid' in
  mkSession (s_game_id s) (s_card_id s)
    (if win then WIN else s_state s) (if win then 1 else s_score s)
    (s_level s) (s_actions_taken s + 1) (grid' :: rest).

(** The session after a generic action that computed [score]. *)
Definition generic_session (game_loader : GameDataLoader) (s : Session)
    (score : Z) : Session :=
  let win := generic_win game_loader (s_game_id s) s in
  mkSession (s_game_id s) (s_card_id s)
    (if win then WIN else NOT_FINISHED) (if win then 1 else score)
    (s_level s) (s_actions_taken s + 1)
    (create_frame_from_game_data game_loader (s_game_id s) (s_level s)
       (if win then final else initial)).

(** Every cell of the grid is a colour of the 4-bit palette. *)
Definition colours_ok (g : Grid) : Prop :=
  Forall (Forall (fun c : Z => 0 <= c <= 15)) g.

(** Every grid of the level files holds palette colours only. *)
Definition loader_colours_ok (game_loader : GameDataLoader) : Prop :=
  ∀ game_id level ld g,
    load_level game_loader game_id level = Some ld →
    ld_initial_grid ld = Some g ∨ ld_final_grid ld = Some g →
    colours_ok g.

(** The books of one scorecard stored under [card_id] are consistent. *)
Definition scorecard_books_ok (card_id : string) (sc : Scorecard) : Prop :=
  sc_card_id sc = card_id ∧
  0 <= sc_won sc ∧
  sc_score sc = (if sc_won sc >? 0 then 1 else 0) ∧
  sc_played sc = cards_total gc_total_plays (sc_cards sc) ∧
  sc_total_actions sc = cards_total gc_total_actions (sc_cards sc) ∧
  ∀ game_id gc,
    sc_cards sc !! game_id = Some gc →
    gc_game_id gc = game_id ∧
    gc_total_actions gc = sum_Z (gc_actions gc).

Definition books_ok (db : Stores) : Prop :=
  ∀ card_id sc, scorecards_db db !! card_id = Some sc → scorecard_books_ok card_id sc.

(** The score of every session is non-negative, as is its action count,
    and it is at most 100 when the session's level has a final grid. *)
Definition session_scores_ok (game_loader : GameDataLoader) (db : Stores) : Prop :=
  ∀ guid s,
    sessions_db db !! guid = Some s →
    0 <= s_score s ∧ 0 <= s_actions_taken s ∧
    (is_Some (get_frame_data game_loader (s_game_id s) (s_level s) final) →
     s_score s <= 100).

(** Every grid stored in a session holds palette colours only. *)
Definition session_colours_ok (db : Stores) : Prop :=
  ∀ guid s, sessions_db db !! guid = Some s → Forall colours_ok (s_current_frame s).

(** The plays of a game card whose recorded state is WIN. *)
Definition plays_won (gc : PerGameCard) : Z := count_wins (gc_states gc).

(** A scorecard counts at least the wins its plays show, and no total of
    a game card is negative. *)
Definition wins_ok (db : Stores) : Prop :=
  ∀ card_id sc,
    scorecards_db db !! card_id = Some sc →
    cards_total plays_won (sc_cards sc) <= sc_won sc ∧
    ∀ game_id gc,
      sc_cards sc !! game_id = Some gc →
      0 <= gc_total_plays gc ∧ 0 <= gc_total_actions gc.

(** Two outcomes that differ at most in the echoed [action_input]. *)
Definition same_but_echo (o o' : outcome FrameResponse) : Prop :=
  match o, o' with
  | Returned r, Returned r' =>
      fr_game_id r = fr_game_id r' ∧ fr_guid r = fr_guid r' ∧
      fr_frame r = fr_frame r' ∧ fr_state r = fr_state r' ∧
      fr_score r = fr_score r' ∧ fr_win_score r = fr_win_score r'
  | HTTPException c d, HTTPException c' d' => c = c' ∧ d = d'
  | Raised e, Raised e' => e = e'
  | _, _ => False
  end.

(** * Properties *)

(** ** The progress score is exact on 4096 cells *)

Lemma progress_table : forallb progress_row (seqZ 0 4097) = true.
Proof. vm_compute. reflexivity. Qed.

Lemma progress_score_exact (m : Z) :
  0 <= m <= 4096 → progress_score m 4096 = Some (m * 100 / 4096).
Proof.
  intros Hm.
  assert (Hrow : progress_row m = true).
  { eapply (proj1 (forallb_forall progress_row (seqZ 0 4097))).
    - exact progress_table.
    - apply list_elem_of_In, elem_of_seqZ. lia. }
  unfold progress_row in Hrow.
  destruct (progress_score m 4096) as [v|]; [|discriminate].
  apply Z.eqb_eq in Hrow. by subst.
Qed.

(** ** Shape of the frames the level provider serves *)

Lemma pad_grid_64 (grid : Grid) : is_64x64 (pad_grid grid).
Proof.
  unfold is_64x64, pad_grid. split.
  - by rewrite length_map, length_seq.
  - apply Forall_forall. intros row Hrow.
    apply list_elem_of_fmap in Hrow as (y & -> & _).
    by rewrite length_map, length_seq.
Qed.

Lemma mock_grid_64 : is_64x64 mock_grid.
Proof.
  unfold is_64x64, mock_grid. split.
  - by rewrite length_map, length_seq.
  - apply Forall_forall. intros row Hrow.
    apply list_elem_of_fmap in Hrow as (y & -> & _).
    by rewrite length_map, length_seq.
Qed.

Lemma get_frame_data_ok gl game_id level frame_type frame_data :
  get_frame_data gl game_id level frame_type = Some frame_data →
  frame_ok frame_data.
Proof.
  unfold get_frame_data. intros H.
  destruct (load_level gl game_id level) as [ld|]; [|done].
  destruct (match frame_type with
            | initial => ld_initial_grid ld
            | final => ld_final_grid ld
            end) as [[|row grid]|]; simplify_eq.
  eexists. split; [done|]. apply pad_grid_64.
Qed.

Lemma create_frame_ok gl game_id level frame_type :
  frame_ok (create_frame_from_game_data gl game_id level frame_type).
Proof.
  unfold create_frame_from_game_data.
  destruct (get_frame_data gl game_id level frame_type) eqn:E.
  - by eapply get_frame_data_ok.
  - exists mock_grid. split; [done|]. apply mock_grid_64.
Qed.

Lemma cell_64 (g : Grid) (y x : nat) :
  is_64x64 g → (y < 64)%nat → (x < 64)%nat → is_Some (cell g y x).
Proof.
  intros [Hlen Hrows] Hy Hx. unfold cell.
  destruct (lookup_lt_is_Some_2 g y) as [row Hrow]; [lia|].
  rewrite Hrow. apply lookup_lt_is_Some_2.
  rewrite Forall_forall in Hrows.
  rewrite (Hrows row); [lia|]. by eapply list_elem_of_lookup_2.
Qed.

(** ** The toggle of one block, cell by cell *)

Section Toggle.

#[local] Set Warnings "-clear-no-such-hyp".

Implicit Types (acc : Grid * bool * list Z * list Z) (grid : Grid).

Lemma cell_insert grid (y x : nat) row v (cy cx : nat) :
  grid !! y = Some row → is_Some (row !! x) →
  cell (<[y := <[x := v]> row]> grid) cy cx =
  if decide (cy = y ∧ cx = x) then Some v else cell grid cy cx.
Proof.
  intros Hrow Hx. unfold cell.
  destruct (decide (cy = y)) as [->|Hy].
  - rewrite list_lookup_insert_eq by (by eapply lookup_lt_Some).
    rewrite Hrow.
    destruct (decide (cx = x)) as [->|Hne].
    + rewrite list_lookup_insert_eq by (by apply lookup_lt_is_Some_1).
      by rewrite decide_True.
    + rewrite list_lookup_insert_ne by done.
      rewrite decide_False; [done|]. by intros [_ ?].
  - rewrite list_lookup_insert_ne by done.
    rewrite decide_False; [done|]. by intros [? _].
Qed.

Lemma toggle_cell_cell block_y block_x acc (cy cx : nat) :
  cell (toggle_cell block_y block_x acc).1.1.1 cy cx =
  if decide (cy = Z.to_nat block_y ∧ cx = Z.to_nat block_x)
  then toggle_colour <$> cell acc.1.1.1 cy cx
  else cell acc.1.1.1 cy cx.
Proof.
  destruct acc as [[[grid toggled] olds] news]. simpl.
  destruct (grid !! Z.to_nat block_y) as [row|] eqn:Hrow; simpl.
  - destruct (row !! Z.to_nat block_x) as [c|] eqn:Hc; simpl.
    + rewrite (cell_insert grid _ _ row) by (done || by rewrite Hc).
      case_decide as Hd; [|done]. destruct Hd as [-> ->].
      unfold cell. by rewrite Hrow, Hc.
    + case_decide as Hd; [|done]. destruct Hd as [-> ->].
      unfold cell. by rewrite Hrow, Hc.
  - case_decide as Hd; [|done]. destruct Hd as [-> ->].
    unfold cell. by rewrite Hrow.
Qed.

Lemma toggle_cell_toggled block_y block_x acc :
  (toggle_cell block_y block_x acc).1.1.2 =
  acc.1.1.2 || bool_decide (is_Some (cell acc.1.1.1 (Z.to_nat block_y) (Z.to_nat block_x))).
Proof.
  destruct acc as [[[grid toggled] olds] news]. simpl. unfold cell.
  destruct (grid !! Z.to_nat block_y) as [row|] eqn:Hrow; simpl.
  - destruct (row !! Z.to_nat block_x) as [c|] eqn:Hc; simpl.
    + by rewrite orb_true_r.
    + by rewrite orb_false_r.
  - by rewrite orb_false_r.
Qed.

Lemma toggle_cell_length block_y block_x acc :
  length (toggle_cell block_y block_x acc).1.1.1 = length acc.1.1.1.
Proof.
  destruct acc as [[[grid toggled] olds] news]. simpl.
  destruct (grid !! Z.to_nat block_y) as [row|]; [|done].
  destruct (row !! Z.to_nat block_x); [|done]. simpl.
  by rewrite length_insert.
Qed.

Lemma toggle_cell_rows block_y block_x acc (n : nat) :
  Forall (fun row : list Z => length row = n) acc.1.1.1 →
  Forall (fun row : list Z => length row = n) (toggle_cell block_y block_x acc).1.1.1.
Proof.
  destruct acc as [[[grid toggled] olds] news]. simpl. intros Hall.
  destruct (grid !! Z.to_nat block_y) as [row|] eqn:Hrow; [|done].
  destruct (row !! Z.to_nat block_x); [|done]. simpl.
  apply Forall_insert; [done|].
  rewrite length_insert.
  rewrite Forall_forall in Hall. apply Hall.
  by eapply list_elem_of_lookup_2.
Qed.

Lemma toggle_cell_has_cell block_y block_x acc (cy cx : nat) :
  is_Some (cell (toggle_cell block_y block_x acc).1.1.1 cy cx) ↔
  is_Some (cell acc.1.1.1 cy cx).
Proof.
  rewrite toggle_cell_cell. case_decide; [|done].
  by rewrite fmap_is_Some.
Qed.

(** The loop over [block_x] for one [block_y]. *)
Lemma toggle_row_cell block_y (xs : list Z) acc (cy cx : nat) :
  NoDup (Z.to_nat <$> xs) →
  cell (fold_left (fun acc block_x => toggle_cell block_y block_x acc) xs acc).1.1.1 cy cx =
  if decide (cy = Z.to_nat block_y ∧ cx ∈ (Z.to_nat <$> xs))
  then toggle_colour <$> cell acc.1.1.1 cy cx
  else cell acc.1.1.1 cy cx.
Proof.
  revert acc. induction xs as [|x xs IH]; intros acc Hnd; simpl.
  - rewrite decide_False; [done|]. intros [_ Hin]. by apply not_elem_of_nil in Hin.
  - rewrite fmap_cons in Hnd. apply NoDup_cons in Hnd as [Hx Hnd].
    rewrite IH by done. rewrite toggle_cell_cell.
    repeat case_decide; try done; exfalso.
    all: set_solver.
Qed.

Lemma toggle_row_toggled_mono block_y (xs : list Z) acc :
  acc.1.1.2 = true →
  (fold_left (fun acc block_x => toggle_cell block_y block_x acc) xs acc).1.1.2 = true.
Proof.
  revert acc. induction xs as [|x xs IH]; intros acc Ht; simpl; [done|].
  apply IH. rewrite toggle_cell_toggled. by rewrite Ht.
Qed.

Lemma toggle_row_toggled block_y (xs : list Z) acc block_x :
  block_x ∈ xs →
  is_Some (cell acc.1.1.1 (Z.to_nat block_y) (Z.to_nat block_x)) →
  (fold_left (fun acc block_x => toggle_cell block_y block_x acc) xs acc).1.1.2 = true.
Proof.
  revert acc. induction xs as [|x xs IH]; intros acc Hin Hc; simpl.
  - by apply not_elem_of_nil in Hin.
  - apply elem_of_cons in Hin as [->|Hin].
    + apply toggle_row_toggled_mono. rewrite toggle_cell_toggled.
      rewrite bool_decide_true by done. apply orb_true_r.
    + apply IH; [done|]. by apply toggle_cell_has_cell.
Qed.

Lemma toggle_row_length block_y (xs : list Z) acc :
  length (fold_left (fun acc block_x => toggle_cell block_y block_x acc) xs acc).1.1.1
  = length acc.1.1.1.
Proof.
  revert acc. induction xs as [|x xs IH]; intros acc; simpl; [done|].
  by rewrite IH, toggle_cell_length.
Qed.

Lemma toggle_row_rows block_y (xs : list Z) acc (n : nat) :
  Forall (fun row : list Z => length row = n) acc.1.1.1 →
  Forall (fun row : list Z => length row = n)
    (fold_left (fun acc block_x => toggle_cell block_y block_x acc) xs acc).1.1.1.
Proof.
  revert acc. induction xs as [|x xs IH]; intros acc H; simpl; [done|].
  by apply IH, toggle_cell_rows.
Qed.

(** The two nested loops. *)
Lemma toggle_rows_cell (ys xs : list Z) acc (cy cx : nat) :
  NoDup (Z.to_nat <$> ys) → NoDup (Z.to_nat <$> xs) →
  cell (fold_left
          (fun acc block_y =>
             fold_left (fun acc block_x => toggle_cell block_y block_x acc) xs acc)
          ys acc).1.1.1 cy cx =
  if decide (cy ∈ (Z.to_nat <$> ys) ∧ cx ∈ (Z.to_nat <$> xs))
  then toggle_colour <$> cell acc.1.1.1 cy cx
  else cell acc.1.1.1 cy cx.
Proof.
  intros Hys Hxs. revert acc Hys.
  induction ys as [|y ys IH]; intros acc Hys; simpl.
  - first [done | rewrite decide_False; [done|];
                    intros [Hin _]; by apply not_elem_of_nil in Hin].
  - rewrite fmap_cons in Hys. apply NoDup_cons in Hys as [Hy Hys].
    rewrite IH by done. rewrite toggle_row_cell by done.
    repeat case_decide; try done; exfalso.
    all: set_solver.
Qed.

Lemma toggle_rows_toggled_mono (ys xs : list Z) acc :
  acc.1.1.2 = true →
  (fold_left
     (fun acc block_y =>
        fold_left (fun acc block_x => toggle_cell block_y block_x acc) xs acc)
     ys acc).1.1.2 = true.
Proof.
  revert acc. induction ys as [|y ys IH]; intros acc Ht; simpl; [done|].
  by apply IH, toggle_row_toggled_mono.
Qed.

Lemma toggle_rows_toggled (ys xs : list Z) acc block_y block_x :
  NoDup (Z.to_nat <$> xs) →
  block_y ∈ ys → block_x ∈ xs →
  is_Some (cell acc.1.1.1 (Z.to_nat block_y) (Z.to_nat block_x)) →
  (fold_left
     (fun acc block_y =>
        fold_left (fun acc block_x => toggle_cell block_y block_x acc) xs acc)
     ys acc).1.1.2 = true.
Proof.
  intros Hxs. revert acc.
  induction ys as [|y ys IH]; intros acc Hy Hx Hc; simpl.
  - by apply not_elem_of_nil in Hy.
  - apply elem_of_cons in Hy as [->|Hy].
    + apply toggle_rows_toggled_mono. by eapply toggle_row_toggled.
    + apply IH; [done..|].
      rewrite toggle_row_cell by done.
      case_decide; [|done]. by rewrite fmap_is_Some.
Qed.

Lemma toggle_rows_length (ys xs : list Z) acc :
  length (fold_left
            (fun acc block_y =>
               fold_left (fun acc block_x => toggle_cell block_y block_x acc) xs acc)
            ys acc).1.1.1
  = length acc.1.1.1.
Proof.
  revert acc. induction ys as [|y ys IH]; intros acc; simpl; [done|].
  by rewrite IH, toggle_row_length.
Qed.

Lemma toggle_rows_rows (ys xs : list Z) acc (n : nat) :
  Forall (fun row : list Z => length row = n) acc.1.1.1 →
  Forall (fun row : list Z => length row = n)
    (fold_left
       (fun acc block_y =>
          fold_left (fun acc block_x => toggle_cell block_y block_x acc) xs acc)
       ys acc).1.1.1.
Proof.
  revert acc. induction ys as [|y ys IH]; intros acc H; simpl; [done|].
  by apply IH, toggle_row_rows.
Qed.

Lemma toggle_block_64 block grid :
  is_64x64 grid → is_64x64 (toggle_block block grid).1.1.1.
Proof.
  intros [Hlen Hrows]. unfold toggle_block. split.
  - by rewrite toggle_rows_length.
  - by apply toggle_rows_rows.
Qed.

End Toggle.

(** ** What an action does to the stores *)

Lemma same_but_last_refl {A : Type} (l : list A) : same_but_last l l.
Proof. by split. Qed.

Lemma same_but_last_set_last {A : Type} (l : list A) (v : A) :
  same_but_last l (set_last l v).
Proof.
  unfold same_but_last, set_last. split.
  - apply length_insert.
  - intros i Hi. apply list_lookup_insert_ne. lia.
Qed.

Lemma session_step_refl s : session_step s s.
Proof. by repeat split. Qed.

Create HintDb effect.
#[local] Hint Resolve same_but_last_refl same_but_last_set_last
  session_step_refl create_frame_ok : effect.

(** Closes the side conditions of [action_effect]. *)
Ltac fold_lists :=
  simpl in *;
  repeat match goal with
         | H : ?l = _ :: _ |- _ => rewrite <- H; clear H
         end.

Ltac solve_step :=
  fold_lists;
  unfold session_step, scorecard_step, card_step; simpl;
  split_and!; auto with effect.

Lemma toggled_update_effect game_id guid action_id action_data block session
    grid rest old_colors new_colors db :
  sessions_db db !! guid = Some session →
  (frame_ok (s_current_frame session) → frame_ok (grid :: rest)) →
  action_effect guid game_id db
    (toggled_update game_id guid action_id action_data block session
       grid rest old_colors new_colors db).1.
Proof.
  intros Hs Hf. unfold toggled_update.
  repeat case_match; simpl.
  all: try (eapply effect_session; [done|by solve_step]).
  all: (eapply effect_commit; [done| |done|done| |]); by solve_step.
Qed.

Lemma frame_ok_toggle block grid rest :
  frame_ok (grid :: rest) → frame_ok ((toggle_block block grid).1.1.1 :: rest).
Proof.
  intros (g & Heq & Hg). simplify_eq.
  eexists. split; [done|]. by apply toggle_block_64.
Qed.

Lemma block_loop_effect game_id guid action_id action_data x y session db bs :
  sessions_db db !! guid = Some session →
  ∀ grid rest clicked,
    (frame_ok (s_current_frame session) → frame_ok (grid :: rest)) →
    match block_loop game_id guid action_id action_data x y session
                     grid rest db clicked bs with
    | Exit r => action_effect guid game_id db r.1
    | FallThrough => True
    end.
Proof.
  intros Hs. induction bs as [|block bs IH]; intros grid rest clicked Hf; simpl.
  - destruct (negb clicked); [|done]. simpl. constructor.
  - destruct (in_block block x y); [|by apply IH].
    destruct (toggle_block block grid) as [[[grid' toggled] olds] news] eqn:Et.
    assert (Hf' : frame_ok (s_current_frame session) → frame_ok (grid' :: rest)).
    { intros H. apply Hf in H. apply (frame_ok_toggle block) in H.
      by rewrite Et in H. }
    destruct toggled; [|by apply IH].
    by apply toggled_update_effect.
Qed.

Lemma toggle_rule_effect game_id guid action_id action_data session db :
  sessions_db db !! guid = Some session →
  match toggle_rule game_id guid action_id action_data session db with
  | Exit r => action_effect guid game_id db r.1
  | FallThrough => True
  end.
Proof.
  intros Hs. unfold toggle_rule.
  destruct (negb (action_id =? 6)); [done|].
  destruct (ad_x action_data) as [x|]; [|done].
  destruct (ad_y action_data) as [y|]; [|done].
  destruct (s_current_frame session) as [|grid rest] eqn:Ef; [done|].
  destruct (negb _); [done|].
  destruct (py_index grid y) as [row|]; [|simpl; constructor].
  destruct (negb _); [done|].
  apply block_loop_effect; [done|]. by rewrite Ef.
Qed.

Lemma regular_action_effect gl game_id guid action_id action_data session db :
  sessions_db db !! guid = Some session →
  action_effect guid game_id db
    (regular_action gl game_id guid action_id action_data session db).1.
Proof.
  intros Hs. unfold regular_action.
  repeat case_match; simpl.
  all: try (eapply effect_session; [done|by solve_step]).
  all: (eapply effect_commit; [done| |done|done| |]); by solve_step.
Qed.

Lemma execute_action_effect gl game_id guid action_id action_data db :
  action_effect guid game_id db
    (execute_action gl game_id guid action_id action_data db).1.
Proof.
  unfold execute_action.
  destruct (sessions_db db !! guid) as [session|] eqn:Hs; [|constructor].
  destruct (negb _); [constructor|].
  destruct action_data as [d|].
  - pose proof (toggle_rule_effect game_id guid action_id d session db Hs) as H.
    destruct (toggle_rule game_id guid action_id d session db); [done|].
    by apply regular_action_effect.
  - by apply regular_action_effect.
Qed.

(** ** Invariants of the reachable stores *)

Lemma session_ok_grow db db' s :
  cards_grow db db' → session_ok db s → session_ok db' s.
Proof.
  intros Hg (Hf & Hl & sc & gc & Hsc & Hgc & H1 & H2 & H3).
  destruct (Hg _ _ _ _ Hsc Hgc) as (sc' & gc' & ? & ? & ? & ? & ?).
  split_and!; [done..|]. exists sc', gc'. split_and!; [done|done|lia..].
Qed.

Lemma cards_grow_refl db : cards_grow db db.
Proof.
  intros card_id sc game_id gc ??. exists sc, gc. split_and!; [done|done|lia..].
Qed.

Lemma cards_grow_commit guid s card_id sc sc' game_id gc' db :
  scorecards_db db !! card_id = Some sc →
  sc_cards sc' = sc_cards sc →
  (∀ gc0, sc_cards sc !! game_id = Some gc0 →
     (length (gc_scores gc0) ≤ length (gc_scores gc'))%nat ∧
     (length (gc_states gc0) ≤ length (gc_states gc'))%nat ∧
     (length (gc_actions gc0) ≤ length (gc_actions gc'))%nat) →
  cards_grow db (commit guid s card_id sc' game_id gc' db).
Proof.
  intros Hsc Hcards Hlen c sc0 g gc0 Hc Hg. unfold commit; simpl.
  destruct (decide (c = card_id)) as [->|Hne].
  - rewrite lookup_insert_eq. simplify_eq.
    destruct (decide (g = game_id)) as [->|Hne].
    + eexists _, gc'. split; [done|]. simpl.
      rewrite lookup_insert_eq. split; [done|]. by apply Hlen.
    + eexists _, gc0. split; [done|]. simpl. rewrite Hcards.
      rewrite lookup_insert_ne by done. split_and!; [done|lia..].
  - rewrite lookup_insert_ne by done. exists sc0, gc0. split_and!; [done|done|lia..].
Qed.

Lemma effect_cards_grow guid game_id db db' :
  action_effect guid game_id db db' → cards_grow db db'.
Proof.
  destruct 1 as [|s s' Hs Hstep|s s' sc sc' gc gc' Hs Hstep Hsc Hgc Hscs Hcs].
  - apply cards_grow_refl.
  - intros c sc g gc ??. exists sc, gc. simpl. split_and!; [done|done|lia..].
  - eapply cards_grow_commit; [done|apply Hscs|].
    intros gc0 ?. simplify_eq.
    destruct Hcs as (_ & _ & [-> _] & [-> _] & [-> _]). lia.
Qed.

Lemma effect_cards_ok guid game_id db db' :
  action_effect guid game_id db db' → cards_ok db → cards_ok db'.
Proof.
  destruct 1 as [|s s' Hs Hstep|s s' sc sc' gc gc' Hs Hstep Hsc Hgc Hscs Hcs];
    [done|done|].
  intros Hok c sc0 g gc0. unfold commit; simpl.
  destruct (decide (c = s_card_id s)) as [->|Hne].
  - rewrite lookup_insert_eq. intros ?; simplify_eq. simpl.
    destruct (decide (g = game_id)) as [->|Hne].
    + rewrite lookup_insert_eq. intros ?; simplify_eq.
      specialize (Hok _ _ _ _ Hsc Hgc).
      destruct Hcs as (_ & Hp & [Hl1 _] & [Hl2 _] & [Hl3 _]).
      unfold card_lists_ok in *. rewrite Hp, Hl1, Hl2, Hl3. done.
    + rewrite lookup_insert_ne by done. destruct Hscs as (_ & _ & _ & ->).
      intros ?. by eapply Hok.
  - rewrite lookup_insert_ne by done. apply Hok.
Qed.

Lemma effect_sessions_ok guid game_id db db' :
  action_effect guid game_id db db' → sessions_ok db → sessions_ok db'.
Proof.
  intros Heff Hok g t Ht.
  pose proof (effect_cards_grow _ _ _ _ Heff) as Hgrow.
  assert (Hcases : sessions_db db !! g = Some t ∨
                   ∃ s, sessions_db db !! guid = Some s ∧ session_step s t).
  { destruct Heff as [|s s' Hs Hstep|s s' sc sc' gc gc' Hs Hstep _ _ _ _];
      simpl in Ht; [by left|..].
    all: destruct (decide (g = guid)) as [->|Hne];
      [rewrite lookup_insert_eq in Ht; simplify_eq; right; eauto
      |rewrite lookup_insert_ne in Ht by done; by left]. }
  destruct Hcases as [Hold|(s & Hs & Hstep)].
  - eapply session_ok_grow; [done|]. by eapply Hok.
  - apply Hok in Hs. eapply session_ok_grow in Hs; [|done].
    destruct Hs as (Hf & Hl & Hcard), Hstep as (Hg & Hc & Hlv & Hfr).
    split_and!; [by apply Hfr|congruence|]. by rewrite Hg, Hc.
Qed.

Lemma reset_game_cases gl game_id card_id command_guid fresh_guid db :
  (∃ detail,
     reset_game gl game_id card_id command_guid fresh_guid db
     = (db, HTTPException 400 detail)) ∨
  (∃ guid sc r,
     scorecards_db db !! card_id = Some sc ∧
     (guid = default fresh_guid command_guid ∧ fr_guid r = guid) ∧
     let gs := get_game_state gl game_id "level_1" in
     let gc0 := default (mkPerGameCard game_id 0 0 [] [] []) (sc_cards sc !! game_id) in
     reset_game gl game_id card_id command_guid fresh_guid db =
     (commit guid
        (mkSession game_id card_id gs.1 gs.2 "level_1" 0
           (create_frame_from_game_data gl game_id "level_1" initial))
        card_id (set_sc_played (sc_played sc + 1) sc) game_id
        (mkPerGameCard (gc_game_id gc0) (gc_total_plays gc0 + 1)
           (gc_total_actions gc0) (gc_scores gc0 ++ [gs.2])
           (gc_states gc0 ++ [gs.1]) (gc_actions gc0 ++ [0]))
        db, Returned r)).
Proof.
  assert (Hv : ∀ guid, FrameResponse_validate
            (mkFrameResponse game_id guid
               (create_frame_from_game_data gl game_id "level_1" initial)
               (get_game_state gl game_id "level_1").1
               (get_game_state gl game_id "level_1").2 100 no_action_input)
          = Returned
            (mkFrameResponse game_id guid
               (create_frame_from_game_data gl game_id "level_1" initial)
               (get_game_state gl game_id "level_1").1
               (get_game_state gl game_id "level_1").2 100 no_action_input)).
  { intros guid. unfold FrameResponse_validate, get_game_state.
    by destruct (load_level gl game_id "level_1"). }
  unfold reset_game.
  destruct (negb _); [left; eauto|].
  destruct (scorecards_db db !! card_id) as [sc|] eqn:Hsc; [|left; eauto].
  destruct command_guid as [g|].
  - destruct (sessions_db db !! g); [|left; eauto].
    right. exists g, sc.
    exists (mkFrameResponse game_id g
               (create_frame_from_game_data gl game_id "level_1" initial)
               (get_game_state gl game_id "level_1").1
               (get_game_state gl game_id "level_1").2 100 no_action_input).
    split; [done|]. rewrite Hv. split; [by split|].
    cbv zeta. by destruct (sc_cards sc !! game_id).
  - right. exists fresh_guid, sc.
    exists (mkFrameResponse game_id fresh_guid
               (create_frame_from_game_data gl game_id "level_1" initial)
               (get_game_state gl game_id "level_1").1
               (get_game_state gl game_id "level_1").2 100 no_action_input).
    split; [done|]. rewrite Hv. split; [by split|].
    cbv zeta. by destruct (sc_cards sc !! game_id).
Qed.

Lemma reset_cards_grow gl game_id card_id command_guid fresh_guid db :
  cards_grow db (reset_game gl game_id card_id command_guid fresh_guid db).1.
Proof.
  destruct (reset_game_cases gl game_id card_id command_guid fresh_guid db)
    as [[detail ->]|(guid & sc & r & Hsc & _ & ->)]; simpl.
  - apply cards_grow_refl.
  - eapply cards_grow_commit; [done|done|].
    intros gc0 ->. simpl. rewrite !length_app. lia.
Qed.

Lemma reset_cards_ok gl game_id card_id command_guid fresh_guid db :
  cards_ok db →
  cards_ok (reset_game gl game_id card_id command_guid fresh_guid db).1.
Proof.
  intros Hok.
  destruct (reset_game_cases gl game_id card_id command_guid fresh_guid db)
    as [[detail ->]|(guid & sc & r & Hsc & _ & ->)]; simpl; [done|].
  intros c sc0 g gc0. unfold commit; simpl.
  destruct (decide (c = card_id)) as [->|Hne].
  - rewrite lookup_insert_eq. intros ?; simplify_eq. simpl.
    destruct (decide (g = game_id)) as [->|Hne].
    + rewrite lookup_insert_eq. intros ?; simplify_eq.
      unfold card_lists_ok. simpl. rewrite !length_app. simpl.
      destruct (sc_cards sc !! game_id) as [gc|] eqn:Hgc; simpl.
      * destruct (Hok _ _ _ _ Hsc Hgc) as (? & ? & ?). lia.
      * lia.
    + rewrite lookup_insert_ne by done. intros ?. by eapply Hok.
  - rewrite lookup_insert_ne by done. apply Hok.
Qed.

Lemma reset_sessions_ok gl game_id card_id command_guid fresh_guid db :
  sessions_ok db →
  sessions_ok (reset_game gl game_id card_id command_guid fresh_guid db).1.
Proof.
  intros Hok g t Ht.
  pose proof (reset_cards_grow gl game_id card_id command_guid fresh_guid db) as Hgrow.
  destruct (reset_game_cases gl game_id card_id command_guid fresh_guid db)
    as [[detail Heq]|(guid & sc & r & Hsc & _ & Heq)]; rewrite Heq in *;
    unfold commit in *; simpl in *.
  - by eapply Hok.
  - destruct (decide (g = guid)) as [->|Hne].
    + rewrite lookup_insert_eq in Ht. simplify_eq.
      split_and!; simpl; [apply create_frame_ok|done|].
      eexists _, _. rewrite lookup_insert_eq. split; [done|]. simpl.
      rewrite lookup_insert_eq. split; [done|]. simpl.
      rewrite !length_app. simpl. lia.
    + rewrite lookup_insert_ne in Ht by done.
      eapply session_ok_grow; [done|]. by eapply Hok.
Qed.

Lemma open_cards_grow card_id api_key source_url tags db :
  scorecards_db db !! card_id = None →
  cards_grow db (open_scorecard card_id api_key source_url tags db).1.
Proof.
  intros Hfresh c sc g gc Hc Hg. simpl.
  exists sc, gc. rewrite lookup_insert_ne by congruence.
  split_and!; [done|done|lia..].
Qed.

Lemma run_cards_ok gl c db : cards_ok db → cards_ok (run gl c db).
Proof.
  intros Hok. destruct c; simpl.
  - intros c sc g gc. simpl. destruct (decide (c = card_id)) as [->|Hne].
    + rewrite lookup_insert_eq. intros ?; simplify_eq. simpl.
      by rewrite lookup_empty.
    + rewrite lookup_insert_ne by done. apply Hok.
  - by apply reset_cards_ok.
  - eapply effect_cards_ok; [apply execute_action_effect|done].
Qed.

Lemma run_sessions_ok gl c db :
  fresh_ids c db → sessions_ok db → sessions_ok (run gl c db).
Proof.
  intros Hfresh Hok. destruct c; simpl.
  - intros g t Ht. simpl in Ht.
    eapply session_ok_grow; [by apply open_cards_grow|]. by eapply Hok.
  - by apply reset_sessions_ok.
  - eapply effect_sessions_ok; [apply execute_action_effect|done].
Qed.

Lemma reachable_ok gl db : reachable gl db → cards_ok db ∧ sessions_ok db.
Proof.
  induction 1 as [|c db Hr [IH1 IH2] Hfresh].
  - split.
    + intros c sc g gc H. simpl in H. by rewrite lookup_empty in H.
    + intros g t H. simpl in H. by rewrite lookup_empty in H.
  - split; [by apply run_cards_ok|by apply run_sessions_ok].
Qed.

Lemma card_step_refl gc : card_step gc gc.
Proof. unfold card_step. split_and!; auto with effect. Qed.

Lemma effect_card_step guid game_id db db' card_id sc g gc :
  action_effect guid game_id db db' →
  scorecards_db db !! card_id = Some sc →
  sc_cards sc !! g = Some gc →
  ∃ sc' gc',
    scorecards_db db' !! card_id = Some sc' ∧
    sc_cards sc' !! g = Some gc' ∧
    card_step gc gc'.
Proof.
  intros Heff Hc Hg.
  destruct Heff as [|s s' Hs Hstep|s s' sc0 sc' gc0 gc' Hs Hstep Hsc Hgc Hscs Hcs].
  - exists sc, gc. split_and!; [done..|apply card_step_refl].
  - exists sc, gc. split_and!; [done..|apply card_step_refl].
  - unfold commit; simpl.
    destruct (decide (card_id = s_card_id s)) as [->|Hne].
    + rewrite lookup_insert_eq. simplify_eq.
      destruct Hscs as (_ & _ & _ & Hcards).
      destruct (decide (g = game_id)) as [->|Hne].
      * simplify_eq. eexists _, gc'. split; [done|]. simpl.
        by rewrite lookup_insert_eq.
      * eexists _, gc. split; [done|]. simpl.
        rewrite lookup_insert_ne by done. rewrite Hcards.
        split; [done|apply card_step_refl].
    + rewrite lookup_insert_ne by done.
      exists sc, gc. split_and!; [done..|apply card_step_refl].
Qed.

(** ** The per-play lists of a game card *)

(** C8.  In every reachable state of the stores, the three per-play lists
    of every game card of every scorecard have the same length, and that
    length is the card's [total_plays].  A reset that goes through leaves
    the game card of its game with [total_plays] one higher and one entry
    appended to each list (starting from an empty card when the game was
    not yet on the scorecard); an action leaves every game card with the
    same [total_plays] and with lists of the same length that differ
    from the old ones at most in their last entry. *)
Theorem per_play_lists_match_total_plays gl db :
  reachable gl db →
  (∀ card_id sc game_id gc,
     scorecards_db db !! card_id = Some sc →
     sc_cards sc !! game_id = Some gc →
     length (gc_scores gc) = length (gc_states gc) ∧
     length (gc_states gc) = length (gc_actions gc) ∧
     Z.of_nat (length (gc_actions gc)) = gc_total_plays gc) ∧
  (∀ game_id card_id command_guid fresh_guid db' r,
     reset_game gl game_id card_id command_guid fresh_guid db = (db', Returned r) →
     ∃ sc sc' gc' score state,
       scorecards_db db !! card_id = Some sc ∧
       scorecards_db db' !! card_id = Some sc' ∧
       sc_cards sc' !! game_id = Some gc' ∧
       let gc := default (mkPerGameCard game_id 0 0 [] [] []) (sc_cards sc !! game_id) in
       gc_total_plays gc' = gc_total_plays gc + 1 ∧
       gc_scores gc' = gc_scores gc ++ [score] ∧
       gc_states gc' = gc_states gc ++ [state] ∧
       gc_actions gc' = gc_actions gc ++ [0]) ∧
  (∀ game_id guid action_id action_data card_id sc g gc,
     scorecards_db db !! card_id = Some sc →
     sc_cards sc !! g = Some gc →
     ∃ sc' gc',
       scorecards_db (execute_action gl game_id guid action_id action_data db).1
         !! card_id = Some sc' ∧
       sc_cards sc' !! g = Some gc' ∧
       gc_total_plays gc' = gc_total_plays gc ∧
       same_but_last (gc_scores gc) (gc_scores gc') ∧
       same_but_last (gc_states gc) (gc_states gc') ∧
       same_but_last (gc_actions gc) (gc_actions gc')).
Proof.
  intros Hr. split_and!.
  - intros card_id sc game_id gc Hsc Hgc.
    destruct (reachable_ok gl db Hr) as [Hok _].
    destruct (Hok _ _ _ _ Hsc Hgc) as (H1 & H2 & H3). lia.
  - intros game_id card_id command_guid fresh_guid db' r Heq.
    destruct (reset_game_cases gl game_id card_id command_guid fresh_guid db)
      as [[detail Hrej]|(guid & sc & r' & Hsc & _ & Hdone)].
    + rewrite Hrej in Heq. simplify_eq.
    + rewrite Hdone in Heq. simplify_eq.
      exists sc. eexists _, _, _, _. unfold commit; simpl.
      rewrite lookup_insert_eq.
      split; [done|]. split; [reflexivity|]. simpl.
      rewrite lookup_insert_eq. split; [reflexivity|]. simpl.
      split_and!; reflexivity.
  - intros game_id guid action_id action_data card_id sc g gc Hsc Hgc.
    destruct (effect_card_step guid game_id db _ card_id sc g gc
                (execute_action_effect gl game_id guid action_id action_data db)
                Hsc Hgc) as (sc' & gc' & ? & ? & (_ & ? & ? & ? & ?)).
    exists sc', gc'. by split_and!.
Qed.

Lemma reachable_run_all gl cs db :
  reachable gl db → steps_fresh gl cs db → reachable gl (run_all gl cs db).
Proof.
  revert db. induction cs as [|c cs IH]; intros db Hr Hf; simpl; [done|].
  destruct Hf as [Hc Hcs]. apply IH; [|done]. by apply reachable_step.
Qed.

Lemma reachable_demo_start :
  reachable demo_loader (run_all demo_loader demo_start empty_stores).
Proof.
  apply reachable_run_all; [apply reachable_init|].
  vm_compute. by split_and!.
Qed.

Lemma per_play_lists_witness :
  let db := run_all demo_loader demo_start empty_stores in
  reachable demo_loader db ∧
  ∃ sc gc,
    scorecards_db db !! "card" = Some sc ∧
    sc_cards sc !! "G" = Some gc ∧
    length (gc_scores gc) = length (gc_states gc) ∧
    length (gc_states gc) = length (gc_actions gc) ∧
    Z.of_nat (length (gc_actions gc)) = gc_total_plays gc.
Proof.
  split; [apply reachable_demo_start|].
  eexists _, _.
  assert (Hsc : scorecards_db (run_all demo_loader demo_start empty_stores) !! "card"
                = Some (mkScorecard "card" "test-api-key-12345" None [] 0 1 0 0
                          {[ "G" := mkPerGameCard "G" 1 0 [0] [NOT_FINISHED] [0] ]}))
    by (vm_compute; reflexivity).
  assert (Hgc : ({[ "G" := mkPerGameCard "G" 1 0 [0] [NOT_FINISHED] [0] ]}
                   : gmap string PerGameCard) !! "G"
                = Some (mkPerGameCard "G" 1 0 [0] [NOT_FINISHED] [0]))
    by (vm_compute; reflexivity).
  split; [exact Hsc|]. split; [exact Hgc|].
  exact (proj1 (per_play_lists_match_total_plays demo_loader _ reachable_demo_start)
           _ _ _ _ Hsc Hgc).
Defined.

(** ** Validation comes before any mutation *)

Lemma existsb_eqb_false (x : string) (l : list string) :
  x ∉ l → existsb (String.eqb x) l = false.
Proof.
  induction l as [|y l IH]; intros Hx; simpl; [done|].
  apply not_elem_of_cons in Hx as [Hne Hx].
  rewrite IH by done. rewrite orb_false_r. by apply String.eqb_neq.
Qed.

Lemma validate_not_http (r : FrameResponse) status detail :
  FrameResponse_validate r ≠ HTTPException status detail.
Proof. unfold FrameResponse_validate. by case_match. Qed.

Lemma toggled_update_not_http game_id guid action_id action_data block session
    grid rest old_colors new_colors db status detail :
  (toggled_update game_id guid action_id action_data block session
     grid rest old_colors new_colors db).2 ≠ HTTPException status detail.
Proof.
  unfold toggled_update.
  repeat case_match; simpl; first [done | apply validate_not_http].
Qed.

Lemma block_loop_not_http game_id guid action_id action_data x y session db bs :
  ∀ grid rest clicked r status detail,
    block_loop game_id guid action_id action_data x y session
               grid rest db clicked bs = Exit r →
    r.2 ≠ HTTPException status detail.
Proof.
  induction bs as [|block bs IH]; intros grid rest clicked r status detail; simpl.
  - destruct (negb clicked); [|done]. simpl. by intros [= <-].
  - destruct (in_block block x y); [|by apply IH].
    destruct (toggle_block block grid) as [[[grid' toggled] olds] news].
    destruct toggled; [|by apply IH].
    intros [= <-]. apply toggled_update_not_http.
Qed.

Lemma toggle_rule_not_http game_id guid action_id action_data session db r
    status detail :
  toggle_rule game_id guid action_id action_data session db = Exit r →
  r.2 ≠ HTTPException status detail.
Proof.
  unfold toggle_rule.
  destruct (negb (action_id =? 6)); [done|].
  destruct (ad_x action_data) as [x|]; [|done].
  destruct (ad_y action_data) as [y|]; [|done].
  destruct (s_current_frame session) as [|grid rest]; [done|].
  destruct (negb _); [done|].
  destruct (py_index grid y) as [row|]; [|by intros [= <-]].
  destruct (negb _); [done|].
  apply block_loop_not_http.
Qed.

Lemma regular_action_not_http gl game_id guid action_id action_data session db
    status detail :
  (regular_action gl game_id guid action_id action_data session db).2
  ≠ HTTPException status detail.
Proof.
  unfold regular_action.
  repeat case_match; simpl; first [done | apply validate_not_http].
Qed.

(** C7.  An action against an unknown guid, or against a guid whose
    session belongs to another game, and a reset with an unknown game,
    an unknown card or an unknown guid, are answered with an
    [HTTPException] 400 and leave the stores exactly as they were; and
    whenever an action or a reset ends in an [HTTPException], the stores
    are unchanged. *)
Theorem rejected_commands_change_nothing gl db :
  (∀ game_id guid action_id action_data,
     action_rejected game_id guid db →
     ∃ detail,
       execute_action gl game_id guid action_id action_data db
       = (db, HTTPException 400 detail)) ∧
  (∀ game_id card_id command_guid fresh_guid,
     reset_rejected gl game_id card_id command_guid db →
     ∃ detail,
       reset_game gl game_id card_id command_guid fresh_guid db
       = (db, HTTPException 400 detail)) ∧
  (∀ game_id guid action_id action_data db' status detail,
     execute_action gl game_id guid action_id action_data db
     = (db', HTTPException status detail) →
     db' = db) ∧
  (∀ game_id card_id command_guid fresh_guid db' status detail,
     reset_game gl game_id card_id command_guid fresh_guid db
     = (db', HTTPException status detail) →
     db' = db).
Proof.
  split_and!.
  - intros game_id guid action_id action_data [Hno|(s & Hs & Hne)];
      unfold execute_action.
    + rewrite Hno. eauto.
    + rewrite Hs. apply String.eqb_neq in Hne. rewrite Hne. simpl. eauto.
  - intros game_id card_id command_guid fresh_guid [Hg|[Hc|(g & -> & Hs)]];
      unfold reset_game.
    + rewrite existsb_eqb_false by done. simpl. eauto.
    + destruct (negb _); [eauto|]. rewrite Hc. eauto.
    + destruct (negb _); [eauto|].
      destruct (scorecards_db db !! card_id); [|eauto].
      rewrite Hs. eauto.
  - intros game_id guid action_id action_data db' status detail.
    unfold execute_action.
    destruct (sessions_db db !! guid) as [session|]; [|by intros [= <-]].
    destruct (negb _); [by intros [= <-]|].
    destruct action_data as [d|].
    + destruct (toggle_rule game_id guid action_id d session db) as [r|] eqn:Et.
      * intros ->. by eapply toggle_rule_not_http in Et.
      * intros Heq. exfalso.
        eapply (regular_action_not_http gl). by rewrite Heq.
    + intros Heq. exfalso.
      eapply (regular_action_not_http gl). by rewrite Heq.
  - intros game_id card_id command_guid fresh_guid db' status detail Heq.
    destruct (reset_game_cases gl game_id card_id command_guid fresh_guid db)
      as [[d Hrej]|(guid & sc & r & Hsc & _ & Hdone)].
    + rewrite Hrej in Heq. by simplify_eq.
    + rewrite Hdone in Heq. by simplify_eq.
Qed.

Lemma rejected_commands_witness :
  action_rejected "G" "nobody" empty_stores ∧
  reset_rejected demo_loader "Z" "card" None empty_stores ∧
  (∃ detail,
     execute_action demo_loader "G" "nobody" 1 None empty_stores
     = (empty_stores, HTTPException 400 detail)) ∧
  (∃ detail,
     reset_game demo_loader "Z" "card" None "g1" empty_stores
     = (empty_stores, HTTPException 400 detail)).
Proof.
  assert (Ha : action_rejected "G" "nobody" empty_stores) by (by left).
  assert (Hr : reset_rejected demo_loader "Z" "card" None empty_stores)
    by (right; by left).
  split; [exact Ha|]. split; [exact Hr|]. split.
  - exact (proj1 (rejected_commands_change_nothing demo_loader empty_stores)
             "G" "nobody" 1 None Ha).
  - exact (proj1 (proj2 (rejected_commands_change_nothing demo_loader empty_stores))
             "Z" "card" None "g1" Hr).
Defined.

(** ** The scorecard filtered to one game *)

Lemma count_wins_acc (states : list GameState) (acc : Z) :
  fold_left (fun acc state => if GameState_eqb state WIN then acc + 1 else acc)
            states acc
  = acc + Z.of_nat (length (filter (λ st, st = WIN) states)).
Proof.
  revert acc. induction states as [|st states IH]; intros acc; simpl.
  - lia.
  - rewrite IH. rewrite filter_cons.
    destruct st; simpl; lia.
Qed.

Lemma count_wins_filter (states : list GameState) :
  count_wins states = Z.of_nat (length (filter (λ st, st = WIN) states)).
Proof. unfold count_wins. rewrite count_wins_acc. lia. Qed.

Lemma reset_returns gl game_id card_id command_guid fresh_guid db guid sc r :
  scorecards_db db !! card_id = Some sc →
  reset_game gl game_id card_id command_guid fresh_guid db =
    (commit guid
       (mkSession game_id card_id (get_game_state gl game_id "level_1").1
          (get_game_state gl game_id "level_1").2 "level_1" 0
          (create_frame_from_game_data gl game_id "level_1" initial))
       card_id (set_sc_played (sc_played sc + 1) sc) game_id
       (let gc0 := default (mkPerGameCard game_id 0 0 [] [] []) (sc_cards sc !! game_id) in
        mkPerGameCard (gc_game_id gc0) (gc_total_plays gc0 + 1)
          (gc_total_actions gc0) (gc_scores gc0 ++ [(get_game_state gl game_id "level_1").2])
          (gc_states gc0 ++ [(get_game_state gl game_id "level_1").1]) (gc_actions gc0 ++ [0]))
       db, Returned r) →
  has_game_card card_id game_id
    (reset_game gl game_id card_id command_guid fresh_guid db).1.
Proof.
  intros Hsc ->. unfold has_game_card, commit; simpl.
  eexists _, _. rewrite lookup_insert_eq. split; [done|]. simpl.
  by rewrite lookup_insert_eq.
Qed.

Lemma run_cards_grow gl c db : fresh_ids c db → cards_grow db (run gl c db).
Proof.
  intros Hf. destruct c; simpl.
  - by apply open_cards_grow.
  - apply reset_cards_grow.
  - eapply effect_cards_grow, execute_action_effect.
Qed.

Lemma has_game_card_grow card_id game_id db db' :
  cards_grow db db' → has_game_card card_id game_id db → has_game_card card_id game_id db'.
Proof.
  intros Hg (sc & gc & Hsc & Hgc).
  destruct (Hg _ _ _ _ Hsc Hgc) as (sc' & gc' & ? & ? & _).
  by exists sc', gc'.
Qed.

Lemma has_game_card_run_all gl card_id game_id cs db :
  steps_fresh gl cs db →
  has_game_card card_id game_id db →
  has_game_card card_id game_id (run_all gl cs db).
Proof.
  revert db. induction cs as [|c cs IH]; intros db Hf Hh; simpl; [done|].
  destruct Hf as [Hc Hcs]. apply IH; [done|].
  eapply has_game_card_grow; [by apply run_cards_grow|done].
Qed.

Lemma was_reset_has_game_card gl card_id game_id cs db :
  steps_fresh gl cs db →
  was_reset gl game_id card_id cs db →
  has_game_card card_id game_id (run_all gl cs db).
Proof.
  revert db. induction cs as [|c cs IH]; intros db Hf Hw; simpl in *; [done|].
  destruct Hf as [Hc Hcs]. destruct Hw as [Hw|Hw]; [|by apply IH].
  apply has_game_card_run_all; [done|].
  destruct c as [| g c' command_guid fresh_guid |]; try done.
  destruct Hw as (-> & -> & r & Hr). simpl.
  destruct (reset_game_cases gl game_id card_id command_guid fresh_guid db)
    as [[d Hrej]|(guid & sc & r' & Hsc & _ & Hdone)].
  - by rewrite Hrej in Hr.
  - by eapply reset_returns.
Qed.

Lemma not_reset_no_game_card gl card_id game_id cs db :
  ¬ has_game_card card_id game_id db →
  ¬ was_reset gl game_id card_id cs db →
  ¬ has_game_card card_id game_id (run_all gl cs db).
Proof.
  revert db. induction cs as [|c cs IH]; intros db Hno Hw; simpl in *; [done|].
  apply IH; [|tauto].
  intros (sc' & gc' & Hsc' & Hgc'). destruct c as [c0 ? ? ?|g c' cg fresh|g guid aid ad];
    simpl in *.
  - destruct (decide (card_id = c0)) as [->|Hne].
    + rewrite lookup_insert_eq in Hsc'. by simplify_eq.
    + rewrite lookup_insert_ne in Hsc' by done. apply Hno. by exists sc', gc'.
  - destruct (reset_game_cases gl g c' cg fresh db)
      as [[d Hrej]|(guid & sc & r & Hsc & _ & Hdone)].
    + rewrite Hrej in Hsc'. apply Hno. by exists sc', gc'.
    + assert (Hret : ∃ r0, (reset_game gl g c' cg fresh db).2 = Returned r0)
        by (rewrite Hdone; eauto).
      rewrite Hdone in Hsc'. unfold commit in Hsc'; simpl in Hsc'.
      destruct (decide (card_id = c')) as [->|Hne].
      * rewrite lookup_insert_eq in Hsc'. simplify_eq. simpl in Hgc'.
        destruct (decide (game_id = g)) as [->|Hne]; [tauto|].
        rewrite lookup_insert_ne in Hgc' by done. apply Hno. by exists sc, gc'.
      * rewrite lookup_insert_ne in Hsc' by done. apply Hno. by exists sc', gc'.
  - pose proof (execute_action_effect gl g guid aid ad db) as Heff.
    destruct Heff as [|s s' Hs Hstep|s s' sc0 sc1 gc0 gc1 Hs Hstep Hsc Hgc Hscs Hcs].
    + apply Hno. by exists sc', gc'.
    + apply Hno. by exists sc', gc'.
    + unfold commit in Hsc'; simpl in Hsc'.
      destruct (decide (card_id = s_card_id s)) as [->|Hne].
      * rewrite lookup_insert_eq in Hsc'. simplify_eq. simpl in Hgc'.
        destruct (decide (game_id = g)) as [->|Hne].
        -- apply Hno. by exists sc0, gc0.
        -- rewrite lookup_insert_ne in Hgc' by done.
           destruct Hscs as (_ & _ & _ & Hcards). rewrite Hcards in Hgc'.
           apply Hno. by exists sc0, gc'.
      * rewrite lookup_insert_ne in Hsc' by done. apply Hno. by exists sc', gc'.
Qed.

(** C9.  For a scorecard that exists after the commands [cs]: if no reset
    of [game_id] under [card_id] ever went through, the filtered get
    fails with 404 "Game not found in scorecard"; otherwise it returns a
    summary whose [won] is the number of WIN entries of that game card's
    state list, whose [played] and [total_actions] are the game card's
    [total_plays] and [total_actions], whose [score] is 1 if [won > 0]
    and 0 otherwise, and whose only card is that game card. *)
Theorem filtered_scorecard_summary gl cs card_id game_id scorecard :
  steps_fresh gl cs empty_stores →
  scorecards_db (run_all gl cs empty_stores) !! card_id = Some scorecard →
  (¬ was_reset gl game_id card_id cs empty_stores →
   get_scorecard_for_game card_id game_id (run_all gl cs empty_stores)
   = HTTPException 404 "Game not found in scorecard") ∧
  (was_reset gl game_id card_id cs empty_stores →
   ∃ game_card summary,
     sc_cards scorecard !! game_id = Some game_card ∧
     get_scorecard_for_game card_id game_id (run_all gl cs empty_stores)
     = Returned summary ∧
     ss_won summary
     = Z.of_nat (length (filter (λ st, st = WIN) (gc_states game_card))) ∧
     ss_played summary = gc_total_plays game_card ∧
     ss_total_actions summary = gc_total_actions game_card ∧
     ss_score summary = (if decide (0 < ss_won summary) then 1 else 0) ∧
     ss_cards summary = {[ game_id := game_card ]}).
Proof.
  intros Hfresh Hsc. split.
  - intros Hnever. unfold get_scorecard_for_game. rewrite Hsc.
    destruct (sc_cards scorecard !! game_id) as [gc|] eqn:Hgc; [|done].
    exfalso.
    eapply (not_reset_no_game_card gl card_id game_id cs empty_stores);
      [|done|by exists scorecard, gc].
    intros (sc & gc' & H & _). simpl in H. by rewrite lookup_empty in H.
  - intros Hwas.
    destruct (was_reset_has_game_card gl card_id game_id cs empty_stores Hfresh Hwas)
      as (sc & gc & Hsc' & Hgc).
    simplify_eq. unfold get_scorecard_for_game. rewrite Hsc, Hgc.
    eexists _, _. split; [done|]. split; [done|]. simpl.
    assert (Hwon : match gc_states gc with
                   | [] => 0
                   | g :: l => count_wins (g :: l)
                   end
                   = Z.of_nat (length (filter (λ st, st = WIN) (gc_states gc)))).
    { rewrite <- count_wins_filter. by destruct (gc_states gc). }
    rewrite Hwon. split_and!; try done.
    destruct (Z.gtb_spec (Z.of_nat (length (filter (λ st, st = WIN) (gc_states gc)))) 0);
      case_decide; (done || lia).
Qed.

Lemma filtered_scorecard_witness :
  let db := run_all demo_loader demo_start empty_stores in
  ∃ scorecard,
    steps_fresh demo_loader demo_start empty_stores ∧
    scorecards_db db !! "card" = Some scorecard ∧
    get_scorecard_for_game "card" "H" db
    = HTTPException 404 "Game not found in scorecard" ∧
    ∃ game_card summary,
      sc_cards scorecard !! "G" = Some game_card ∧
      get_scorecard_for_game "card" "G" db = Returned summary ∧
      ss_won summary
      = Z.of_nat (length (filter (λ st, st = WIN) (gc_states game_card))) ∧
      ss_played summary = gc_total_plays game_card ∧
      ss_total_actions summary = gc_total_actions game_card ∧
      ss_score summary = (if decide (0 < ss_won summary) then 1 else 0) ∧
      ss_cards summary = {[ "G" := game_card ]}.
Proof.
  assert (Hf : steps_fresh demo_loader demo_start empty_stores)
    by (vm_compute; by split_and!).
  assert (Hsc : scorecards_db (run_all demo_loader demo_start empty_stores) !! "card"
                = Some (mkScorecard "card" "test-api-key-12345" None [] 0 1 0 0
                          {[ "G" := mkPerGameCard "G" 1 0 [0] [NOT_FINISHED] [0] ]}))
    by (vm_compute; reflexivity).
  eexists. split; [exact Hf|]. split; [exact Hsc|]. split.
  - apply (proj1 (filtered_scorecard_summary demo_loader demo_start "card" "H" _ Hf Hsc)).
    unfold demo_start. cbn [was_reset].
    intros [[]|[(Heq & _)|[]]]. discriminate Heq.
  - apply (proj2 (filtered_scorecard_summary demo_loader demo_start "card" "G" _ Hf Hsc)).
    unfold demo_start. cbn [was_reset].
    right. left. split; [done|]. split; [done|].
    eexists. vm_compute. reflexivity.
Defined.

(** ** Counting the cells that match the final grid *)

Lemma fold_left_fmap {A B C : Type} (f : A → C → A) (g : B → C) (l : list B) (a : A) :
  fold_left f (map g l) a = fold_left (fun a x => f a (g x)) l a.
Proof. revert a. induction l as [|x l IH]; intros a; simpl; [done|]. apply IH. Qed.

Lemma fold_left_nested {A : Type} (F : nat → nat → A → A) (ys xs : list nat) (a : A) :
  fold_left (fun acc y => fold_left (fun acc x => F y x acc) xs acc) ys a
  = fold_left (fun acc p => F (fst p) (snd p) acc) (list_prod ys xs) a.
Proof.
  revert a. induction ys as [|y ys IH]; intros a; simpl; [done|].
  rewrite fold_left_app, fold_left_fmap. simpl. apply IH.
Qed.

Lemma forallb_fmap {B C : Type} (P : C → bool) (g : B → C) (l : list B) :
  forallb P (map g l) = forallb (fun x => P (g x)) l.
Proof. induction l as [|x l IH]; simpl; [done|]. by rewrite IH. Qed.

Lemma forallb_nested (P : nat → nat → bool) (ys xs : list nat) :
  forallb (fun y => forallb (fun x => P y x) xs) ys
  = forallb (fun p => P (fst p) (snd p)) (list_prod ys xs).
Proof.
  induction ys as [|y ys IH]; simpl; [done|].
  by rewrite forallb_app, IH, forallb_fmap.
Qed.

Lemma all_cells_length : Z.of_nat (length all_cells) = 4096.
Proof. vm_compute. reflexivity. Qed.

Lemma all_cells_in_grid (g : Grid) (p : nat * nat) :
  is_64x64 g → In p all_cells → is_Some (cell g (fst p) (snd p)).
Proof.
  intros Hg Hin. destruct p as [y x]. unfold all_cells in Hin.
  apply in_prod_iff in Hin as [Hy Hx].
  apply in_seq in Hy, Hx. simpl. apply cell_64; [done|lia..].
Qed.

Lemma count_cell_fold (g f : Grid) (l : list (nat * nat)) (acc : Z * Z) :
  (∀ p, In p l → is_Some (cell g (fst p) (snd p))) →
  fold_left (fun acc p => count_cell g f (fst p) (snd p) acc) l acc
  = (fst acc + Z.of_nat (length (List.filter (agrees g f) l)),
     snd acc + Z.of_nat (length l)).
Proof.
  revert acc. induction l as [|p l IH]; intros [c t] Hall; simpl.
  - f_equal; lia.
  - rewrite IH by (intros q Hq; apply Hall; by right).
    destruct (Hall p (or_introl eq_refl)) as [v Hv].
    unfold count_cell, agrees. rewrite Hv. simpl.
    destruct (v =? pad_cell f p.1 p.2); simpl; f_equal; lia.
Qed.

Lemma count_cells_64 (g f : Grid) :
  is_64x64 g → count_cells g f = (matched g f, 4096).
Proof.
  intros Hg. unfold count_cells.
  rewrite (fold_left_nested (fun y x acc => count_cell g f y x acc)).
  fold all_cells. rewrite count_cell_fold by (intros; by apply all_cells_in_grid).
  rewrite all_cells_length. unfold matched. reflexivity.
Qed.

Lemma filter_length_le {A : Type} (P : A → bool) (l : list A) :
  (length (List.filter P l) ≤ length l)%nat.
Proof. induction l as [|x l IH]; simpl; [done|]. destruct (P x); simpl; lia. Qed.

Lemma forallb_filter_length {A : Type} (P : A → bool) (l : list A) :
  forallb P l = true ↔ length (List.filter P l) = length l.
Proof.
  induction l as [|x l IH]; simpl; [done|].
  pose proof (filter_length_le P l).
  destruct (P x); simpl; [rewrite IH; lia|]. split; [done|lia].
Qed.

Lemma matched_range (g f : Grid) : 0 <= matched g f <= 4096.
Proof.
  unfold matched. pose proof (filter_length_le (agrees g f) all_cells) as Hle.
  apply Nat2Z.inj_le in Hle. rewrite all_cells_length in Hle. lia.
Qed.

Lemma forallb_agree {A : Type} (P Q : A → bool) (l : list A) :
  (∀ x, In x l → P x = Q x) → forallb P l = forallb Q l.
Proof.
  induction l as [|x l IH]; intros H; simpl; [done|].
  rewrite (H x) by (by left). rewrite IH; [done|]. intros y Hy. apply H. by right.
Qed.

Lemma matches_final_64 (g f : Grid) (rest : Frame) :
  is_64x64 g → matches_final (g :: rest) f = true ↔ matched g f = 4096.
Proof.
  intros Hg. unfold matches_final, matched.
  rewrite (forallb_nested (fun y x => cell_matches g f y x)). fold all_cells.
  assert (Heq : forallb (fun p => cell_matches g f p.1 p.2) all_cells
                = forallb (agrees g f) all_cells).
  { apply forallb_agree. intros p Hp.
    destruct (all_cells_in_grid g p Hg Hp) as [v Hv].
    unfold cell_matches, agrees. by rewrite Hv. }
  rewrite Heq, forallb_filter_length, <- all_cells_length.
  by rewrite Nat2Z.inj_iff.
Qed.

(** ** The generic rule on a well-formed session *)

Lemma new_score_64 (s : Session) (g : Grid) (final_data : option Frame) :
  s_current_frame s = [g] → is_64x64 g →
  new_score s final_data =
  match final_data with
  | Some (final_frame :: _) => Some (matched g final_frame * 100 / 4096)
  | _ => Some (s_score s + 1)
  end.
Proof.
  intros Hf Hg. unfold new_score. rewrite Hf.
  destruct final_data as [[|final_frame ?]|]; try done.
  rewrite count_cells_64 by done. simpl.
  apply progress_score_exact, matched_range.
Qed.

Lemma get_last_is_Some {A : Type} (l : list A) :
  (0 < length l)%nat → is_Some (get_last l).
Proof.
  intros Hl. unfold get_last. apply last_is_Some.
  intros ->. simpl in Hl. lia.
Qed.

(** Reduces projections of updated dictionaries, and nothing else. *)
Ltac simpl_fields :=
  cbn [s_game_id s_card_id s_state s_score s_level s_actions_taken s_current_frame
       set_state set_score set_actions_taken set_current_frame
       gc_game_id gc_total_plays gc_total_actions gc_scores gc_states gc_actions
       set_total_plays set_total_actions set_scores set_states set_actions
       sc_card_id sc_api_key sc_source_url sc_tags sc_won sc_played
       sc_total_actions sc_score sc_cards
       set_sc_won set_sc_played set_sc_total_actions set_sc_score set_sc_cards
       scorecards_db sessions_db fst snd].

Lemma regular_action_session gl game_id guid action_id action_data s db :
  sessions_db db !! guid = Some s →
  s_game_id s = game_id →
  session_ok db s →
  ∃ g score,
    s_current_frame s = [g] ∧ is_64x64 g ∧
    new_score s (get_frame_data gl game_id (s_level s) final) = Some score ∧
    let win :=
      match get_frame_data gl game_id (s_level s) final with
      | Some (final_frame :: _) => matches_final (s_current_frame s) final_frame
      | _ => false
      end in
    sessions_db (regular_action gl game_id guid action_id action_data s db).1 !! guid
    = Some (mkSession (s_game_id s) (s_card_id s)
              (if win then WIN else NOT_FINISHED)
              (if win then 1 else score)
              (s_level s) (s_actions_taken s + 1)
              (create_frame_from_game_data gl game_id (s_level s)
                 (if win then final else initial))) ∧
    (regular_action gl game_id guid action_id action_data s db).2
    = FrameResponse_validate
        (mkFrameResponse game_id guid
           (create_frame_from_game_data gl game_id (s_level s)
              (if win then final else initial))
           (if win then WIN else NOT_FINISHED)
           (if win then 1 else score) 100
           (generic_input action_id action_data)).
Proof.
  intros Hs Hgame ((g & Hf & Hg) & Hlevel & sc & gc & Hsc & Hgc & Hl1 & Hl2 & Hl3).
  subst game_id.
  pose proof (new_score_64 s g (get_frame_data gl (s_game_id s) (s_level s) final) Hf Hg)
    as Hnew.
  assert (∃ score, new_score s (get_frame_data gl (s_game_id s) (s_level s) final)
                   = Some score) as [score Hscore].
  { rewrite Hnew. repeat case_match; eauto. }
  exists g, score. split_and!; [done..|]. clear Hnew.
  unfold regular_action.
  change (new_score (set_actions_taken (s_actions_taken s + 1) s)
            (get_frame_data gl (s_game_id s)
               (s_level (set_actions_taken (s_actions_taken s + 1) s)) final))
    with (new_score s (get_frame_data gl (s_game_id s) (s_level s) final)).
  rewrite Hscore. simpl_fields.
  rewrite Hsc, Hgc.
  destruct (get_last_is_Some (gc_actions gc) Hl3) as [n Hn].
  simpl_fields. rewrite Hn.
  destruct (gc_scores gc) as [|sc0 scs] eqn:Escores; [simpl in Hl1; lia|].
  destruct (gc_states gc) as [|st0 sts] eqn:Estates; [simpl in Hl2; lia|].
  destruct (match get_frame_data gl (s_game_id s) (s_level s) final with
            | Some (final_frame :: _) => matches_final (s_current_frame s) final_frame
            | _ => false
            end) eqn:Ewin.
  - simpl_fields. unfold commit. simpl_fields. by rewrite lookup_insert_eq.
  - simpl_fields. unfold commit. simpl_fields. by rewrite lookup_insert_eq.
Qed.

Lemma validate_in_range (r : FrameResponse) :
  0 <= fr_score r <= 254 → fr_win_score r = 100 →
  FrameResponse_validate r = Returned r.
Proof.
  intros Hs Hw. unfold FrameResponse_validate. rewrite Hw.
  destruct (Z.leb_spec 0 (fr_score r)); [|lia].
  destruct (Z.leb_spec (fr_score r) 254); [|lia]. done.
Qed.

Lemma reachable_session_ok gl db guid s :
  reachable gl db → sessions_db db !! guid = Some s → session_ok db s.
Proof. intros Hr Hs. destruct (reachable_ok gl db Hr) as [_ Hok]. by eapply Hok. Qed.

Lemma execute_action_generic gl game_id guid action_id action_data s db :
  sessions_db db !! guid = Some s →
  s_game_id s = game_id →
  takes_generic_rule game_id guid action_id action_data s db →
  execute_action gl game_id guid action_id action_data db
  = regular_action gl game_id guid action_id action_data s db.
Proof.
  intros Hs Hg Ht. unfold execute_action. rewrite Hs.
  apply String.eqb_eq in Hg. rewrite Hg. simpl.
  destruct action_data as [d|]; [|done].
  simpl in Ht. by rewrite Ht.
Qed.

Lemma other_actions_take_generic_rule game_id guid action_id action_data s db :
  action_id ≠ 6 → takes_generic_rule game_id guid action_id action_data s db.
Proof.
  intros Hne. unfold takes_generic_rule. destruct action_data as [d|]; [|done].
  unfold toggle_rule. apply Z.eqb_neq in Hne. by rewrite Hne.
Qed.

(** ** Progress score and win of the generic rule *)

(** C5.  In a reachable state, for a session whose grid is [g] and whose
    level has the final reference grid [final_frame], an action served by
    the generic rule leaves the session in state WIN when [g] agrees with
    the reference in all 4096 cells, and with score
    [floor (matched * 100 / 4096)] and state NOT_FINISHED when the number
    [matched] of agreeing cells is strictly between 0 and 4096. *)
Theorem generic_rule_score gl db game_id guid action_id action_data s g final_frame :
  reachable gl db →
  sessions_db db !! guid = Some s →
  s_game_id s = game_id →
  takes_generic_rule game_id guid action_id action_data s db →
  s_current_frame s = [g] →
  get_frame_data gl game_id (s_level s) final = Some [final_frame] →
  (matched g final_frame = 4096 →
   session_state guid (execute_action gl game_id guid action_id action_data db).1
   = Some WIN ∧
   ∃ r, (execute_action gl game_id guid action_id action_data db).2 = Returned r ∧
        fr_state r = WIN) ∧
  (0 < matched g final_frame < 4096 →
   session_score guid (execute_action gl game_id guid action_id action_data db).1
   = Some (matched g final_frame * 100 / 4096) ∧
   session_state guid (execute_action gl game_id guid action_id action_data db).1
   = Some NOT_FINISHED ∧
   ∃ r, (execute_action gl game_id guid action_id action_data db).2 = Returned r ∧
        fr_score r = matched g final_frame * 100 / 4096 ∧
        fr_state r = NOT_FINISHED).
Proof.
  intros Hr Hs Hgame Hgen Hf Hfinal.
  rewrite (execute_action_generic gl game_id guid action_id action_data s db) by done.
  pose proof (reachable_session_ok gl db guid s Hr Hs) as Hok.
  destruct (regular_action_session gl game_id guid action_id action_data s db
              Hs Hgame Hok) as (g' & score & Hf' & Hg & Hscore & Hafter & Hout).
  rewrite Hf in Hf'. simplify_eq.
  rewrite (new_score_64 s g' _ Hf Hg), Hfinal in Hscore. simplify_eq.
  rewrite Hfinal, Hf in Hafter, Hout.
  unfold session_state, session_score. rewrite Hafter, Hout.
  pose proof (matches_final_64 g' final_frame [] Hg) as Hm.
  pose proof (matched_range g' final_frame) as Hrange.
  destruct (matches_final [g'] final_frame) eqn:E; simpl; split.
  - intros _. split; [done|]. eexists. split; [by apply validate_in_range|done].
  - intros Hpart. assert (matched g' final_frame = 4096) by (by apply Hm). lia.
  - intros Hall. apply Hm in Hall. done.
  - intros Hpart. split; [done|]. split; [done|].
    eexists. split; [apply validate_in_range; [simpl|done]|done].
    split; [apply Z.div_pos; lia|].
    apply Z.div_le_upper_bound; lia.
Qed.

Lemma reachable_demo_start_P :
  reachable demo_loader (run_all demo_loader demo_start_P empty_stores).
Proof.
  apply reachable_run_all; [apply reachable_init|].
  vm_compute. by split_and!.
Qed.

Lemma generic_rule_score_witness :
  let db := run_all demo_loader demo_start_P empty_stores in
  reachable demo_loader db ∧
  sessions_db db !! "g1"
  = Some (mkSession "P" "card" NOT_FINISHED 0 "level_1" 0 [pad_grid [[1]]]) ∧
  get_frame_data demo_loader "P" "level_1" final = Some [pad_grid [[0]]] ∧
  matched (pad_grid [[1]]) (pad_grid [[0]]) = 4095 ∧
  session_score "g1" (execute_action demo_loader "P" "g1" 1 None db).1 = Some 99 ∧
  session_state "g1" (execute_action demo_loader "P" "g1" 1 None db).1
  = Some NOT_FINISHED.
Proof.
  cbv zeta.
  assert (Hs : sessions_db (run_all demo_loader demo_start_P empty_stores) !! "g1"
               = Some (mkSession "P" "card" NOT_FINISHED 0 "level_1" 0 [pad_grid [[1]]]))
    by (vm_compute; reflexivity).
  assert (Hfinal : get_frame_data demo_loader "P" "level_1" final = Some [pad_grid [[0]]])
    by reflexivity.
  assert (Hm : matched (pad_grid [[1]]) (pad_grid [[0]]) = 4095)
    by (vm_compute; reflexivity).
  destruct (proj2 (generic_rule_score demo_loader _ "P" "g1" 1 None _ _ _
                     reachable_demo_start_P Hs eq_refl I eq_refl Hfinal))
    as (Hscore & Hstate & _); [lia|].
  rewrite Hm in Hscore.
  exact (conj reachable_demo_start_P (conj Hs (conj Hfinal (conj Hm (conj Hscore Hstate))))).
Defined.

(** ** The grid after a generic action *)

(** C10.  In a reachable state, an action served by the generic rule
    replaces the session's stored frame: when the new state is WIN the
    stored frame is the level's final frame data; otherwise it is the
    frame [create_frame_from_game_data] serves for "initial", that is the
    level's initial frame data when the level has some.  The new frame
    does not depend on the frame stored before, so earlier block toggles
    are gone. *)
Theorem generic_rule_overwrites_grid gl db game_id guid action_id action_data s :
  reachable gl db →
  sessions_db db !! guid = Some s →
  s_game_id s = game_id →
  takes_generic_rule game_id guid action_id action_data s db →
  ∃ s',
    sessions_db (execute_action gl game_id guid action_id action_data db).1 !! guid
    = Some s' ∧
    (s_state s' = WIN →
     get_frame_data gl game_id (s_level s) final = Some (s_current_frame s')) ∧
    (s_state s' ≠ WIN →
     s_current_frame s' = create_frame_from_game_data gl game_id (s_level s) initial ∧
     ∀ frame_data,
       get_frame_data gl game_id (s_level s) initial = Some frame_data →
       s_current_frame s' = frame_data).
Proof.
  intros Hr Hs Hgame Hgen.
  rewrite (execute_action_generic gl game_id guid action_id action_data s db) by done.
  pose proof (reachable_session_ok gl db guid s Hr Hs) as Hok.
  destruct (regular_action_session gl game_id guid action_id action_data s db
              Hs Hgame Hok) as (g & score & Hf & Hg & Hscore & Hafter & _).
  eexists. split; [exact Hafter|]. simpl.
  destruct (get_frame_data gl game_id (s_level s) final) as [[|final_frame fs]|] eqn:Efinal.
  - split; [done|]. intros _. split; [done|].
    intros fd Hfd. unfold create_frame_from_game_data. by rewrite Hfd.
  - destruct (matches_final (s_current_frame s) final_frame) eqn:Ewin.
    + split; [|done]. intros _.
      unfold create_frame_from_game_data. by rewrite Efinal.
    + split; [done|]. intros _. split; [done|].
      intros fd Hfd. unfold create_frame_from_game_data. by rewrite Hfd.
  - split; [done|]. intros _. split; [done|].
    intros fd Hfd. unfold create_frame_from_game_data. by rewrite Hfd.
Qed.

Lemma reachable_demo_toggled :
  reachable demo_loader (run_all demo_loader demo_toggled empty_stores).
Proof.
  apply reachable_run_all; [apply reachable_init|].
  vm_compute. by split_and!.
Qed.

Lemma generic_rule_overwrites_grid_witness :
  let db := run_all demo_loader demo_toggled empty_stores in
  reachable demo_loader db ∧
  (∃ g, session_frame "g1" db = Some [g] ∧ cell g 10 20 = Some 9) ∧
  session_frame "g1" (execute_action demo_loader "G" "g1" 1 None db).1
  = Some [pad_grid red_grid].
Proof.
  cbv zeta. split; [apply reachable_demo_toggled|]. split.
  { eexists. split; vm_compute; reflexivity. }
  assert (Hs : ∃ s, sessions_db (run_all demo_loader demo_toggled empty_stores) !! "g1"
                    = Some s ∧ s_game_id s = "G" ∧ s_level s = "level_1").
  { eexists. split; [vm_compute; reflexivity|]. split; reflexivity. }
  destruct Hs as (s & Hs & Hgame & Hlevel).
  destruct (generic_rule_overwrites_grid demo_loader _ "G" "g1" 1 None s
              reachable_demo_toggled Hs Hgame I) as (s' & Hs' & _ & Hinit).
  assert (Hstate : session_state "g1"
            (execute_action demo_loader "G" "g1" 1 None
               (run_all demo_loader demo_toggled empty_stores)).1
          = Some NOT_FINISHED) by (vm_compute; reflexivity).
  unfold session_state in Hstate. rewrite Hs' in Hstate. simpl in Hstate.
  unfold session_frame. rewrite Hs'. simpl. f_equal.
  apply Hinit; [congruence|]. rewrite Hlevel. vm_compute. reflexivity.
Defined.

(** ** The eight blocks *)

Lemma blocks_eq :
  blocks = [ mkBlock 4 10 15 21; mkBlock 20 10 31 21; mkBlock 36 10 47 21;
             mkBlock 4 26 15 37; mkBlock 36 26 47 37;
             mkBlock 4 42 15 53; mkBlock 20 42 31 53; mkBlock 36 42 47 53 ].
Proof. reflexivity. Qed.

(** Case analysis on a member of [blocks]. *)
Ltac each_block H :=
  rewrite blocks_eq in H;
  repeat (apply elem_of_cons in H as [->|H]);
  [..|by apply not_elem_of_nil in H].

Lemma in_block_spec block x y :
  in_block block x y = true ↔
  x1 block <= x <= x2 block ∧ y1 block <= y <= y2 block.
Proof. unfold in_block. rewrite !andb_true_iff, !Z.leb_le. lia. Qed.

Lemma blocks_in_grid block :
  block ∈ blocks →
  0 <= x1 block ∧ x2 block < 64 ∧ 0 <= y1 block ∧ y2 block < 64.
Proof. intros H. each_block H; simpl; lia. Qed.

Lemma blocks_disjoint b b' x y :
  b ∈ blocks → b' ∈ blocks →
  in_block b x y = true → in_block b' x y = true → b = b'.
Proof.
  intros Hb Hb'. rewrite !in_block_spec.
  each_block Hb; each_block Hb'; simpl; intros; first [reflexivity | lia].
Qed.

Lemma elem_to_nat_range (a b : Z) (n : nat) :
  0 <= a → n ∈ (Z.to_nat <$> range a b) ↔ a <= Z.of_nat n < b.
Proof.
  intros Ha. unfold range. rewrite list_elem_of_fmap. split.
  - intros (z & -> & Hz). apply elem_of_seqZ in Hz. lia.
  - intros Hn. exists (Z.of_nat n). split; [lia|]. apply elem_of_seqZ. lia.
Qed.

Lemma range_to_nat_NoDup (a b : Z) : 0 <= a → NoDup (Z.to_nat <$> range a b).
Proof.
  intros Ha. unfold range. apply NoDup_fmap_2_strong; [|apply NoDup_seqZ].
  intros z z' Hz Hz' Heq. apply elem_of_seqZ in Hz, Hz'. lia.
Qed.

Lemma toggle_block_cell block grid (cy cx : nat) :
  block ∈ blocks →
  cell (toggle_block block grid).1.1.1 cy cx =
  if in_block block (Z.of_nat cx) (Z.of_nat cy)
  then toggle_colour <$> cell grid cy cx
  else cell grid cy cx.
Proof.
  intros Hb. destruct (blocks_in_grid block Hb) as (Hx & _ & Hy & _).
  unfold toggle_block.
  rewrite toggle_rows_cell by (by apply range_to_nat_NoDup). simpl.
  destruct (in_block block (Z.of_nat cx) (Z.of_nat cy)) eqn:E.
  - apply in_block_spec in E. rewrite decide_True; [done|].
    rewrite !elem_to_nat_range by done. lia.
  - rewrite decide_False; [done|]. rewrite !elem_to_nat_range by done. intros H.
    assert (in_block block (Z.of_nat cx) (Z.of_nat cy) = true)
      by (apply in_block_spec; lia).
    congruence.
Qed.

Lemma toggle_block_toggled block grid x y :
  block ∈ blocks →
  in_block block x y = true →
  is_Some (cell grid (Z.to_nat y) (Z.to_nat x)) →
  (toggle_block block grid).1.1.2 = true.
Proof.
  intros Hb Hin Hc. destruct (blocks_in_grid block Hb) as (Hx & _ & Hy & _).
  apply in_block_spec in Hin.
  unfold toggle_block.
  eapply (toggle_rows_toggled _ _ _ y x).
  - by apply range_to_nat_NoDup.
  - unfold range. apply elem_of_seqZ. lia.
  - unfold range. apply elem_of_seqZ. lia.
  - done.
Qed.

Lemma block_loop_first game_id guid action_id action_data x y session grid rest db
    block (pre post : list Block) clicked :
  (∀ b', b' ∈ pre → in_block b' x y = false) →
  in_block block x y = true →
  (toggle_block block grid).1.1.2 = true →
  block_loop game_id guid action_id action_data x y session grid rest db
             clicked (pre ++ block :: post)
  = Exit (toggled_update game_id guid action_id action_data block session
            (toggle_block block grid).1.1.1 rest
            (toggle_block block grid).1.2 (toggle_block block grid).2 db).
Proof.
  intros Hpre Hin Ht. induction pre as [|b' pre IH]; simpl.
  - rewrite Hin.
    destruct (toggle_block block grid) as [[[grid' toggled] olds] news].
    simpl in *. by rewrite Ht.
  - rewrite (Hpre b') by apply list_elem_of_here.
    apply IH. intros b'' Hb''. apply Hpre. by apply list_elem_of_further.
Qed.

Lemma block_loop_hit game_id guid action_id action_data x y session grid rest db block :
  block ∈ blocks →
  in_block block x y = true →
  is_Some (cell grid (Z.to_nat y) (Z.to_nat x)) →
  block_loop game_id guid action_id action_data x y session grid rest db false blocks
  = Exit (toggled_update game_id guid action_id action_data block session
            (toggle_block block grid).1.1.1 rest
            (toggle_block block grid).1.2 (toggle_block block grid).2 db).
Proof.
  intros Hb Hin Hc.
  destruct (list_elem_of_split_l _ _ Hb) as (pre & post & Heq & Hpre).
  rewrite Heq. apply block_loop_first; [|done|by eapply toggle_block_toggled].
  intros b' Hb'. destruct (in_block b' x y) eqn:E; [|done].
  exfalso. apply Hpre.
  assert (b' ∈ blocks) by (rewrite Heq; apply elem_of_app; by left).
  by rewrite (blocks_disjoint block b' x y).
Qed.

Lemma cell_is_Some_bounds (grid : Grid) (y x : nat) :
  is_Some (cell grid y x) →
  ∃ row, grid !! y = Some row ∧ (y < length grid)%nat ∧ (x < length row)%nat.
Proof.
  unfold cell. intros Hc.
  destruct (grid !! y) as [row|] eqn:Hrow; [|by destruct Hc].
  exists row. split; [done|]. split.
  - by eapply lookup_lt_Some.
  - by apply lookup_lt_is_Some_1.
Qed.

Lemma toggle_rule_hit game_id guid x y s grid rest db block :
  block ∈ blocks →
  in_block block x y = true →
  s_current_frame s = grid :: rest →
  is_Some (cell grid (Z.to_nat y) (Z.to_nat x)) →
  toggle_rule game_id guid 6 (mkActionData (Some x) (Some y)) s db
  = Exit (toggled_update game_id guid 6 (mkActionData (Some x) (Some y)) block s
            (toggle_block block grid).1.1.1 rest
            (toggle_block block grid).1.2 (toggle_block block grid).2 db).
Proof.
  intros Hb Hin Hf Hc.
  destruct (blocks_in_grid block Hb) as (Hx & _ & Hy & _).
  pose proof (proj1 (in_block_spec block x y) Hin) as Hxy.
  destruct (cell_is_Some_bounds grid _ _ Hc) as (row & Hrow & Hly & Hlx).
  unfold toggle_rule. cbn [ad_x ad_y].
  change (6 =? 6) with true. cbn [negb]. rewrite Hf.
  destruct (Z.gtb_spec (Z.of_nat (length grid)) y); [|lia]. cbn [negb].
  unfold py_index. destruct (Z.leb_spec 0 y); [|lia]. rewrite Hrow.
  destruct (Z.gtb_spec (Z.of_nat (length row)) x); [|lia]. cbn [negb].
  by apply block_loop_hit.
Qed.

Lemma toggled_update_session game_id guid action_id action_data block s
    grid rest old_colors new_colors db :
  ∃ s',
    sessions_db (toggled_update game_id guid action_id action_data block s
                   grid rest old_colors new_colors db).1 !! guid = Some s' ∧
    s_current_frame s' = grid :: rest ∧
    s_game_id s' = s_game_id s ∧
    (s_state s' = s_state s ∨ s_state s' = WIN).
Proof.
  unfold toggled_update.
  repeat case_match; unfold commit, put_session; simpl_fields;
    rewrite lookup_insert_eq; eexists; (split; [reflexivity|]);
    simpl_fields; auto.
Qed.

Lemma execute_action_hit gl game_id guid x y s grid rest db block :
  sessions_db db !! guid = Some s →
  s_game_id s = game_id →
  s_current_frame s = grid :: rest →
  block ∈ blocks →
  in_block block x y = true →
  is_Some (cell grid (Z.to_nat y) (Z.to_nat x)) →
  ∃ s',
    sessions_db (execute_action gl game_id guid 6 (click x y) db).1 !! guid = Some s' ∧
    s_current_frame s' = (toggle_block block grid).1.1.1 :: rest ∧
    s_game_id s' = game_id ∧
    (s_state s' = s_state s ∨ s_state s' = WIN).
Proof.
  intros Hs Hg Hf Hb Hin Hc. unfold execute_action, click. rewrite Hs.
  pose proof Hg as Hg'. apply String.eqb_eq in Hg'. rewrite Hg'. cbn [negb].
  rewrite (toggle_rule_hit game_id guid x y s grid rest db block) by done.
  destruct (toggled_update_session game_id guid 6 (mkActionData (Some x) (Some y))
              block s (toggle_block block grid).1.1.1 rest
              (toggle_block block grid).1.2 (toggle_block block grid).2 db)
    as (s' & Hs' & Hf' & Hg'' & Hst).
  exists s'. split_and!; [done|done|congruence|done].
Qed.

(** ** Toggling a block twice *)

Lemma toggle_colour_twice (c : Z) :
  toggle_colour (toggle_colour c) = if decide (c = 8 ∨ c = 9) then c else 8.
Proof.
  unfold toggle_colour.
  destruct (Z.eqb_spec c 9) as [->|H9]; [done|].
  destruct (Z.eqb_spec c 8) as [->|H8]; [done|].
  simpl. rewrite decide_False by lia. done.
Qed.

(** C6.  Two successive clicks in the same active block, on a session
    whose grid holds the clicked cells: afterwards every cell of the
    block that held 8 or 9 holds its old colour again, every cell of the
    block that held another colour holds 8, and the cells outside the
    block are unchanged. *)
Theorem toggle_twice gl db game_id guid s grid rest block x y x' y' :
  sessions_db db !! guid = Some s →
  s_game_id s = game_id →
  s_current_frame s = grid :: rest →
  block ∈ blocks →
  in_block block x y = true →
  in_block block x' y' = true →
  is_Some (cell grid (Z.to_nat y) (Z.to_nat x)) →
  is_Some (cell grid (Z.to_nat y') (Z.to_nat x')) →
  ∃ s2 grid2,
    sessions_db
      (execute_action gl game_id guid 6 (click x' y')
         (execute_action gl game_id guid 6 (click x y) db).1).1 !! guid = Some s2 ∧
    s_current_frame s2 = grid2 :: rest ∧
    ∀ (cy cx : nat) (c : Z),
      cell grid cy cx = Some c →
      cell grid2 cy cx =
      Some (if in_block block (Z.of_nat cx) (Z.of_nat cy)
            then (if decide (c = 8 ∨ c = 9) then c else 8)
            else c).
Proof.
  intros Hs Hg Hf Hb Hin Hin' Hc Hc'.
  destruct (execute_action_hit gl game_id guid x y s grid rest db block)
    as (s1 & Hs1 & Hf1 & Hg1 & _); [done..|].
  assert (Hc1 : is_Some (cell (toggle_block block grid).1.1.1 (Z.to_nat y') (Z.to_nat x'))).
  { rewrite toggle_block_cell by done. case_match; [|done]. by rewrite fmap_is_Some. }
  destruct (execute_action_hit gl game_id guid x' y' s1 _ rest _ block
              Hs1 Hg1 Hf1 Hb Hin' Hc1) as (s2 & Hs2 & Hf2 & _).
  exists s2. eexists. split; [exact Hs2|]. split; [exact Hf2|].
  intros cy cx c Hcell.
  rewrite !toggle_block_cell by done. rewrite Hcell.
  destruct (in_block block (Z.of_nat cx) (Z.of_nat cy)); [|done].
  simpl. by rewrite toggle_colour_twice.
Qed.

Lemma toggle_twice_witness :
  let db := run_all demo_loader demo_start_P empty_stores in
  let db2 := (execute_action demo_loader "P" "g1" 6 (click 5 11)
                (execute_action demo_loader "P" "g1" 6 (click 4 10) db).1).1 in
  session_frame "g1" db = Some [pad_grid [[1]]] ∧
  cell (pad_grid [[1]]) 10 4 = Some 0 ∧
  ∃ grid2, session_frame "g1" db2 = Some [grid2] ∧ cell grid2 10 4 = Some 8.
Proof.
  cbv zeta.
  assert (Hs : sessions_db (run_all demo_loader demo_start_P empty_stores) !! "g1"
               = Some (mkSession "P" "card" NOT_FINISHED 0 "level_1" 0 [pad_grid [[1]]]))
    by (vm_compute; reflexivity).
  assert (Hb : mkBlock 4 10 15 21 ∈ blocks)
    by (rewrite blocks_eq; apply list_elem_of_here).
  assert (Hc : is_Some (cell (pad_grid [[1]]) (Z.to_nat 10) (Z.to_nat 4)))
    by (exists 0; vm_compute; reflexivity).
  assert (Hc' : is_Some (cell (pad_grid [[1]]) (Z.to_nat 11) (Z.to_nat 5)))
    by (exists 0; vm_compute; reflexivity).
  assert (H0 : cell (pad_grid [[1]]) 10 4 = Some 0) by (vm_compute; reflexivity).
  destruct (toggle_twice demo_loader _ "P" "g1" _ (pad_grid [[1]]) [] (mkBlock 4 10 15 21)
              4 10 5 11 Hs eq_refl eq_refl Hb eq_refl eq_refl Hc Hc')
    as (s2 & grid2 & Hs2 & Hf2 & Hcells).
  split; [unfold session_frame; by rewrite Hs|]. split; [exact H0|].
  exists grid2. split.
  - unfold session_frame. rewrite Hs2. simpl. by rewrite Hf2.
  - exact (Hcells 10%nat 4%nat 0 H0).
Defined.

(** ** The state WIN under further actions *)

Lemma reachable_demo_won :
  reachable demo_loader (run_all demo_loader demo_won empty_stores).
Proof.
  apply reachable_run_all; [apply reachable_init|].
  vm_compute. by split_and!.
Qed.

(** C1, counterexample.  Game "G" has no final grid.  After one click in
    block 1 the four win blocks are red and the session is in state WIN;
    the next generic action puts it back to NOT_FINISHED. *)
Lemma win_is_not_terminal :
  reachable demo_loader (run_all demo_loader demo_won empty_stores) ∧
  session_state "g1" (run_all demo_loader demo_won empty_stores) = Some WIN ∧
  session_state "g1"
    (execute_action demo_loader "G" "g1" 1 None
       (run_all demo_loader demo_won empty_stores)).1
  = Some NOT_FINISHED.
Proof.
  split; [apply reachable_demo_won|].
  split; vm_compute; reflexivity.
Qed.

(** C1, amended.  In a reachable state, for a session in state WIN: a
    click that lands in one of the eight blocks leaves the state WIN; an
    action served by the generic rule leaves the state WIN when the level
    has a final grid and the session's grid matches it in every cell, and
    sets the state to NOT_FINISHED otherwise. *)
Theorem win_state_after_action gl db game_id guid s :
  reachable gl db →
  sessions_db db !! guid = Some s →
  s_game_id s = game_id →
  s_state s = WIN →
  (∀ x y block,
     block ∈ blocks → in_block block x y = true →
     session_state guid (execute_action gl game_id guid 6 (click x y) db).1
     = Some WIN) ∧
  (∀ action_id action_data,
     takes_generic_rule game_id guid action_id action_data s db →
     session_state guid (execute_action gl game_id guid action_id action_data db).1
     = Some (if generic_win gl game_id s then WIN else NOT_FINISHED)).
Proof.
  intros Hr Hs Hg Hwin.
  pose proof (reachable_session_ok gl db guid s Hr Hs) as Hok.
  split.
  - intros x y block Hb Hin.
    destruct Hok as ((g & Hf & H64) & _).
    destruct (blocks_in_grid block Hb) as (Hx1 & Hx2 & Hy1 & Hy2).
    pose proof (proj1 (in_block_spec block x y) Hin) as Hxy.
    assert (Hc : is_Some (cell g (Z.to_nat y) (Z.to_nat x)))
      by (apply cell_64; [done|lia..]).
    destruct (execute_action_hit gl game_id guid x y s g [] db block
                Hs Hg Hf Hb Hin Hc) as (s' & Hs' & _ & _ & Hst).
    unfold session_state. rewrite Hs'. simpl. f_equal.
    destruct Hst; congruence.
  - intros action_id action_data Hgen.
    rewrite (execute_action_generic gl game_id guid action_id action_data s db) by done.
    destruct (regular_action_session gl game_id guid action_id action_data s db
                Hs Hg Hok) as (g & score & _ & _ & _ & Hafter & _).
    unfold session_state. rewrite Hafter. unfold generic_win.
    by case_match.
Qed.

Lemma win_state_after_action_witness :
  let db := run_all demo_loader demo_won empty_stores in
  reachable demo_loader db ∧
  session_state "g1" db = Some WIN ∧
  session_state "g1" (execute_action demo_loader "G" "g1" 6 (click 20 10) db).1
  = Some WIN ∧
  session_state "g1" (execute_action demo_loader "G" "g1" 1 None db).1
  = Some NOT_FINISHED.
Proof.
  cbv zeta.
  assert (Hs : ∃ s, sessions_db (run_all demo_loader demo_won empty_stores) !! "g1"
                    = Some s ∧ s_game_id s = "G" ∧ s_state s = WIN ∧
                    generic_win demo_loader "G" s = false).
  { eexists. split; [vm_compute; reflexivity|]. split_and!; reflexivity. }
  destruct Hs as (s & Hs & Hg & Hw & Hgw).
  assert (Hb : mkBlock 20 10 31 21 ∈ blocks)
    by (rewrite blocks_eq; apply list_elem_of_further, list_elem_of_here).
  pose proof (win_state_after_action demo_loader _ "G" "g1" s
                reachable_demo_won Hs Hg Hw) as [Hclick Hgeneric].
  split; [apply reachable_demo_won|]. split.
  { unfold session_state. rewrite Hs. simpl. by rewrite Hw. }
  split.
  - exact (Hclick 20 10 _ Hb eq_refl).
  - pose proof (Hgeneric 1 None I) as H. by rewrite Hgw in H.
Defined.

(** ** The game of a session *)

(** C4, counterexample.  The session "g1" is created for game "G"; a
    reset naming the guid "g1" and the game "H" goes through and the
    session then belongs to "H". *)
Lemma reset_changes_game_id :
  reachable demo_loader (run_all demo_loader demo_start empty_stores) ∧
  session_game_id "g1" (run_all demo_loader demo_start empty_stores) = Some "G" ∧
  session_game_id "g1"
    (reset_game demo_loader "H" "card" (Some "g1") "g2"
       (run_all demo_loader demo_start empty_stores)).1
  = Some "H".
Proof.
  split; [apply reachable_demo_start|].
  split; vm_compute; reflexivity.
Qed.

Lemma effect_game_id guid game_id db db' g s :
  action_effect guid game_id db db' →
  sessions_db db !! g = Some s →
  ∃ s', sessions_db db' !! g = Some s' ∧ s_game_id s' = s_game_id s.
Proof.
  intros Heff Hg.
  destruct Heff as [|s0 s' Hs Hstep|s0 s' sc sc' gc gc' Hs Hstep _ _ _ _];
    [by exists s|..].
  all: unfold commit, put_session; simpl_fields.
  all: destruct (decide (g = guid)) as [->|Hne];
    [rewrite lookup_insert_eq; simplify_eq; exists s'; split; [done|apply Hstep]
    |rewrite lookup_insert_ne by done; by exists s].
Qed.

(** C4, amended.  No action changes the game of any session.  A reset
    that goes through stores the command's game for the guid it answers
    with (the guid of the command, or the fresh one when the command has
    none) and leaves every other session as it was. *)
Theorem game_id_changes_only_by_reset gl db :
  (∀ game_id guid action_id action_data g s,
     sessions_db db !! g = Some s →
     ∃ s',
       sessions_db (execute_action gl game_id guid action_id action_data db).1 !! g
       = Some s' ∧
       s_game_id s' = s_game_id s) ∧
  (∀ game_id card_id command_guid fresh_guid db' r,
     reset_game gl game_id card_id command_guid fresh_guid db = (db', Returned r) →
     fr_guid r = default fresh_guid command_guid ∧
     session_game_id (fr_guid r) db' = Some game_id ∧
     ∀ g, g ≠ fr_guid r → sessions_db db' !! g = sessions_db db !! g).
Proof.
  split.
  - intros game_id guid action_id action_data g s Hg.
    eapply effect_game_id; [apply execute_action_effect|done].
  - intros game_id card_id command_guid fresh_guid db' r Heq.
    destruct (reset_game_cases gl game_id card_id command_guid fresh_guid db)
      as [[d Hrej]|(guid & sc & r' & Hsc & [Hguid Hr] & Hdone)].
    + rewrite Hrej in Heq. by simplify_eq.
    + rewrite Hdone in Heq. simplify_eq.
      rewrite !Hr. split; [done|].
      unfold session_game_id, commit; simpl_fields. split.
      * by rewrite lookup_insert_eq.
      * intros g Hne. by rewrite lookup_insert_ne.
Qed.

(** ** A click outside the blocks *)

Lemma block_loop_miss game_id guid action_id action_data x y session grid rest db bs :
  (∀ b, b ∈ bs → in_block b x y = false) →
  block_loop game_id guid action_id action_data x y session grid rest db false bs
  = Exit (db, Raised "KeyError").
Proof.
  induction bs as [|b bs IH]; intros Hmiss; simpl; [done|].
  rewrite (Hmiss b) by apply list_elem_of_here.
  apply IH. intros b' Hb'. apply Hmiss. by apply list_elem_of_further.
Qed.

Lemma click_outside_blocks gl game_id guid x y s grid rest db :
  sessions_db db !! guid = Some s →
  s_game_id s = game_id →
  s_current_frame s = grid :: rest →
  0 <= x → 0 <= y →
  is_Some (cell grid (Z.to_nat y) (Z.to_nat x)) →
  (∀ b, b ∈ blocks → in_block b x y = false) →
  execute_action gl game_id guid 6 (click x y) db = (db, Raised "KeyError").
Proof.
  intros Hs Hg Hf Hx Hy Hc Hmiss.
  destruct (cell_is_Some_bounds grid _ _ Hc) as (row & Hrow & Hly & Hlx).
  unfold execute_action, click. rewrite Hs.
  apply String.eqb_eq in Hg. rewrite Hg. cbn [negb].
  unfold toggle_rule. cbn [ad_x ad_y].
  change (6 =? 6) with true. cbn [negb]. rewrite Hf.
  destruct (Z.gtb_spec (Z.of_nat (length grid)) y); [|lia]. cbn [negb].
  unfold py_index. destruct (Z.leb_spec 0 y); [|lia]. rewrite Hrow.
  destruct (Z.gtb_spec (Z.of_nat (length row)) x); [|lia]. cbn [negb].
  by rewrite block_loop_miss.
Qed.

(** C2, the failing input.  After a reset of game "G", a click on the
    cell (0,0), which lies in none of the eight blocks, does not return
    the frame tagged as a no-op: building the response looks up
    [session["win_score"]], a key no session has, and the command dies
    with a [KeyError].  The stores are unchanged. *)
Theorem noop_click_raises_KeyError :
  (∀ b, b ∈ blocks → in_block b 0 0 = false) ∧
  execute_action demo_loader "G" "g1" 6 (click 0 0)
    (run_all demo_loader demo_start empty_stores)
  = (run_all demo_loader demo_start empty_stores, Raised "KeyError").
Proof.
  assert (Hmiss : ∀ b, b ∈ blocks → in_block b 0 0 = false).
  { intros b Hb. each_block Hb; reflexivity. }
  split; [exact Hmiss|].
  assert (Hs : sessions_db (run_all demo_loader demo_start empty_stores) !! "g1"
               = Some (mkSession "G" "card" NOT_FINISHED 0 "level_1" 0 [pad_grid red_grid]))
    by (vm_compute; reflexivity).
  eapply click_outside_blocks; [exact Hs|reflexivity|reflexivity|lia|lia| |exact Hmiss].
  exists 8. vm_compute. reflexivity.
Qed.

(** ** The fallback score *)

Lemma reachable_demo_254 :
  reachable demo_loader (run_all demo_loader demo_254 empty_stores).
Proof.
  apply reachable_run_all; [apply reachable_init|].
  vm_compute. repeat split.
Qed.

(** C3, the failing input.  Game "G" has no final grid, so every generic
    action adds 1 to the score.  After 254 such actions the score is 254;
    the next one stores 255 in the session, and the response, whose score
    must be at most 254, cannot be built: the command dies with a
    [ValidationError]. *)
Theorem fallback_score_reaches_255 :
  reachable demo_loader (run_all demo_loader demo_254 empty_stores) ∧
  session_score "g1" (run_all demo_loader demo_254 empty_stores) = Some 254 ∧
  session_score "g1"
    (execute_action demo_loader "G" "g1" 1 None
       (run_all demo_loader demo_254 empty_stores)).1 = Some 255 ∧
  (execute_action demo_loader "G" "g1" 1 None
     (run_all demo_loader demo_254 empty_stores)).2 = Raised "ValidationError".
Proof.
  split; [apply reachable_demo_254|].
  split_and!; vm_compute; reflexivity.
Qed.

Lemma game_id_changes_only_by_reset_witness :
  let db := run_all demo_loader demo_start empty_stores in
  session_game_id "g1" db = Some "G" ∧
  session_game_id "g1" (execute_action demo_loader "G" "g1" 1 None db).1 = Some "G" ∧
  session_game_id "g1" (reset_game demo_loader "H" "card" (Some "g1") "g2" db).1
  = Some "H".
Proof.
  cbv zeta.
  assert (Hs : ∃ s, sessions_db (run_all demo_loader demo_start empty_stores) !! "g1"
                    = Some s ∧ s_game_id s = "G").
  { eexists. split; [vm_compute; reflexivity|reflexivity]. }
  destruct Hs as (s & Hs & Hg).
  assert (Hreset : ∃ db' r,
            reset_game demo_loader "H" "card" (Some "g1") "g2"
              (run_all demo_loader demo_start empty_stores) = (db', Returned r)).
  { eexists _, _. vm_compute. reflexivity. }
  destruct Hreset as (db' & r & Hreset).
  pose proof (game_id_changes_only_by_reset demo_loader
                (run_all demo_loader demo_start empty_stores)) as [Hact Hres].
  destruct (Hact "G" "g1" 1 None "g1" s Hs) as (s' & Hs' & Hg').
  destruct (Hres "H" "card" (Some "g1") "g2" db' r Hreset) as (Hguid & Hgame & _).
  split; [unfold session_game_id; rewrite Hs; simpl; by rewrite Hg|].
  split.
  - unfold session_game_id. rewrite Hs'. simpl. by rewrite Hg', Hg.
  - rewrite Hreset. simpl in Hguid. rewrite Hguid in Hgame. exact Hgame.
Defined.

(** * Further properties of the engine *)

(** ** The exact effect of an action on well-formed stores *)

Lemma get_last_nonempty {A : Type} (l : list A) :
  (0 < length l)%nat → ∃ n, get_last l = Some n.
Proof. intros Hl. by apply get_last_is_Some. Qed.

Lemma toggled_update_exact game_id guid action_id action_data block s
    grid rest old_colors new_colors db sc gc :
  scorecards_db db !! s_card_id s = Some sc →
  sc_cards sc !! game_id = Some gc →
  (0 < length (gc_scores gc))%nat →
  (0 < length (gc_states gc))%nat →
  (0 < length (gc_actions gc))%nat →
  toggled_update game_id guid action_id action_data block s
    grid rest old_colors new_colors db
  = (commit guid
       (mkSession (s_game_id s) (s_card_id s)
          (if win_condition_met grid then WIN else s_state s)
          (if win_condition_met grid then 1 else s_score s)
          (s_level s) (s_actions_taken s + 1) (grid :: rest))
       (s_card_id s) (book_scorecard (win_condition_met grid) sc) game_id
       (book_action (if win_condition_met grid then Some 1 else None)
                    (if win_condition_met grid then Some WIN else None) gc)
       db,
     FrameResponse_validate
       (mkFrameResponse game_id guid (grid :: rest)
          (if win_condition_met grid then WIN else s_state s)
          (if win_condition_met grid then 1 else s_score s) 100
          (toggle_input action_id action_data block old_colors new_colors
             (win_condition_met grid)))).
Proof.
  intros Hsc Hgc Hl1 Hl2 Hl3.
  destruct (get_last_nonempty (gc_actions gc) Hl3) as [n Hn].
  unfold toggled_update, book_action, book_scorecard. simpl_fields.
  rewrite Hsc, Hgc. simpl_fields. rewrite Hn.
  destruct (win_condition_met grid).
  - destruct (gc_scores gc) as [|v vs] eqn:Escores; [simpl in Hl1; lia|].
    destruct (gc_states gc) as [|t ts] eqn:Estates; [simpl in Hl2; lia|].
    reflexivity.
  - reflexivity.
Qed.

Lemma regular_action_exact gl game_id guid action_id action_data s db sc gc score :
  s_game_id s = game_id →
  scorecards_db db !! s_card_id s = Some sc →
  sc_cards sc !! game_id = Some gc →
  (0 < length (gc_scores gc))%nat →
  (0 < length (gc_states gc))%nat →
  (0 < length (gc_actions gc))%nat →
  new_score s (get_frame_data gl game_id (s_level s) final) = Some score →
  regular_action gl game_id guid action_id action_data s db
  = (commit guid (generic_session gl s score)
       (s_card_id s) (book_scorecard (generic_win gl game_id s) sc) game_id
       (book_action (Some score)
          (Some (if generic_win gl game_id s then WIN else NOT_FINISHED)) gc)
       db,
     FrameResponse_validate
       (mkFrameResponse game_id guid
          (s_current_frame (generic_session gl s score))
          (s_state (generic_session gl s score))
          (s_score (generic_session gl s score)) 100
          (generic_input action_id action_data))).
Proof.
  intros Hgame Hsc Hgc Hl1 Hl2 Hl3 Hscore. subst game_id.
  destruct (get_last_nonempty (gc_actions gc) Hl3) as [n Hn].
  unfold regular_action.
  change (new_score (set_actions_taken (s_actions_taken s + 1) s)
            (get_frame_data gl (s_game_id s)
               (s_level (set_actions_taken (s_actions_taken s + 1) s)) final))
    with (new_score s (get_frame_data gl (s_game_id s) (s_level s) final)).
  rewrite Hscore. simpl_fields. rewrite Hsc, Hgc. simpl_fields. rewrite Hn.
  destruct (gc_scores gc) as [|v vs] eqn:Escores; [simpl in Hl1; lia|].
  destruct (gc_states gc) as [|t ts] eqn:Estates; [simpl in Hl2; lia|].
  unfold generic_session, generic_win, book_action, book_scorecard.
  rewrite Hn, Escores, Estates.
  destruct (match get_frame_data gl (s_game_id s) (s_level s) final with
            | Some (final_frame :: _) => matches_final (s_current_frame s) final_frame
            | _ => false
            end) eqn:Ewin; reflexivity.
Qed.

Lemma toggle_rule_cases game_id guid action_id d s db :
  toggle_rule game_id guid action_id d s db = FallThrough ∨
  toggle_rule game_id guid action_id d s db = Exit (db, Raised "IndexError") ∨
  toggle_rule game_id guid action_id d s db = Exit (db, Raised "KeyError") ∨
  ∃ x y grid rest block,
    action_id = 6 ∧ d = mkActionData (Some x) (Some y) ∧
    s_current_frame s = grid :: rest ∧
    block ∈ blocks ∧ in_block block x y = true ∧
    is_Some (cell grid (Z.to_nat y) (Z.to_nat x)) ∧
    toggle_rule game_id guid action_id d s db
    = Exit (toggled_update game_id guid action_id d block s
              (toggle_block block grid).1.1.1 rest
              (toggle_block block grid).1.2 (toggle_block block grid).2 db).
Proof.
  unfold toggle_rule.
  destruct (Z.eqb_spec action_id 6) as [->|Hne]; cbn [negb]; [|by left].
  destruct d as [[x|] [y|]]; cbn [ad_x ad_y]; try by left.
  destruct (s_current_frame s) as [|grid rest] eqn:Hf; [by left|].
  destruct (Z.gtb_spec (Z.of_nat (length grid)) y) as [Hy|Hy]; cbn [negb]; [|by left].
  destruct (py_index grid y) as [row|] eqn:Hrow; [|right; by left].
  destruct (Z.gtb_spec (Z.of_nat (length row)) x) as [Hx|Hx]; cbn [negb]; [|by left].
  destruct (decide (Exists (fun b => in_block b x y = true) blocks)) as [Hex|Hno].
  - apply Exists_exists in Hex as (block & Hb & Hin).
    right. right. right. exists x, y, grid, rest, block.
    destruct (blocks_in_grid block Hb) as (Hx1 & _ & Hy1 & _).
    pose proof (proj1 (in_block_spec block x y) Hin) as Hxy.
    assert (Hc : is_Some (cell grid (Z.to_nat y) (Z.to_nat x))).
    { unfold py_index in Hrow. destruct (Z.leb_spec 0 y); [|lia].
      unfold cell. rewrite Hrow. apply lookup_lt_is_Some_2. lia. }
    split_and!; try done.
    by apply block_loop_hit.
  - right. right. left. rewrite block_loop_miss; [done|].
    intros b Hb. destruct (in_block b x y) eqn:E; [|done].
    exfalso. apply Hno, Exists_exists. eauto.
Qed.

Lemma execute_action_cases gl game_id guid action_id action_data db :
  sessions_ok db →
  (execute_action gl game_id guid action_id action_data db).1 = db ∨
  ∃ s sc gc g,
    sessions_db db !! guid = Some s ∧ s_game_id s = game_id ∧
    s_current_frame s = [g] ∧ is_64x64 g ∧
    scorecards_db db !! s_card_id s = Some sc ∧
    sc_cards sc !! game_id = Some gc ∧
    (0 < length (gc_scores gc))%nat ∧
    (0 < length (gc_states gc))%nat ∧
    (0 < length (gc_actions gc))%nat ∧
    ((∃ block,
        block ∈ blocks ∧
        (execute_action gl game_id guid action_id action_data db).1
        = commit guid (toggled_session block s g [])
            (s_card_id s)
            (book_scorecard (win_condition_met (toggle_block block g).1.1.1) sc)
            game_id
            (book_action
               (if win_condition_met (toggle_block block g).1.1.1 then Some 1 else None)
               (if win_condition_met (toggle_block block g).1.1.1 then Some WIN else None)
               gc)
            db) ∨
     (∃ score,
        new_score s (get_frame_data gl game_id (s_level s) final) = Some score ∧
        (execute_action gl game_id guid action_id action_data db).1
        = commit guid (generic_session gl s score)
            (s_card_id s) (book_scorecard (generic_win gl game_id s) sc) game_id
            (book_action (Some score)
               (Some (if generic_win gl game_id s then WIN else NOT_FINISHED)) gc)
            db)).
Proof.
  intros Hok. unfold execute_action.
  destruct (sessions_db db !! guid) as [s|] eqn:Hs; [|by left].
  destruct (String.eqb_spec (s_game_id s) game_id) as [Hg|Hg]; cbn [negb]; [|by left].
  destruct (Hok guid s Hs) as ((g & Hf & H64) & Hlevel & sc & gc & Hsc & Hgc & Hl1 & Hl2 & Hl3).
  rewrite Hg in Hgc.
  assert (Hgeneric :
    (regular_action gl game_id guid action_id action_data s db).1 = db ∨
    ∃ s0 sc0 gc0 g0,
      Some s = Some s0 ∧ s_game_id s0 = game_id ∧
      s_current_frame s0 = [g0] ∧ is_64x64 g0 ∧
      scorecards_db db !! s_card_id s0 = Some sc0 ∧
      sc_cards sc0 !! game_id = Some gc0 ∧
      (0 < length (gc_scores gc0))%nat ∧
      (0 < length (gc_states gc0))%nat ∧
      (0 < length (gc_actions gc0))%nat ∧
      ((∃ block,
          block ∈ blocks ∧
          (regular_action gl game_id guid action_id action_data s db).1
          = commit guid (toggled_session block s0 g0 [])
              (s_card_id s0)
              (book_scorecard (win_condition_met (toggle_block block g0).1.1.1) sc0)
              game_id
              (book_action
                 (if win_condition_met (toggle_block block g0).1.1.1 then Some 1 else None)
                 (if win_condition_met (toggle_block block g0).1.1.1 then Some WIN else None)
                 gc0)
              db) ∨
       (∃ score,
          new_score s0 (get_frame_data gl game_id (s_level s0) final) = Some score ∧
          (regular_action gl game_id guid action_id action_data s db).1
          = commit guid (generic_session gl s0 score)
              (s_card_id s0) (book_scorecard (generic_win gl game_id s0) sc0) game_id
              (book_action (Some score)
                 (Some (if generic_win gl game_id s0 then WIN else NOT_FINISHED)) gc0)
              db))).
  { right. exists s, sc, gc, g. split_and!; try done. right.
    assert (∃ score, new_score s (get_frame_data gl game_id (s_level s) final)
                     = Some score) as [score Hscore].
    { rewrite (new_score_64 s g _ Hf H64). repeat case_match; eauto. }
    exists score. split; [done|].
    by rewrite (regular_action_exact gl game_id guid action_id action_data
                  s db sc gc score). }
  destruct action_data as [d|]; [|exact Hgeneric].
  destruct (toggle_rule_cases game_id guid action_id d s db)
    as [->|[->|[->|(x & y & grid & rest & block & -> & -> & Hf' & Hb & Hin & Hc & ->)]]];
    [exact Hgeneric|by left|by left|].
  rewrite Hf in Hf'. simplify_eq.
  right. exists s, sc, gc, grid. split_and!; try done. left.
  exists block. split; [done|].
  by rewrite (toggled_update_exact (s_game_id s) guid 6 _ block s _ [] _ _ db sc gc).
Qed.

(** ** Sums of the books *)

Lemma sum_Z_app (l1 l2 : list Z) : sum_Z (l1 ++ l2) = sum_Z l1 + sum_Z l2.
Proof. unfold sum_Z. induction l1 as [|x l1 IH]; simpl; lia. Qed.

Lemma sum_Z_set_last (l : list Z) (n v : Z) :
  get_last l = Some n → sum_Z (set_last l v) = sum_Z l - n + v.
Proof.
  unfold get_last, set_last. intros Hn.
  destruct (last_Some l n) as [[l' ->] _]; [done|].
  rewrite length_app. simpl.
  replace (Nat.pred (length l' + 1)) with (length l' + 0)%nat by lia.
  rewrite insert_app_r. simpl. rewrite !sum_Z_app. unfold sum_Z. simpl. lia.
Qed.

Lemma cards_total_empty f : cards_total f ∅ = 0.
Proof. unfold cards_total. by rewrite map_fold_empty. Qed.

Lemma cards_total_insert_None f (cards : gmap string PerGameCard) k gc :
  cards !! k = None → cards_total f (<[k := gc]> cards) = f gc + cards_total f cards.
Proof.
  intros Hk. unfold cards_total.
  rewrite map_fold_insert_L; [done| |done]. intros. lia.
Qed.

Lemma cards_total_insert_Some f (cards : gmap string PerGameCard) k gc0 gc :
  cards !! k = Some gc0 →
  cards_total f (<[k := gc]> cards) = cards_total f cards - f gc0 + f gc.
Proof.
  intros Hk.
  rewrite <- (insert_delete_eq cards k gc).
  rewrite cards_total_insert_None by apply lookup_delete_eq.
  rewrite <- (insert_delete_id cards k gc0 Hk) at 2.
  rewrite cards_total_insert_None by apply lookup_delete_eq. lia.
Qed.

Lemma book_action_books card sc gc win play_score play_state game_id :
  scorecard_books_ok card sc →
  sc_cards sc !! game_id = Some gc →
  (0 < length (gc_actions gc))%nat →
  scorecard_books_ok card
    (set_sc_cards
       (<[game_id := book_action play_score play_state gc]>
          (sc_cards (book_scorecard win sc)))
       (book_scorecard win sc)).
Proof.
  intros (Hid & Hwon & Hscore & Hplayed & Hactions & Hcards) Hgc Hl.
  destruct (Hcards game_id gc Hgc) as [Hgid Hsum].
  destruct (get_last_nonempty (gc_actions gc) Hl) as [n Hn].
  unfold scorecard_books_ok, book_scorecard. simpl_fields.
  split_and!.
  - done.
  - destruct win; lia.
  - destruct win; [|done].
    destruct (Z.gtb_spec (sc_won sc + 1) 0); [done|lia].
  - rewrite (cards_total_insert_Some _ _ _ gc) by done. simpl. lia.
  - rewrite (cards_total_insert_Some _ _ _ gc) by done. simpl. lia.
  - intros g gc'. destruct (decide (g = game_id)) as [->|Hne].
    + rewrite lookup_insert_eq. intros [= <-]. unfold book_action. simpl_fields.
      split; [done|]. rewrite Hn. simpl.
      rewrite (sum_Z_set_last _ n) by done. lia.
    + rewrite lookup_insert_ne by done. apply Hcards.
Qed.

Lemma books_ok_commit_action guid s' card sc gc win play_score play_state game_id db :
  books_ok db →
  scorecards_db db !! card = Some sc →
  sc_cards sc !! game_id = Some gc →
  (0 < length (gc_actions gc))%nat →
  books_ok (commit guid s' card (book_scorecard win sc) game_id
              (book_action play_score play_state gc) db).
Proof.
  intros Hok Hsc Hgc Hl c sc0. unfold commit. simpl_fields.
  destruct (decide (c = card)) as [->|Hne].
  - rewrite lookup_insert_eq. intros [= <-].
    apply book_action_books; [by apply Hok|done..].
  - rewrite lookup_insert_ne by done. apply Hok.
Qed.

Lemma execute_action_books gl game_id guid action_id action_data db :
  sessions_ok db → books_ok db →
  books_ok (execute_action gl game_id guid action_id action_data db).1.
Proof.
  intros Hs Hb.
  destruct (execute_action_cases gl game_id guid action_id action_data db Hs)
    as [->|(s & sc & gc & g & _ & _ & _ & _ & Hsc & Hgc & _ & _ & Hl
            & [(block & _ & ->)|(score & _ & ->)])]; [done|..];
    by apply books_ok_commit_action.
Qed.

Lemma reset_game_books gl game_id card_id command_guid fresh_guid db :
  books_ok db →
  books_ok (reset_game gl game_id card_id command_guid fresh_guid db).1.
Proof.
  intros Hok.
  destruct (reset_game_cases gl game_id card_id command_guid fresh_guid db)
    as [[detail ->]|(guid & sc & r & Hsc & _ & ->)]; [done|].
  intros c sc0. unfold commit. simpl_fields.
  destruct (decide (c = card_id)) as [->|Hne];
    [|rewrite lookup_insert_ne by done; apply Hok].
  rewrite lookup_insert_eq. intros [= <-].
  destruct (Hok card_id sc Hsc) as (Hid & Hwon & Hscore & Hplayed & Hactions & Hcards).
  unfold scorecard_books_ok. simpl_fields. split_and!; try done.
  - destruct (sc_cards sc !! game_id) as [gc|] eqn:Hgc; simpl.
    + rewrite (cards_total_insert_Some _ _ _ gc) by done. simpl. lia.
    + rewrite cards_total_insert_None by done. simpl. lia.
  - destruct (sc_cards sc !! game_id) as [gc|] eqn:Hgc; simpl.
    + rewrite (cards_total_insert_Some _ _ _ gc) by done. simpl. lia.
    + rewrite cards_total_insert_None by done. simpl. lia.
  - intros g gc'. destruct (decide (g = game_id)) as [->|Hne].
    + rewrite lookup_insert_eq. intros [= <-]. simpl.
      destruct (sc_cards sc !! game_id) as [gc|] eqn:Hgc; simpl.
      * destruct (Hcards game_id gc Hgc) as [Hgid Hsum].
        rewrite sum_Z_app. change (sum_Z [0]) with 0. split; [done|lia].
      * done.
    + rewrite lookup_insert_ne by done. apply Hcards.
Qed.

Lemma reachable_books gl db : reachable gl db → books_ok db.
Proof.
  induction 1 as [|c db Hr IH Hfresh].
  - intros card sc H. simpl in H. by rewrite lookup_empty in H.
  - destruct c as [card_id api_key source_url tags| |]; cbn [run].
    + intros c sc. cbn [open_scorecard fst scorecards_db].
      destruct (decide (c = card_id)) as [->|Hne].
      * rewrite lookup_insert_eq. intros [= <-].
        unfold scorecard_books_ok. simpl_fields.
        rewrite !cards_total_empty. split_and!; try done.
      * rewrite lookup_insert_ne by done. apply IH.
    + by apply reset_game_books.
    + apply execute_action_books; [|done].
      by destruct (reachable_ok gl db Hr).
Qed.

(** ** Bounds of the session score *)

Lemma new_score_bounds gl game_id s g score :
  s_current_frame s = [g] → is_64x64 g →
  0 <= s_score s →
  new_score s (get_frame_data gl game_id (s_level s) final) = Some score →
  0 <= score ∧
  (is_Some (get_frame_data gl game_id (s_level s) final) → score <= 100).
Proof.
  intros Hf Hg Hs. rewrite (new_score_64 s g _ Hf Hg).
  destruct (get_frame_data gl game_id (s_level s) final) as [fd|] eqn:Hfd.
  - destruct (get_frame_data_ok gl _ _ _ _ Hfd) as (f & -> & _).
    intros [= <-]. pose proof (matched_range g f).
    split; [apply Z.div_pos; lia|]. intros _. apply Z.div_le_upper_bound; lia.
  - intros [= <-]. split; [lia|]. by intros [? ?].
Qed.

Lemma execute_action_scores gl game_id guid action_id action_data db :
  sessions_ok db → session_scores_ok gl db →
  session_scores_ok gl (execute_action gl game_id guid action_id action_data db).1.
Proof.
  intros Hs Hok.
  destruct (execute_action_cases gl game_id guid action_id action_data db Hs)
    as [->|(s & sc & gc & g & Hses & Hgame & Hf & H64 & _ & _ & _ & _ & _ & Hcase)];
    [done|].
  destruct (Hok guid s Hses) as (H0 & Ha & H100).
  intros g' s'.
  destruct Hcase as [(block & _ & ->)|(score & Hscore & ->)];
    unfold commit; simpl_fields.
  - destruct (decide (g' = guid)) as [->|Hne];
      [|rewrite lookup_insert_ne by done; apply Hok].
    rewrite lookup_insert_eq. intros [= <-]. unfold toggled_session. simpl_fields.
    destruct (win_condition_met _); split_and!; try lia; auto.
  - destruct (decide (g' = guid)) as [->|Hne];
      [|rewrite lookup_insert_ne by done; apply Hok].
    rewrite lookup_insert_eq. intros [= <-]. unfold generic_session. simpl_fields.
    destruct (new_score_bounds gl game_id s g score Hf H64 H0 Hscore) as [Hlo Hhi].
    rewrite Hgame.
    destruct (generic_win gl game_id s); split_and!; try lia; auto.
Qed.

Lemma reset_game_scores gl game_id card_id command_guid fresh_guid db :
  session_scores_ok gl db →
  session_scores_ok gl (reset_game gl game_id card_id command_guid fresh_guid db).1.
Proof.
  intros Hok.
  destruct (reset_game_cases gl game_id card_id command_guid fresh_guid db)
    as [[detail ->]|(guid & sc & r & Hsc & _ & ->)]; [done|].
  intros g s. unfold commit. simpl_fields.
  destruct (decide (g = guid)) as [->|Hne];
    [|rewrite lookup_insert_ne by done; apply Hok].
  rewrite lookup_insert_eq. intros [= <-]. simpl_fields.
  unfold get_game_state. destruct (load_level gl game_id "level_1"); simpl; lia.
Qed.

Lemma reachable_scores gl db : reachable gl db → session_scores_ok gl db.
Proof.
  induction 1 as [|c db Hr IH Hfresh].
  - intros g s H. simpl in H. by rewrite lookup_empty in H.
  - destruct c; cbn [run].
    + exact IH.
    + by apply reset_game_scores.
    + apply execute_action_scores; [|done].
      by destruct (reachable_ok gl db Hr).
Qed.

(** ** Palette colours *)

Lemma toggle_colour_range c : 0 <= toggle_colour c <= 15.
Proof. unfold toggle_colour. repeat case_match; lia. Qed.

Lemma toggle_cell_colours block_y block_x (acc : Grid * bool * list Z * list Z) :
  colours_ok acc.1.1.1 → colours_ok (toggle_cell block_y block_x acc).1.1.1.
Proof.
  destruct acc as [[[grid toggled] olds] news]. simpl. intros Hall.
  destruct (grid !! Z.to_nat block_y) as [row|] eqn:Hrow; [|done].
  destruct (row !! Z.to_nat block_x); [|done]. simpl.
  apply Forall_insert; [done|].
  apply Forall_insert; [|apply toggle_colour_range].
  unfold colours_ok in Hall. rewrite Forall_forall in Hall. apply Hall.
  by eapply list_elem_of_lookup_2.
Qed.

Lemma toggle_rows_colours (ys xs : list Z) (acc : Grid * bool * list Z * list Z) :
  colours_ok acc.1.1.1 →
  colours_ok
    (fold_left
       (fun acc block_y =>
          fold_left (fun acc block_x => toggle_cell block_y block_x acc) xs acc)
       ys acc).1.1.1.
Proof.
  assert (Hrow : ∀ (zs : list Z) block_y (acc : Grid * bool * list Z * list Z),
            colours_ok acc.1.1.1 →
            colours_ok (fold_left (fun acc block_x => toggle_cell block_y block_x acc)
                          zs acc).1.1.1).
  { induction zs as [|z zs IH]; intros block_y acc' H; simpl; [done|].
    by apply IH, toggle_cell_colours. }
  revert acc. induction ys as [|y ys IH]; intros acc H; simpl; [done|].
  by apply IH, Hrow.
Qed.

Lemma toggle_block_colours block grid :
  colours_ok grid → colours_ok (toggle_block block grid).1.1.1.
Proof. intros H. unfold toggle_block. by apply toggle_rows_colours. Qed.

Lemma pad_grid_colours grid : colours_ok grid → colours_ok (pad_grid grid).
Proof.
  intros Hall. unfold colours_ok, pad_grid.
  apply Forall_forall. intros row Hrow.
  apply list_elem_of_fmap in Hrow as (y & -> & _).
  apply Forall_forall. intros c Hc.
  apply list_elem_of_fmap in Hc as (x & -> & _).
  unfold pad_cell, cell.
  destruct (grid !! y) as [r|] eqn:Hr; [|lia].
  destruct (r !! x) as [v|] eqn:Hv; [|lia].
  unfold colours_ok in Hall. rewrite Forall_forall in Hall.
  specialize (Hall r (list_elem_of_lookup_2 _ _ _ Hr)).
  rewrite Forall_forall in Hall. apply Hall. by eapply list_elem_of_lookup_2.
Qed.

Lemma mock_grid_colours : colours_ok mock_grid.
Proof.
  unfold colours_ok, mock_grid.
  apply Forall_forall. intros row Hrow.
  apply list_elem_of_fmap in Hrow as (y & -> & _).
  apply Forall_forall. intros c Hc.
  apply list_elem_of_fmap in Hc as (x & -> & _).
  pose proof (Z.mod_pos_bound (Z.of_nat x + Z.of_nat y) 16). lia.
Qed.

Lemma create_frame_colours gl game_id level frame_type :
  loader_colours_ok gl →
  Forall colours_ok (create_frame_from_game_data gl game_id level frame_type).
Proof.
  intros Hl. unfold create_frame_from_game_data, get_frame_data.
  destruct (load_level gl game_id level) as [ld|] eqn:Hld;
    [|constructor; [apply mock_grid_colours|constructor]].
  destruct frame_type.
  - destruct (ld_initial_grid ld) as [[|row g]|] eqn:Hg;
      try (constructor; [apply mock_grid_colours|constructor]).
    constructor; [|constructor]. apply pad_grid_colours. eapply Hl; [done|by left].
  - destruct (ld_final_grid ld) as [[|row g]|] eqn:Hg;
      try (constructor; [apply mock_grid_colours|constructor]).
    constructor; [|constructor]. apply pad_grid_colours. eapply Hl; [done|by right].
Qed.

Lemma execute_action_colours gl game_id guid action_id action_data db :
  loader_colours_ok gl →
  sessions_ok db → session_colours_ok db →
  session_colours_ok (execute_action gl game_id guid action_id action_data db).1.
Proof.
  intros Hl Hs Hok.
  destruct (execute_action_cases gl game_id guid action_id action_data db Hs)
    as [->|(s & sc & gc & g & Hses & Hgame & Hf & H64 & _ & _ & _ & _ & _ & Hcase)];
    [done|].
  pose proof (Hok guid s Hses) as Hcol. rewrite Hf in Hcol.
  intros g' s'.
  destruct Hcase as [(block & _ & ->)|(score & Hscore & ->)];
    unfold commit; simpl_fields.
  - destruct (decide (g' = guid)) as [->|Hne];
      [|rewrite lookup_insert_ne by done; apply Hok].
    rewrite lookup_insert_eq. intros [= <-]. unfold toggled_session. simpl_fields.
    constructor; [|constructor]. apply toggle_block_colours.
    by apply Forall_cons in Hcol as [? _].
  - destruct (decide (g' = guid)) as [->|Hne];
      [|rewrite lookup_insert_ne by done; apply Hok].
    rewrite lookup_insert_eq. intros [= <-]. unfold generic_session. simpl_fields.
    by apply create_frame_colours.
Qed.

Lemma reachable_colours gl db :
  loader_colours_ok gl → reachable gl db → session_colours_ok db.
Proof.
  intros Hl. induction 1 as [|c db Hr IH Hfresh].
  - intros g s H. simpl in H. by rewrite lookup_empty in H.
  - destruct c as [| game_id card_id command_guid fresh_guid |]; cbn [run].
    + exact IH.
    + destruct (reset_game_cases gl game_id card_id command_guid fresh_guid db)
        as [[detail ->]|(guid & sc & r & Hsc & _ & ->)]; [done|].
      intros g s. unfold commit. simpl_fields.
      destruct (decide (g = guid)) as [->|Hne];
        [|rewrite lookup_insert_ne by done; apply IH].
      rewrite lookup_insert_eq. intros [= <-]. simpl_fields.
      by apply create_frame_colours.
    + apply execute_action_colours; [done| |done].
      by destruct (reachable_ok gl db Hr).
Qed.

(** ** Opening and reading a scorecard *)

(** X1.  A scorecard that has just been opened reads back, through close
    and through get, as a summary with all counters zero, the url and
    tags it was opened with and no game card; a filtered get on it fails
    with 404 for every game; and every other card reads as before. *)
Theorem fresh_scorecard_summary db card_id api_key source_url tags :
  close_scorecard card_id (open_scorecard card_id api_key source_url tags db).1
  = Returned (mkScorecardSummary api_key card_id 0 0 0 0 source_url tags ∅) ∧
  get_scorecard card_id (open_scorecard card_id api_key source_url tags db).1
  = Returned (mkScorecardSummary api_key card_id 0 0 0 0 source_url tags ∅) ∧
  (∀ game_id,
     get_scorecard_for_game card_id game_id
       (open_scorecard card_id api_key source_url tags db).1
     = HTTPException 404 "Game not found in scorecard") ∧
  (∀ other,
     other ≠ card_id →
     get_scorecard other (open_scorecard card_id api_key source_url tags db).1
     = get_scorecard other db).
Proof.
  unfold close_scorecard, get_scorecard, get_scorecard_for_game, open_scorecard.
  simpl_fields. rewrite lookup_insert_eq. split_and!; try done.
  intros other Hne. by rewrite lookup_insert_ne.
Qed.

(** ** Level grids are padded and cropped to 64x64 *)

Lemma pad_grid_row (grid : Grid) (y : nat) :
  pad_grid grid !! y =
  if decide (y < 64)%nat then Some (map (fun x => pad_cell grid y x) (seq 0 64))
  else None.
Proof.
  unfold pad_grid. rewrite list_lookup_fmap.
  case_decide as Hy.
  - by rewrite lookup_seq_lt.
  - by rewrite lookup_seq_ge by lia.
Qed.

Lemma pad_grid_cell (grid : Grid) (y x : nat) :
  cell (pad_grid grid) y x =
  if decide (y < 64 ∧ x < 64)%nat then Some (pad_cell grid y x) else None.
Proof.
  unfold cell. rewrite pad_grid_row.
  destruct (decide (y < 64)%nat) as [Hy|Hy].
  - rewrite list_lookup_fmap.
    destruct (decide (x < 64)%nat) as [Hx|Hx].
    + rewrite lookup_seq_lt by done. simpl. by rewrite decide_True.
    + rewrite lookup_seq_ge by lia. simpl. rewrite decide_False; [done|lia].
  - rewrite decide_False; [done|lia].
Qed.

Lemma pad_grid_id (grid : Grid) : is_64x64 grid → pad_grid grid = grid.
Proof.
  intros [Hlen Hrows]. apply list_eq. intros y. rewrite pad_grid_row.
  destruct (decide (y < 64)%nat) as [Hy|Hy].
  - destruct (lookup_lt_is_Some_2 grid y) as [row Hrow]; [lia|].
    rewrite Hrow. f_equal. apply list_eq. intros x.
    rewrite list_lookup_fmap.
    assert (Hl : length row = 64%nat).
    { rewrite Forall_forall in Hrows. apply Hrows. by eapply list_elem_of_lookup_2. }
    destruct (decide (x < 64)%nat) as [Hx|Hx].
    + rewrite lookup_seq_lt by done. simpl. unfold pad_cell, cell. rewrite Hrow.
      destruct (lookup_lt_is_Some_2 row x) as [c Hc]; [lia|]. by rewrite Hc.
    + rewrite lookup_seq_ge by lia. simpl. symmetry. apply lookup_ge_None. lia.
  - symmetry. apply lookup_ge_None. lia.
Qed.

(** X2.  When the level file holds a non-empty grid, [get_frame_data]
    serves one 64x64 grid whose cell (y, x) is the file's cell when the
    file has one and colour 0 otherwise; cells of the file beyond row or
    column 63 are dropped; a file grid that is already 64x64 is served
    unchanged.  When the level, the grid or its rows are missing, it
    serves nothing. *)
Theorem get_frame_data_pads_and_crops gl game_id level frame_type :
  match load_level gl game_id level with
  | None => get_frame_data gl game_id level frame_type = None
  | Some ld =>
      match (match frame_type with
             | initial => ld_initial_grid ld
             | final => ld_final_grid ld
             end) with
      | None | Some [] => get_frame_data gl game_id level frame_type = None
      | Some raw =>
          ∃ g,
            get_frame_data gl game_id level frame_type = Some [g] ∧
            is_64x64 g ∧
            (∀ y x : nat,
               cell g y x =
               if decide (y < 64 ∧ x < 64)%nat
               then Some (default 0 (cell raw y x))
               else None) ∧
            (is_64x64 raw → g = raw)
      end
  end.
Proof.
  unfold get_frame_data.
  destruct (load_level gl game_id level) as [ld|]; [|done].
  destruct (match frame_type with
            | initial => ld_initial_grid ld
            | final => ld_final_grid ld
            end) as [[|row raw]|]; try done.
  exists (pad_grid (row :: raw)). split_and!.
  - done.
  - apply pad_grid_64.
  - intros y x. rewrite pad_grid_cell. case_decide; [|done].
    unfold pad_cell. by destruct (cell (row :: raw) y x).
  - apply pad_grid_id.
Qed.

(** ** A reset that goes through *)

Lemma existsb_eqb_true (x : string) (l : list string) :
  x ∈ l → existsb (String.eqb x) l = true.
Proof.
  intros Hx. apply existsb_exists. exists x. split.
  - by apply list_elem_of_In.
  - apply String.eqb_refl.
Qed.

Lemma validate_Returned (a b : FrameResponse) :
  FrameResponse_validate a = Returned b → a = b.
Proof. unfold FrameResponse_validate. by case_match; intros [= ->]. Qed.

Lemma reset_game_success gl db game_id card_id command_guid fresh_guid :
  game_id ∈ get_available_games gl →
  is_Some (scorecards_db db !! card_id) →
  (∀ g, command_guid = Some g → is_Some (sessions_db db !! g)) →
  ∃ db' r,
    reset_game gl game_id card_id command_guid fresh_guid db = (db', Returned r) ∧
    fr_guid r = default fresh_guid command_guid ∧
    fr_game_id r = game_id ∧
    fr_score r = 0 ∧
    fr_state r = match load_level gl game_id "level_1" with
                 | Some _ => NOT_FINISHED
                 | None => NOT_STARTED
                 end ∧
    fr_frame r = create_frame_from_game_data gl game_id "level_1" initial ∧
    sessions_db db' !! fr_guid r
    = Some (mkSession game_id card_id (fr_state r) 0 "level_1" 0 (fr_frame r)) ∧
    ∀ g, g ≠ fr_guid r → sessions_db db' !! g = sessions_db db !! g.
Proof.
  intros Hgame [sc Hsc] Hguid.
  assert (Hstate : get_game_state gl game_id "level_1"
                   = (match load_level gl game_id "level_1" with
                      | Some _ => NOT_FINISHED
                      | None => NOT_STARTED
                      end, 0)).
  { unfold get_game_state. by destruct (load_level gl game_id "level_1"). }
  assert (Hrun : ∃ guid,
            guid = default fresh_guid command_guid ∧
            (reset_game gl game_id card_id command_guid fresh_guid db).2
            = FrameResponse_validate
                (mkFrameResponse game_id guid
                   (create_frame_from_game_data gl game_id "level_1" initial)
                   (get_game_state gl game_id "level_1").1
                   (get_game_state gl game_id "level_1").2 100 no_action_input)).
  { unfold reset_game. rewrite existsb_eqb_true by done. cbn [negb]. rewrite Hsc.
    destruct command_guid as [g|].
    - destruct (Hguid g eq_refl) as [s ->]. by exists g.
    - by exists fresh_guid. }
  destruct Hrun as (guid0 & Hguid0 & Hout).
  destruct (reset_game_cases gl game_id card_id command_guid fresh_guid db)
    as [[detail Hrej]|(guid & sc' & r & Hsc' & [Hg Hr] & Hdone)].
  - exfalso. rewrite Hrej in Hout. simpl in Hout. symmetry in Hout.
    by apply validate_not_http in Hout.
  - exists (reset_game gl game_id card_id command_guid fresh_guid db).1, r.
    rewrite Hdone in Hout |- *. cbn [fst snd] in *.
    symmetry in Hout. apply validate_Returned in Hout. subst r guid0 guid.
    cbn [fr_guid fr_game_id fr_score fr_state fr_frame] in *.
    rewrite Hstate. cbn [fst snd].
    split_and!; try done.
    + unfold commit. simpl_fields. by rewrite lookup_insert_eq.
    + intros g Hne. unfold commit. simpl_fields. by rewrite lookup_insert_ne.
Qed.

(** X3.  A reset of a listed game under an existing scorecard, with no
    guid or with the guid of an existing session, goes through: it
    answers with the guid used (the command's, or the fresh one), stores
    under it a session with score 0, no action taken, level "level_1" and
    the level's initial frame, and returns that frame, score 0 and the
    state.  The state is NOT_FINISHED when level 1 of the game can be
    loaded and NOT_STARTED when it cannot.  Every other session is left
    as it was. *)
Theorem reset_goes_through gl db game_id card_id command_guid fresh_guid :
  game_id ∈ get_available_games gl →
  is_Some (scorecards_db db !! card_id) →
  (∀ g, command_guid = Some g → is_Some (sessions_db db !! g)) →
  ∃ db' r,
    reset_game gl game_id card_id command_guid fresh_guid db = (db', Returned r) ∧
    fr_guid r = default fresh_guid command_guid ∧
    fr_game_id r = game_id ∧
    fr_score r = 0 ∧
    fr_state r = match load_level gl game_id "level_1" with
                 | Some _ => NOT_FINISHED
                 | None => NOT_STARTED
                 end ∧
    fr_frame r = create_frame_from_game_data gl game_id "level_1" initial ∧
    sessions_db db' !! fr_guid r
    = Some (mkSession game_id card_id (fr_state r) 0 "level_1" 0 (fr_frame r)) ∧
    ∀ g, g ≠ fr_guid r → sessions_db db' !! g = sessions_db db !! g.
Proof. exact (reset_game_success gl db game_id card_id command_guid fresh_guid). Qed.

(** ** The two rules on reachable stores *)

Lemma reachable_session_books gl db guid s :
  reachable gl db → sessions_db db !! guid = Some s →
  ∃ g sc gc,
    s_current_frame s = [g] ∧ is_64x64 g ∧ s_level s = "level_1" ∧
    scorecards_db db !! s_card_id s = Some sc ∧
    sc_cards sc !! s_game_id s = Some gc ∧
    (0 < length (gc_scores gc))%nat ∧
    (0 < length (gc_states gc))%nat ∧
    (0 < length (gc_actions gc))%nat.
Proof.
  intros Hr Hs.
  destruct (reachable_session_ok gl db guid s Hr Hs)
    as ((g & Hf & H64) & Hl & sc & gc & ? & ? & ? & ? & ?).
  exists g, sc, gc. by split_and!.
Qed.

(** X4.  In a reachable state, a click (action 6) on a cell of one of the
    eight blocks, against a session of the game named: the block is
    toggled in the session's grid and the session counts one more action;
    the scorecard and the game card of the session count one more action,
    the latter also on its latest play.  If the four win blocks are then
    red, session and response get state WIN and score 1, the latest play
    of the game card gets score 1 and state WIN, and the scorecard counts
    one more win with score 1; if not, state and score stay everywhere.
    No scorecard or list lookup fails, and the response is built from
    the new session. *)
Theorem click_in_block_books gl db game_id guid s g sc gc block x y :
  reachable gl db →
  sessions_db db !! guid = Some s →
  s_game_id s = game_id →
  s_current_frame s = [g] →
  scorecards_db db !! s_card_id s = Some sc →
  sc_cards sc !! game_id = Some gc →
  block ∈ blocks →
  in_block block x y = true →
  execute_action gl game_id guid 6 (click x y) db
  = (commit guid (toggled_session block s g [])
       (s_card_id s)
       (book_scorecard (win_condition_met (toggle_block block g).1.1.1) sc)
       game_id
       (book_action
          (if win_condition_met (toggle_block block g).1.1.1 then Some 1 else None)
          (if win_condition_met (toggle_block block g).1.1.1 then Some WIN else None)
          gc)
       db,
     FrameResponse_validate
       (mkFrameResponse game_id guid
          (s_current_frame (toggled_session block s g []))
          (s_state (toggled_session block s g []))
          (s_score (toggled_session block s g [])) 100
          (toggle_input 6 (mkActionData (Some x) (Some y)) block
             (toggle_block block g).1.2 (toggle_block block g).2
             (win_condition_met (toggle_block block g).1.1.1)))).
Proof.
  intros Hr Hs Hgame Hf Hsc Hgc Hb Hin.
  destruct (reachable_session_books gl db guid s Hr Hs)
    as (g' & sc' & gc' & Hf' & H64 & _ & Hsc' & Hgc' & Hl1 & Hl2 & Hl3).
  subst game_id.
  assert (g' = g) by congruence. subst g'.
  assert (sc' = sc) by congruence. subst sc'.
  assert (gc' = gc) by congruence. subst gc'.
  destruct (blocks_in_grid block Hb) as (Hx1 & Hx2 & Hy1 & Hy2).
  pose proof (proj1 (in_block_spec block x y) Hin) as Hxy.
  assert (Hc : is_Some (cell g (Z.to_nat y) (Z.to_nat x)))
    by (apply cell_64; [done|lia..]).
  unfold execute_action, click. rewrite Hs, String.eqb_refl. cbn [negb].
  rewrite (toggle_rule_hit (s_game_id s) guid x y s g [] db block) by done.
  by rewrite (toggled_update_exact (s_game_id s) guid 6 _ block s _ [] _ _ db sc gc).
Qed.

Lemma generic_action_exact gl db game_id guid action_id action_data s sc gc :
  reachable gl db →
  sessions_db db !! guid = Some s →
  s_game_id s = game_id →
  takes_generic_rule game_id guid action_id action_data s db →
  scorecards_db db !! s_card_id s = Some sc →
  sc_cards sc !! game_id = Some gc →
  ∃ score,
    new_score s (get_frame_data gl game_id (s_level s) final) = Some score ∧
    execute_action gl game_id guid action_id action_data db
    = (commit guid (generic_session gl s score)
         (s_card_id s) (book_scorecard (generic_win gl game_id s) sc) game_id
         (book_action (Some score)
            (Some (if generic_win gl game_id s then WIN else NOT_FINISHED)) gc)
         db,
       FrameResponse_validate
         (mkFrameResponse game_id guid
            (s_current_frame (generic_session gl s score))
            (s_state (generic_session gl s score))
            (s_score (generic_session gl s score)) 100
            (generic_input action_id action_data))).
Proof.
  intros Hr Hs Hgame Hgen Hsc Hgc.
  destruct (reachable_session_books gl db guid s Hr Hs)
    as (g' & sc' & gc' & Hf' & H64 & _ & Hsc' & Hgc' & Hl1 & Hl2 & Hl3).
  subst game_id.
  assert (sc' = sc) by congruence. subst sc'.
  assert (gc' = gc) by congruence. subst gc'.
  assert (∃ score, new_score s (get_frame_data gl (s_game_id s) (s_level s) final)
                   = Some score) as [score Hscore].
  { rewrite (new_score_64 s g' _ Hf' H64). repeat case_match; eauto. }
  exists score. split; [done|].
  rewrite (execute_action_generic gl (s_game_id s) guid action_id action_data s db)
    by done.
  by apply regular_action_exact.
Qed.

(** X5.  In a reachable state, an action served by the generic rule,
    against a session of the game named, never fails on a scorecard or
    list lookup: it stores the session with one more action, the score
    and state the rule computes and the level's final frame (on a win)
    or initial frame; it books one action on the scorecard and on the
    latest play of the game card, whose score becomes the progress score
    computed (also on a win, where the session's score is 1) and whose
    state becomes WIN or NOT_FINISHED; on a win the scorecard counts one
    more win.  The response is built from the new session. *)
Theorem generic_action_books gl db game_id guid action_id action_data s sc gc :
  reachable gl db →
  sessions_db db !! guid = Some s →
  s_game_id s = game_id →
  takes_generic_rule game_id guid action_id action_data s db →
  scorecards_db db !! s_card_id s = Some sc →
  sc_cards sc !! game_id = Some gc →
  ∃ score,
    new_score s (get_frame_data gl game_id (s_level s) final) = Some score ∧
    execute_action gl game_id guid action_id action_data db
    = (commit guid (generic_session gl s score)
         (s_card_id s) (book_scorecard (generic_win gl game_id s) sc) game_id
         (book_action (Some score)
            (Some (if generic_win gl game_id s then WIN else NOT_FINISHED)) gc)
         db,
       FrameResponse_validate
         (mkFrameResponse game_id guid
            (s_current_frame (generic_session gl s score))
            (s_state (generic_session gl s score))
            (s_score (generic_session gl s score)) 100
            (generic_input action_id action_data))).
Proof. exact (generic_action_exact gl db game_id guid action_id action_data s sc gc). Qed.

(** X6.  In a reachable state, when the session's level has no final
    grid, an action served by the generic rule adds 1 to the session's
    score, sets the state to NOT_FINISHED and stores the level's initial
    frame; the response is returned when the new score is at most 254
    and the command dies with a [ValidationError] when it is larger. *)
Theorem fallback_adds_one gl db game_id guid action_id action_data s :
  reachable gl db →
  sessions_db db !! guid = Some s →
  s_game_id s = game_id →
  takes_generic_rule game_id guid action_id action_data s db →
  get_frame_data gl game_id (s_level s) final = None →
  sessions_db (execute_action gl game_id guid action_id action_data db).1 !! guid
  = Some (mkSession game_id (s_card_id s) NOT_FINISHED (s_score s + 1)
            (s_level s) (s_actions_taken s + 1)
            (create_frame_from_game_data gl game_id (s_level s) initial)) ∧
  (s_score s + 1 <= 254 →
   ∃ r, (execute_action gl game_id guid action_id action_data db).2 = Returned r ∧
        fr_score r = s_score s + 1 ∧ fr_state r = NOT_FINISHED) ∧
  (254 < s_score s + 1 →
   (execute_action gl game_id guid action_id action_data db).2
   = Raised "ValidationError").
Proof.
  intros Hr Hs Hgame Hgen Hfinal.
  destruct (reachable_session_books gl db guid s Hr Hs)
    as (g & sc & gc & Hf & H64 & _ & Hsc & Hgc & _).
  rewrite Hgame in Hgc.
  destruct (generic_action_exact gl db game_id guid action_id action_data s sc gc)
    as (score & Hscore & Heq); [done..|].
  rewrite (new_score_64 s g _ Hf H64), Hfinal in Hscore. simplify_eq.
  destruct (reachable_scores gl db Hr guid s Hs) as (H0 & _ & _).
  rewrite Heq. unfold generic_session, generic_win. rewrite Hfinal.
  cbn [fst snd]. unfold commit. simpl_fields. rewrite lookup_insert_eq.
  split; [done|]. split.
  - intros Hle. eexists. split; [apply validate_in_range; simpl; [lia|done]|done].
  - intros Hgt. unfold FrameResponse_validate. simpl.
    destruct (Z.leb_spec 0 (s_score s + 1)); [|lia].
    destruct (Z.leb_spec (s_score s + 1) 254); [lia|]. done.
Qed.

(** ** Consistency of the books *)

(** X7.  In every reachable state each scorecard is stored under its own
    [card_id] and each of its game cards under its own [game_id]. *)
Theorem cards_stored_under_own_id gl db card_id sc :
  reachable gl db →
  scorecards_db db !! card_id = Some sc →
  sc_card_id sc = card_id ∧
  ∀ game_id gc, sc_cards sc !! game_id = Some gc → gc_game_id gc = game_id.
Proof.
  intros Hr Hsc.
  destruct (reachable_books gl db Hr card_id sc Hsc) as (Hid & _ & _ & _ & _ & Hcards).
  split; [done|]. intros game_id gc Hgc. by destruct (Hcards game_id gc Hgc).
Qed.

(** X8.  In every reachable state the [won] counter of a scorecard is
    non-negative and its stored [score] field is 1 when [won] is positive
    and 0 otherwise, so the score a summary reports is the stored one. *)
Theorem stored_score_is_reported gl db card_id sc :
  reachable gl db →
  scorecards_db db !! card_id = Some sc →
  0 <= sc_won sc ∧
  sc_score sc = (if sc_won sc >? 0 then 1 else 0) ∧
  ∃ summary,
    get_scorecard card_id db = Returned summary ∧
    ss_score summary = sc_score sc ∧ ss_won summary = sc_won sc.
Proof.
  intros Hr Hsc.
  destruct (reachable_books gl db Hr card_id sc Hsc) as (_ & Hwon & Hscore & _).
  split; [done|]. split; [done|].
  unfold get_scorecard. rewrite Hsc. eexists. split; [done|].
  unfold summary_of. simpl. by rewrite Hscore.
Qed.

(** X9.  In every reachable state the [played] counter of a scorecard is
    the sum of the [total_plays] of its game cards, its [total_actions]
    is the sum of their [total_actions], and the [total_actions] of each
    game card is the sum of its per-play action counts. *)
Theorem totals_are_sums gl db card_id sc :
  reachable gl db →
  scorecards_db db !! card_id = Some sc →
  sc_played sc = cards_total gc_total_plays (sc_cards sc) ∧
  sc_total_actions sc = cards_total gc_total_actions (sc_cards sc) ∧
  ∀ game_id gc,
    sc_cards sc !! game_id = Some gc →
    gc_total_actions gc = sum_Z (gc_actions gc).
Proof.
  intros Hr Hsc.
  destruct (reachable_books gl db Hr card_id sc Hsc) as (_ & _ & _ & Hp & Ha & Hcards).
  split; [done|]. split; [done|].
  intros game_id gc Hgc. by destruct (Hcards game_id gc Hgc).
Qed.

(** X10.  In every reachable state the score and the action count of a
    session are non-negative, and the score is at most 100 when the
    session's level has a final grid. *)
Theorem session_score_bounds gl db guid s :
  reachable gl db →
  sessions_db db !! guid = Some s →
  0 <= s_score s ∧ 0 <= s_actions_taken s ∧
  (is_Some (get_frame_data gl (s_game_id s) (s_level s) final) → s_score s <= 100).
Proof. intros Hr Hs. by apply (reachable_scores gl db Hr guid s). Qed.

(** X11.  When every grid of the level files holds colours 0..15 only,
    so does every cell of every grid stored in a session, in every
    reachable state. *)
Theorem session_grids_hold_palette_colours gl db guid s :
  loader_colours_ok gl →
  reachable gl db →
  sessions_db db !! guid = Some s →
  ∀ g (y x : nat) (c : Z),
    g ∈ s_current_frame s → cell g y x = Some c → 0 <= c <= 15.
Proof.
  intros Hl Hr Hs g y x c Hg Hc.
  pose proof (reachable_colours gl db Hl Hr guid s Hs) as Hall.
  rewrite Forall_forall in Hall. specialize (Hall g Hg).
  unfold cell in Hc. destruct (g !! y) as [row|] eqn:Hrow; [|done].
  unfold colours_ok in Hall. rewrite Forall_forall in Hall.
  specialize (Hall row (list_elem_of_lookup_2 _ _ _ Hrow)).
  rewrite Forall_forall in Hall. apply Hall. by eapply list_elem_of_lookup_2.
Qed.

(** ** What an action never does *)

Lemma dom_insert_present {A : Type} (m : gmap string A) (k : string) (v : A) :
  is_Some (m !! k) → dom (<[k := v]> m) = dom m.
Proof.
  intros Hk. rewrite dom_insert_L.
  apply subseteq_union_1_L, singleton_subseteq_l. by apply elem_of_dom.
Qed.

(** X12.  An action command, whatever it answers, neither adds nor
    removes a session, a scorecard, or a game card of any scorecard. *)
Theorem action_keeps_domains gl game_id guid action_id action_data db :
  dom (sessions_db (execute_action gl game_id guid action_id action_data db).1)
  = dom (sessions_db db) ∧
  dom (scorecards_db (execute_action gl game_id guid action_id action_data db).1)
  = dom (scorecards_db db) ∧
  ∀ card_id sc,
    scorecards_db db !! card_id = Some sc →
    ∃ sc',
      scorecards_db (execute_action gl game_id guid action_id action_data db).1
        !! card_id = Some sc' ∧
      dom (sc_cards sc') = dom (sc_cards sc).
Proof.
  pose proof (execute_action_effect gl game_id guid action_id action_data db) as Heff.
  destruct Heff as [|s s' Hs Hstep|s s' sc0 sc' gc gc' Hs Hstep Hsc Hgc Hscs Hcs].
  - split_and!; [done..|]. intros card_id sc Hc. by exists sc.
  - unfold put_session. simpl_fields. split_and!.
    + apply dom_insert_present. by rewrite Hs.
    + done.
    + intros card_id sc Hc. by exists sc.
  - unfold commit. simpl_fields. split_and!.
    + apply dom_insert_present. by rewrite Hs.
    + apply dom_insert_present. by rewrite Hsc.
    + intros card_id sc Hc. destruct (decide (card_id = s_card_id s)) as [->|Hne].
      * rewrite lookup_insert_eq. eexists. split; [done|]. simpl_fields.
        destruct Hscs as (_ & _ & _ & ->). simplify_eq.
        apply dom_insert_present. by rewrite Hgc.
      * rewrite lookup_insert_ne by done. by exists sc.
Qed.

(** ** A win of the generic rule repeats *)

Lemma matches_final_self (f : Grid) (rest : Frame) :
  is_64x64 f → matches_final (f :: rest) f = true.
Proof.
  intros Hf. unfold matches_final.
  rewrite (forallb_nested (fun y x => cell_matches f f y x)).
  apply forallb_forall. intros p Hp.
  destruct (all_cells_in_grid f p Hf Hp) as [v Hv].
  unfold cell_matches, pad_cell. rewrite Hv. apply Z.eqb_refl.
Qed.

Lemma generic_win_step gl db game_id guid action_id action_data s sc :
  reachable gl db →
  sessions_db db !! guid = Some s →
  s_game_id s = game_id →
  takes_generic_rule game_id guid action_id action_data s db →
  scorecards_db db !! s_card_id s = Some sc →
  generic_win gl game_id s = true →
  ∃ s' sc',
    sessions_db (execute_action gl game_id guid action_id action_data db).1 !! guid
    = Some s' ∧
    s_state s' = WIN ∧ s_score s' = 1 ∧
    s_game_id s' = game_id ∧ s_card_id s' = s_card_id s ∧
    generic_win gl game_id s' = true ∧
    scorecards_db (execute_action gl game_id guid action_id action_data db).1
      !! s_card_id s = Some sc' ∧
    sc_won sc' = sc_won sc + 1.
Proof.
  intros Hr Hs Hgame Hgen Hsc Hwin.
  destruct (reachable_session_books gl db guid s Hr Hs)
    as (g & sc0 & gc & Hf & H64 & _ & Hsc0 & Hgc & _).
  assert (sc0 = sc) by congruence. subst sc0. rewrite Hgame in Hgc.
  destruct (generic_action_exact gl db game_id guid action_id action_data s sc gc)
    as (score & Hscore & Heq); [done..|].
  rewrite Heq. cbn [fst]. unfold commit. simpl_fields. rewrite !lookup_insert_eq.
  eexists _, _. split; [done|]. unfold generic_session. rewrite Hgame, Hwin.
  simpl_fields. split_and!; try done.
  unfold generic_win in *. simpl_fields.
  destruct (get_frame_data gl game_id (s_level s) final) as [[|f fs]|] eqn:Hfd;
    try done.
  destruct (get_frame_data_ok gl _ _ _ _ Hfd) as (f' & Heq' & Hf64). simplify_eq.
  unfold create_frame_from_game_data. rewrite Hfd.
  by apply matches_final_self.
Qed.

(** X13.  In a reachable state, when the grid of a session matches the
    final grid of its level, an action served by the generic rule is a
    win: state WIN, score 1, one more win on the scorecard; and the
    session is left with a grid that matches the final grid again, so
    every further generic action is a win and counts as one more. *)
Theorem generic_win_repeats gl db game_id guid action_id action_data s sc :
  reachable gl db →
  sessions_db db !! guid = Some s →
  s_game_id s = game_id →
  takes_generic_rule game_id guid action_id action_data s db →
  scorecards_db db !! s_card_id s = Some sc →
  generic_win gl game_id s = true →
  ∃ s' sc',
    sessions_db (execute_action gl game_id guid action_id action_data db).1 !! guid
    = Some s' ∧
    s_state s' = WIN ∧ s_score s' = 1 ∧
    s_game_id s' = game_id ∧ s_card_id s' = s_card_id s ∧
    generic_win gl game_id s' = true ∧
    scorecards_db (execute_action gl game_id guid action_id action_data db).1
      !! s_card_id s = Some sc' ∧
    sc_won sc' = sc_won sc + 1.
Proof. exact (generic_win_step gl db game_id guid action_id action_data s sc). Qed.

(** ** The win test and the order of clicks *)

Lemma forallb_range (P : Z → bool) (a b : Z) :
  forallb P (range a b) = true ↔ ∀ z, a <= z < b → P z = true.
Proof.
  rewrite forallb_forall. unfold range. split.
  - intros H z Hz. apply H, list_elem_of_In, elem_of_seqZ. lia.
  - intros H z Hz. apply list_elem_of_In, elem_of_seqZ in Hz. apply H. lia.
Qed.

(** X14.  The four win blocks are four of the eight active blocks, and on
    a 64x64 grid the win test holds exactly when every cell of those four
    blocks is colour 8; the other four blocks and the cells outside the
    blocks do not matter. *)
Theorem win_test_reads_four_blocks (g : Grid) :
  is_64x64 g →
  (∀ b, b ∈ win_blocks → b ∈ blocks) ∧
  (win_condition_met g = true ↔
   ∀ b x y, b ∈ win_blocks → in_block b x y = true →
            cell g (Z.to_nat y) (Z.to_nat x) = Some 8).
Proof.
  intros Hg. split.
  - intros b Hb. rewrite blocks_eq. unfold win_blocks in Hb.
    repeat (apply elem_of_cons in Hb as [->|Hb]);
      [..|by apply not_elem_of_nil in Hb];
      repeat (first [apply list_elem_of_here | apply list_elem_of_further]).
  - unfold win_condition_met. rewrite forallb_forall. split.
    + intros H b x y Hb Hin.
      specialize (H b (proj1 (list_elem_of_In _ _) Hb)).
      rewrite forallb_range in H.
      apply in_block_spec in Hin.
      specialize (H y ltac:(lia)). rewrite forallb_range in H.
      specialize (H x ltac:(lia)). unfold cell_is_red in H.
      assert (Hc : is_Some (cell g (Z.to_nat y) (Z.to_nat x))).
      { apply cell_64; [done|..]; unfold win_blocks in Hb;
          repeat (apply elem_of_cons in Hb as [->|Hb]);
          try (by apply not_elem_of_nil in Hb); simpl in *; lia. }
      destruct Hc as [c Hc]. rewrite Hc in H |- *.
      apply Z.eqb_eq in H. by subst.
    + intros H b Hb. apply list_elem_of_In in Hb.
      apply forallb_range. intros y Hy. apply forallb_range. intros x Hx.
      unfold cell_is_red. rewrite (H b x y Hb); [done|].
      apply in_block_spec. lia.
Qed.

(** X15.  Toggling two active blocks one after the other gives the same
    grid cells in either order. *)
Theorem toggles_commute (b1 b2 : Block) (g : Grid) (y x : nat) :
  b1 ∈ blocks → b2 ∈ blocks →
  cell (toggle_block b1 (toggle_block b2 g).1.1.1).1.1.1 y x
  = cell (toggle_block b2 (toggle_block b1 g).1.1.1).1.1.1 y x.
Proof.
  intros H1 H2. rewrite !toggle_block_cell by done.
  by repeat case_match.
Qed.

(** ** The simple actions are one and the same *)

Lemma validate_echo (r r' : FrameResponse) :
  fr_game_id r = fr_game_id r' → fr_guid r = fr_guid r' →
  fr_frame r = fr_frame r' → fr_state r = fr_state r' →
  fr_score r = fr_score r' → fr_win_score r = fr_win_score r' →
  same_but_echo (FrameResponse_validate r) (FrameResponse_validate r').
Proof.
  intros ? ? ? ? Hs Hw. unfold FrameResponse_validate. rewrite Hs, Hw.
  case_match; simpl; by split_and?.
Qed.

Lemma regular_action_echo gl game_id guid action_id action_data
    action_id' action_data' s db :
  (regular_action gl game_id guid action_id action_data s db).1
  = (regular_action gl game_id guid action_id' action_data' s db).1 ∧
  same_but_echo
    (regular_action gl game_id guid action_id action_data s db).2
    (regular_action gl game_id guid action_id' action_data' s db).2.
Proof.
  unfold regular_action.
  destruct (new_score _ _); [|by split].
  simpl_fields.
  destruct (scorecards_db db !! s_card_id s) as [sc|]; [|by split].
  destruct (sc_cards sc !! game_id) as [gc|]; [|by split].
  destruct (get_last (gc_actions gc)); [|by split].
  destruct (gc_scores gc); [by split|].
  destruct (gc_states gc); [by split|].
  split; [done|]. by apply validate_echo.
Qed.

(** X16.  Actions with an id other than 6 are indistinguishable: two such
    commands against the same session leave the same stores and give the
    same answer up to the echoed [action_input], whatever their ids and
    their data. *)
Theorem simple_actions_agree gl game_id guid action_id action_data
    action_id' action_data' db :
  action_id ≠ 6 → action_id' ≠ 6 →
  (execute_action gl game_id guid action_id action_data db).1
  = (execute_action gl game_id guid action_id' action_data' db).1 ∧
  same_but_echo
    (execute_action gl game_id guid action_id action_data db).2
    (execute_action gl game_id guid action_id' action_data' db).2.
Proof.
  intros Hne Hne'. unfold execute_action.
  destruct (sessions_db db !! guid) as [s|]; [|by split].
  destruct (negb _); [by split|].
  pose proof (other_actions_take_generic_rule game_id guid action_id action_data s db Hne)
    as H1.
  pose proof (other_actions_take_generic_rule game_id guid action_id' action_data' s db Hne')
    as H2.
  unfold takes_generic_rule in H1, H2.
  destruct action_data as [d|], action_data' as [d'|];
    rewrite ?H1, ?H2; apply regular_action_echo.
Qed.

(** ** Counters only grow *)

(** X17.  From a reachable state, no command removes a scorecard or
    changes its key, url or tags, and none lowers its [won], [played] or
    [total_actions] counter. *)
Theorem scorecard_counters_only_grow gl c db card_id sc :
  reachable gl db →
  fresh_ids c db →
  scorecards_db db !! card_id = Some sc →
  ∃ sc',
    scorecards_db (run gl c db) !! card_id = Some sc' ∧
    sc_api_key sc' = sc_api_key sc ∧
    sc_source_url sc' = sc_source_url sc ∧
    sc_tags sc' = sc_tags sc ∧
    sc_won sc <= sc_won sc' ∧
    sc_played sc <= sc_played sc' ∧
    sc_total_actions sc <= sc_total_actions sc'.
Proof.
  intros Hr Hfresh Hsc.
  assert (Hsame : ∃ sc', Some sc = Some sc' ∧
            sc_api_key sc' = sc_api_key sc ∧ sc_source_url sc' = sc_source_url sc ∧
            sc_tags sc' = sc_tags sc ∧ sc_won sc <= sc_won sc' ∧
            sc_played sc <= sc_played sc' ∧
            sc_total_actions sc <= sc_total_actions sc')
    by (exists sc; split_and!; (done || lia)).
  destruct c as [c0 ? ? ?|game_id c0 command_guid fresh_guid|game_id guid action_id ad];
    cbn [run].
  - cbn [open_scorecard fst scorecards_db]. simpl in Hfresh.
    rewrite lookup_insert_ne by congruence. by rewrite Hsc.
  - destruct (reset_game_cases gl game_id c0 command_guid fresh_guid db)
      as [[detail ->]|(g & sc0 & r & Hsc0 & _ & ->)]; cbn [fst];
      [by rewrite Hsc|].
    unfold commit. simpl_fields.
    destruct (decide (card_id = c0)) as [->|Hne];
      [|rewrite lookup_insert_ne by done; by rewrite Hsc].
    rewrite lookup_insert_eq. simplify_eq.
    eexists. split; [done|]. simpl_fields. split_and!; (done || lia).
  - destruct (reachable_ok gl db Hr) as [_ Hok].
    destruct (execute_action_cases gl game_id guid action_id ad db Hok)
      as [->|(s & sc0 & gc & g & _ & _ & _ & _ & Hsc0 & _ & _ & _ & _ & Hcase)];
      [by rewrite Hsc|].
    destruct Hcase as [(block & _ & ->)|(score & _ & ->)];
      unfold commit; simpl_fields.
    all: destruct (decide (card_id = s_card_id s)) as [->|Hne];
      [|rewrite lookup_insert_ne by done; by rewrite Hsc].
    all: rewrite lookup_insert_eq; simplify_eq.
    all: eexists; split; [done|]; unfold book_scorecard; simpl_fields.
    all: split_and!; try done; try case_match; lia.
Qed.

(** ** Reset followed by a first action *)

(** X18.  When the initial grid of level 1 pads to the same 64x64 grid as
    its final grid, the first generic action after a reset wins: from a
    reachable state, a reset with a fresh guid followed by an action with
    an id other than 6 answers with state WIN and score 1, leaves the
    session in state WIN, and the scorecard has one more play and one
    more win than before the reset. *)
Theorem first_action_wins_when_initial_is_final gl db game_id card_id fresh_guid
    action_id action_data ld gi gf sc :
  reachable gl db →
  game_id ∈ get_available_games gl →
  scorecards_db db !! card_id = Some sc →
  sessions_db db !! fresh_guid = None →
  load_level gl game_id "level_1" = Some ld →
  ld_initial_grid ld = Some gi → gi ≠ [] →
  ld_final_grid ld = Some gf → gf ≠ [] →
  pad_grid gi = pad_grid gf →
  action_id ≠ 6 →
  ∃ r sc',
    (execute_action gl game_id fresh_guid action_id action_data
       (reset_game gl game_id card_id None fresh_guid db).1).2 = Returned r ∧
    fr_state r = WIN ∧ fr_score r = 1 ∧
    session_state fresh_guid
      (execute_action gl game_id fresh_guid action_id action_data
         (reset_game gl game_id card_id None fresh_guid db).1).1 = Some WIN ∧
    scorecards_db
      (execute_action gl game_id fresh_guid action_id action_data
         (reset_game gl game_id card_id None fresh_guid db).1).1 !! card_id = Some sc' ∧
    sc_played sc' = sc_played sc + 1 ∧
    sc_won sc' = sc_won sc + 1.
Proof.
  intros Hr Hgame Hsc Hfresh Hld Hgi Hgi0 Hgf Hgf0 Hpad Hne.
  assert (Hr1 : reachable gl (run gl (Reset game_id card_id None fresh_guid) db))
    by (by apply reachable_step).
  cbn [run] in Hr1.
  destruct (reset_game_success gl db game_id card_id None fresh_guid)
    as (db1 & r1 & Hreset & Hguid & _ & _ & Hst & Hfr & Hses & _);
    [done|by rewrite Hsc|done|].
  destruct (reset_game_cases gl game_id card_id None fresh_guid db)
    as [[detail Hrej]|(guid & sc0 & r0 & Hsc0 & [Hg _] & Hdone)];
    [by rewrite Hrej in Hreset|].
  assert (sc0 = sc) by congruence. subst sc0. simpl in Hg. subst guid.
  assert (Hdb1 : (reset_game gl game_id card_id None fresh_guid db).1 = db1)
    by (by rewrite Hreset).
  rewrite Hdb1 in *. simpl in Hguid. rewrite Hguid in Hses.
  rewrite Hst, Hfr, Hld in Hses.
  set (s1 := mkSession game_id card_id NOT_FINISHED 0 "level_1" 0
               (create_frame_from_game_data gl game_id "level_1" initial)) in *.
  assert (Hsc1 : ∃ sc1, scorecards_db db1 !! s_card_id s1 = Some sc1 ∧
                        sc_played sc1 = sc_played sc + 1 ∧ sc_won sc1 = sc_won sc).
  { rewrite Hdone in Hdb1. cbn [fst] in Hdb1. subst db1.
    unfold commit. simpl_fields. rewrite lookup_insert_eq.
    eexists. split; [done|]. by simpl_fields. }
  destruct Hsc1 as (sc1 & Hsc1 & Hplayed & Hwon).
  assert (Hfinal : get_frame_data gl game_id "level_1" final = Some [pad_grid gf]).
  { unfold get_frame_data. rewrite Hld, Hgf. by destruct gf. }
  assert (Hinit : create_frame_from_game_data gl game_id "level_1" initial
                  = [pad_grid gf]).
  { unfold create_frame_from_game_data, get_frame_data. rewrite Hld, Hgi, <- Hpad.
    by destruct gi. }
  assert (Hwin : generic_win gl game_id s1 = true).
  { unfold generic_win. subst s1. simpl_fields. rewrite Hfinal, Hinit.
    apply matches_final_self, pad_grid_64. }
  destruct (generic_win_step gl db1 game_id fresh_guid action_id action_data s1 sc1)
    as (s' & sc' & Hs' & Hstate & Hscore & _ & _ & _ & Hsc' & Hwon');
    [done|done|done|by apply other_actions_take_generic_rule|done|done|].
  destruct (reachable_session_books gl db1 fresh_guid s1 Hr1 Hses)
    as (g & sc1' & gc & _ & _ & _ & Hsc1' & Hgc & _).
  assert (sc1' = sc1) by congruence. subst sc1'.
  destruct (generic_action_exact gl db1 game_id fresh_guid action_id action_data s1 sc1 gc)
    as (score & _ & Heq);
    [done|done|done|by apply other_actions_take_generic_rule|done|done|].
  assert (Hplayed' : sc_played sc' = sc_played sc + 1).
  { revert Hsc'. rewrite Heq. cbn [fst]. unfold commit. simpl_fields.
    rewrite lookup_insert_eq. intros [= <-]. unfold book_scorecard.
    simpl_fields. exact Hplayed. }
  exists (mkFrameResponse game_id fresh_guid
            (s_current_frame (generic_session gl s1 score))
            (s_state (generic_session gl s1 score))
            (s_score (generic_session gl s1 score)) 100
            (generic_input action_id action_data)), sc'.
  assert (Hgs : s_state (generic_session gl s1 score) = WIN ∧
                s_score (generic_session gl s1 score) = 1).
  { unfold generic_session. change (s_game_id s1) with game_id. by rewrite Hwin. }
  destruct Hgs as [Hgs1 Hgs2].
  split_and!.
  - rewrite Heq. cbn [snd].
    apply validate_in_range; cbn [fr_score fr_win_score]; [|done].
    rewrite Hgs2. lia.
  - exact Hgs1.
  - exact Hgs2.
  - unfold session_state. by rewrite Hs', <- Hstate.
  - exact Hsc'.
  - exact Hplayed'.
  - lia.
Qed.

(** ** A click outside the blocks, on reachable stores *)

(** X19.  In a reachable state, a click (action 6) with coordinates in
    0..63 on a cell that lies in none of the eight blocks, against a
    session of the game named, dies with a [KeyError] and leaves the
    stores as they were; it is never served by the generic rule. *)
Theorem click_outside_blocks_raises gl db game_id guid s x y :
  reachable gl db →
  sessions_db db !! guid = Some s →
  s_game_id s = game_id →
  0 <= x <= 63 → 0 <= y <= 63 →
  (∀ b, b ∈ blocks → in_block b x y = false) →
  execute_action gl game_id guid 6 (click x y) db = (db, Raised "KeyError").
Proof.
  intros Hr Hs Hgame Hx Hy Hmiss.
  destruct (reachable_session_books gl db guid s Hr Hs)
    as (g & _ & _ & Hf & H64 & _).
  eapply click_outside_blocks; [done|done|done|lia|lia| |done].
  apply cell_64; [done|lia..].
Qed.

(** ** The statements at concrete inputs *)

Lemma demo_session :
  sessions_db (run_all demo_loader demo_start empty_stores) !! "g1"
  = Some (mkSession "G" "card" NOT_FINISHED 0 "level_1" 0 [pad_grid red_grid]).
Proof. vm_compute. reflexivity. Qed.

Lemma demo_scorecard :
  scorecards_db (run_all demo_loader demo_start empty_stores) !! "card"
  = Some (mkScorecard "card" "test-api-key-12345" None [] 0 1 0 0
            {[ "G" := mkPerGameCard "G" 1 0 [0] [NOT_FINISHED] [0] ]}).
Proof. vm_compute. reflexivity. Qed.

Lemma demo_game_card :
  ({[ "G" := mkPerGameCard "G" 1 0 [0] [NOT_FINISHED] [0] ]}
     : gmap string PerGameCard) !! "G"
  = Some (mkPerGameCard "G" 1 0 [0] [NOT_FINISHED] [0]).
Proof. vm_compute. reflexivity. Qed.

Lemma demo_session_P :
  sessions_db (run_all demo_loader demo_start_P empty_stores) !! "g1"
  = Some (mkSession "P" "card" NOT_FINISHED 0 "level_1" 0 [pad_grid [[1]]]).
Proof. vm_compute. reflexivity. Qed.

Lemma demo_block_1 : mkBlock 4 10 15 21 ∈ blocks.
Proof. rewrite blocks_eq. apply list_elem_of_here. Qed.

Lemma demo_block_2 : mkBlock 20 10 31 21 ∈ blocks.
Proof. rewrite blocks_eq. apply list_elem_of_further, list_elem_of_here. Qed.

Lemma reset_goes_through_witness :
  ∃ db' r,
    reset_game demo_loader "G" "card" (Some "g1") "g2"
      (run_all demo_loader demo_start empty_stores) = (db', Returned r) ∧
    fr_guid r = "g1" ∧ fr_score r = 0 ∧ fr_state r = NOT_FINISHED.
Proof.
  destruct (reset_goes_through demo_loader
              (run_all demo_loader demo_start empty_stores) "G" "card" (Some "g1") "g2")
    as (db' & r & Heq & Hguid & _ & Hscore & Hstate & _).
  - apply list_elem_of_here.
  - rewrite demo_scorecard. by eexists.
  - intros g [= <-]. rewrite demo_session. by eexists.
  - exists db', r. split_and!; done.
Defined.

Lemma click_in_block_books_witness :
  session_state "g1"
    (execute_action demo_loader "G" "g1" 6 (click 4 10)
       (run_all demo_loader demo_start empty_stores)).1 = Some WIN ∧
  (sc_won <$> scorecards_db
     (execute_action demo_loader "G" "g1" 6 (click 4 10)
        (run_all demo_loader demo_start empty_stores)).1 !! "card") = Some 1.
Proof.
  rewrite (click_in_block_books demo_loader _ "G" "g1" _ (pad_grid red_grid) _ _
             (mkBlock 4 10 15 21) 4 10
             reachable_demo_start demo_session eq_refl eq_refl
             demo_scorecard demo_game_card demo_block_1 eq_refl).
  split; vm_compute; reflexivity.
Defined.

Lemma generic_action_books_witness :
  ∃ score,
    new_score (mkSession "G" "card" NOT_FINISHED 0 "level_1" 0 [pad_grid red_grid])
      (get_frame_data demo_loader "G" "level_1" final) = Some score ∧
    session_score "g1"
      (execute_action demo_loader "G" "g1" 1 None
         (run_all demo_loader demo_start empty_stores)).1
    = Some (s_score (generic_session demo_loader
              (mkSession "G" "card" NOT_FINISHED 0 "level_1" 0 [pad_grid red_grid])
              score)).
Proof.
  destruct (generic_action_books demo_loader _ "G" "g1" 1 None _ _ _
              reachable_demo_start demo_session eq_refl I
              demo_scorecard demo_game_card) as (score & Hscore & Heq).
  exists score. split; [exact Hscore|].
  rewrite Heq. unfold session_score, commit. simpl_fields.
  by rewrite lookup_insert_eq.
Defined.

Lemma fallback_adds_one_witness :
  session_score "g1"
    (execute_action demo_loader "G" "g1" 1 None
       (run_all demo_loader demo_start empty_stores)).1 = Some 1 ∧
  ∃ r, (execute_action demo_loader "G" "g1" 1 None
          (run_all demo_loader demo_start empty_stores)).2 = Returned r ∧
       fr_score r = 1 ∧ fr_state r = NOT_FINISHED.
Proof.
  destruct (fallback_adds_one demo_loader _ "G" "g1" 1 None _
              reachable_demo_start demo_session eq_refl I eq_refl)
    as (Hs & Hret & _).
  split.
  - unfold session_score. by rewrite Hs.
  - apply Hret. simpl. lia.
Defined.

Lemma reachable_demo_start_H :
  reachable demo_loader (run_all demo_loader demo_start_H empty_stores).
Proof.
  apply reachable_run_all; [apply reachable_init|].
  vm_compute. by split_and!.
Qed.

Lemma demo_session_H :
  sessions_db (run_all demo_loader demo_start_H empty_stores) !! "g1"
  = Some (mkSession "H" "card" NOT_FINISHED 0 "level_1" 0 [pad_grid [[0]]]).
Proof. vm_compute. reflexivity. Qed.

Lemma demo_scorecard_H :
  scorecards_db (run_all demo_loader demo_start_H empty_stores) !! "card"
  = Some (mkScorecard "card" "test-api-key-12345" None [] 0 1 0 0
            {[ "H" := mkPerGameCard "H" 1 0 [0] [NOT_FINISHED] [0] ]}).
Proof. vm_compute. reflexivity. Qed.

Lemma demo_loader_colours_ok : loader_colours_ok demo_loader.
Proof.
  intros game_id level ld g Hld Hg. unfold demo_loader in Hld.
  cbn [load_level] in Hld.
  destruct (negb (level =? "level_1")%string); [done|].
  assert (Hcases : g = red_grid ∨ g = [[0]] ∨ g = [[1]]).
  { repeat (destruct (String.eqb game_id _);
              [injection Hld as <-; cbn [ld_initial_grid ld_final_grid] in Hg;
               destruct Hg as [Hg|Hg]; try discriminate Hg;
               injection Hg as <-; auto|]).
    done. }
  destruct Hcases as [->|[->| ->]].
  - apply Forall_forall. intros row Hrow.
    apply list_elem_of_In, repeat_spec in Hrow. subst row.
    apply Forall_forall. intros c Hc.
    apply list_elem_of_In, repeat_spec in Hc. lia.
  - repeat constructor; lia.
  - repeat constructor; lia.
Qed.

Lemma cards_stored_under_own_id_witness :
  sc_card_id (mkScorecard "card" "test-api-key-12345" None [] 0 1 0 0
                {[ "G" := mkPerGameCard "G" 1 0 [0] [NOT_FINISHED] [0] ]}) = "card" ∧
  gc_game_id (mkPerGameCard "G" 1 0 [0] [NOT_FINISHED] [0]) = "G".
Proof.
  destruct (cards_stored_under_own_id demo_loader _ "card" _
              reachable_demo_start demo_scorecard) as [Hid Hcards].
  split; [exact Hid|]. exact (Hcards "G" _ demo_game_card).
Defined.

Lemma stored_score_is_reported_witness :
  ∃ summary,
    get_scorecard "card" (run_all demo_loader demo_start empty_stores)
    = Returned summary ∧
    ss_score summary = 0 ∧ ss_won summary = 0.
Proof.
  destruct (stored_score_is_reported demo_loader _ "card" _
              reachable_demo_start demo_scorecard)
    as (_ & _ & summary & Hget & Hscore & Hwon).
  exists summary. split_and!; [exact Hget|exact Hscore|exact Hwon].
Defined.

Lemma totals_are_sums_witness :
  sc_played (mkScorecard "card" "test-api-key-12345" None [] 0 1 0 0
               {[ "G" := mkPerGameCard "G" 1 0 [0] [NOT_FINISHED] [0] ]})
  = cards_total gc_total_plays
      ({[ "G" := mkPerGameCard "G" 1 0 [0] [NOT_FINISHED] [0] ]}
         : gmap string PerGameCard) ∧
  gc_total_actions (mkPerGameCard "G" 1 0 [0] [NOT_FINISHED] [0]) = sum_Z [0].
Proof.
  destruct (totals_are_sums demo_loader _ "card" _
              reachable_demo_start demo_scorecard) as (Hplayed & _ & Hcards).
  split; [exact Hplayed|]. exact (Hcards "G" _ demo_game_card).
Defined.

Lemma session_score_bounds_witness :
  is_Some (get_frame_data demo_loader "P" "level_1" final) ∧
  0 <= s_score (mkSession "P" "card" NOT_FINISHED 0 "level_1" 0 [pad_grid [[1]]])
    <= 100.
Proof.
  assert (Hfinal : is_Some (get_frame_data demo_loader "P" "level_1" final))
    by (by eexists).
  split; [exact Hfinal|].
  destruct (session_score_bounds demo_loader _ "g1" _
              reachable_demo_start_P demo_session_P) as (H0 & _ & H100).
  split; [exact H0|exact (H100 Hfinal)].
Defined.

Lemma session_grids_hold_palette_colours_witness :
  loader_colours_ok demo_loader ∧
  cell (pad_grid red_grid) 0 0 = Some 8 ∧
  0 <= 8 <= 15.
Proof.
  split; [exact demo_loader_colours_ok|]. split; [reflexivity|].
  apply (session_grids_hold_palette_colours demo_loader _ "g1" _
           demo_loader_colours_ok reachable_demo_start demo_session
           (pad_grid red_grid) 0%nat 0%nat 8).
  - apply list_elem_of_here.
  - reflexivity.
Defined.

Lemma generic_win_repeats_witness :
  ∃ s',
    sessions_db (execute_action demo_loader "H" "g1" 1 None
                   (run_all demo_loader demo_start_H empty_stores)).1 !! "g1"
    = Some s' ∧
    s_state s' = WIN ∧ s_score s' = 1 ∧
    generic_win demo_loader "H" s' = true.
Proof.
  destruct (generic_win_repeats demo_loader _ "H" "g1" 1 None _ _
              reachable_demo_start_H demo_session_H eq_refl I demo_scorecard_H)
    as (s' & sc' & Hs' & Hstate & Hscore & _ & _ & Hwin & _).
  - vm_compute. reflexivity.
  - exists s'. split_and!; [exact Hs'|exact Hstate|exact Hscore|exact Hwin].
Defined.

Lemma win_test_reads_four_blocks_witness :
  is_64x64 (pad_grid red_grid) ∧
  win_condition_met (pad_grid red_grid) = true ∧
  cell (pad_grid red_grid) (Z.to_nat 10) (Z.to_nat 20) = Some 8.
Proof.
  split; [apply pad_grid_64|].
  assert (Hwin : win_condition_met (pad_grid red_grid) = true)
    by (vm_compute; reflexivity).
  split; [exact Hwin|].
  destruct (win_test_reads_four_blocks (pad_grid red_grid) (pad_grid_64 red_grid))
    as [_ [Hcells _]].
  apply (Hcells Hwin (mkBlock 20 10 31 21) 20 10).
  - apply list_elem_of_here.
  - reflexivity.
Defined.

Lemma toggles_commute_witness :
  cell (toggle_block (mkBlock 4 10 15 21)
          (toggle_block (mkBlock 20 10 31 21) (pad_grid red_grid)).1.1.1).1.1.1
       10 4
  = cell (toggle_block (mkBlock 20 10 31 21)
            (toggle_block (mkBlock 4 10 15 21) (pad_grid red_grid)).1.1.1).1.1.1
         10 4.
Proof.
  exact (toggles_commute (mkBlock 4 10 15 21) (mkBlock 20 10 31 21)
           (pad_grid red_grid) 10 4 demo_block_1 demo_block_2).
Defined.

Lemma simple_actions_agree_witness :
  (execute_action demo_loader "G" "g1" 1 None
     (run_all demo_loader demo_start empty_stores)).1
  = (execute_action demo_loader "G" "g1" 2 (click 3 3)
       (run_all demo_loader demo_start empty_stores)).1 ∧
  same_but_echo
    (execute_action demo_loader "G" "g1" 1 None
       (run_all demo_loader demo_start empty_stores)).2
    (execute_action demo_loader "G" "g1" 2 (click 3 3)
       (run_all demo_loader demo_start empty_stores)).2.
Proof.
  apply (simple_actions_agree demo_loader "G" "g1" 1 None 2 (click 3 3)); lia.
Defined.

Lemma scorecard_counters_only_grow_witness :
  ∃ sc',
    scorecards_db (run demo_loader (Action "G" "g1" 1 None)
                     (run_all demo_loader demo_start empty_stores)) !! "card"
    = Some sc' ∧
    sc_api_key sc' = "test-api-key-12345" ∧
    1 <= sc_played sc' ∧ 0 <= sc_total_actions sc'.
Proof.
  destruct (scorecard_counters_only_grow demo_loader (Action "G" "g1" 1 None) _
              "card" _ reachable_demo_start I demo_scorecard)
    as (sc' & Hsc' & Hkey & _ & _ & _ & Hplayed & Hactions).
  exists sc'. split_and!; [exact Hsc'|exact Hkey|exact Hplayed|exact Hactions].
Defined.

Lemma first_action_wins_witness :
  ∃ r,
    (execute_action demo_loader "H" "g2" 1 None
       (reset_game demo_loader "H" "card" None "g2"
          (run_all demo_loader demo_start empty_stores)).1).2 = Returned r ∧
    fr_state r = WIN ∧ fr_score r = 1.
Proof.
  destruct (first_action_wins_when_initial_is_final demo_loader
              (run_all demo_loader demo_start empty_stores) "H" "card" "g2" 1 None
              (mkLevelData (Some [[0]]) (Some [[0]])) [[0]] [[0]]
              (mkScorecard "card" "test-api-key-12345" None [] 0 1 0 0
                 {[ "G" := mkPerGameCard "G" 1 0 [0] [NOT_FINISHED] [0] ]})
              reachable_demo_start)
    as (r & sc' & Hr & Hstate & Hscore & _);
    [apply list_elem_of_further, list_elem_of_here
    |exact demo_scorecard
    |vm_compute; reflexivity
    |reflexivity|reflexivity|discriminate|reflexivity|discriminate|reflexivity
    |lia|].
  exists r. split_and!; [exact Hr|exact Hstate|exact Hscore].
Defined.

Lemma click_outside_blocks_raises_witness :
  execute_action demo_loader "G" "g1" 6 (click 0 0)
    (run_all demo_loader demo_start empty_stores)
  = (run_all demo_loader demo_start empty_stores, Raised "KeyError").
Proof.
  apply (click_outside_blocks_raises demo_loader _ "G" "g1" _ 0 0
           reachable_demo_start demo_session eq_refl); [lia|lia|].
  intros b Hb. rewrite blocks_eq in Hb.
  repeat (apply elem_of_cons in Hb as [->|Hb]; [reflexivity|]).
  by apply not_elem_of_nil in Hb.
Defined.

(** ** Wins of the plays and wins of the scorecard *)

Lemma count_wins_app (l1 l2 : list GameState) :
  count_wins (l1 ++ l2) = count_wins l1 + count_wins l2.
Proof. rewrite !count_wins_filter, filter_app, length_app. lia. Qed.

Lemma count_wins_nonneg (l : list GameState) : 0 <= count_wins l.
Proof. rewrite count_wins_filter. lia. Qed.

Lemma count_wins_set_last (l : list GameState) (st : GameState) :
  count_wins (set_last l st)
  <= count_wins l + (if GameState_eqb st WIN then 1 else 0).
Proof.
  unfold set_last.
  destruct l as [|a l0] using rev_ind.
  - simpl. destruct st; simpl; lia.
  - clear IHl0. rewrite length_app. simpl.
    replace (Nat.pred (length l0 + 1)) with (length l0 + 0)%nat by lia.
    rewrite insert_app_r. simpl. rewrite !count_wins_app.
    pose proof (count_wins_nonneg [a]).
    destruct st; unfold count_wins at 2; simpl; lia.
Qed.

Lemma cards_total_nonneg f (cards : gmap string PerGameCard) :
  (∀ k gc, cards !! k = Some gc → 0 <= f gc) → 0 <= cards_total f cards.
Proof.
  induction cards as [|k gc cards Hk _ IH] using map_first_key_ind.
  - intros _. by rewrite cards_total_empty.
  - intros H. rewrite cards_total_insert_None by done.
    assert (0 <= f gc) by (apply (H k); by rewrite lookup_insert_eq).
    assert (0 <= cards_total f cards); [|lia].
    apply IH. intros k' gc' Hk'. apply (H k').
    rewrite lookup_insert_ne; [done|]. intros ->. congruence.
Qed.

Lemma cards_total_ge f (cards : gmap string PerGameCard) k gc :
  (∀ k gc, cards !! k = Some gc → 0 <= f gc) →
  cards !! k = Some gc → f gc <= cards_total f cards.
Proof.
  intros H Hk.
  rewrite <- (insert_delete_id cards k gc Hk).
  rewrite cards_total_insert_None by apply lookup_delete_eq.
  assert (0 <= cards_total f (delete k cards)); [|lia].
  apply cards_total_nonneg. intros k' gc' Hk'.
  apply lookup_delete_Some in Hk' as [_ Hk']. by apply (H k').
Qed.

Lemma wins_ok_commit_action guid s' card sc gc (win : bool) play_score
    (play_state : option GameState) game_id db :
  wins_ok db →
  scorecards_db db !! card = Some sc →
  sc_cards sc !! game_id = Some gc →
  play_state = (if win then Some WIN else None) ∨
  play_state = Some (if win then WIN else NOT_FINISHED) →
  wins_ok (commit guid s' card (book_scorecard win sc) game_id
             (book_action play_score play_state gc) db).
Proof.
  intros Hok Hsc Hgc Hst c sc0. unfold commit. simpl_fields.
  destruct (decide (c = card)) as [->|Hne];
    [|rewrite lookup_insert_ne by done; apply Hok].
  rewrite lookup_insert_eq. intros [= <-].
  destruct (Hok card sc Hsc) as [Hwins Hpos].
  unfold book_scorecard. simpl_fields. split.
  - rewrite (cards_total_insert_Some _ _ _ gc) by done.
    assert (plays_won (book_action play_score play_state gc)
            <= plays_won gc + (if win then 1 else 0)).
    { unfold plays_won, book_action. simpl_fields.
      destruct Hst as [-> | ->]; destruct win; simpl;
        try (pose proof (count_wins_set_last (gc_states gc) WIN));
        try (pose proof (count_wins_set_last (gc_states gc) NOT_FINISHED));
        simpl in *; lia. }
    destruct win; lia.
  - intros g gc'. destruct (decide (g = game_id)) as [->|Hneg].
    + rewrite lookup_insert_eq. intros [= <-]. unfold book_action. simpl_fields.
      destruct (Hpos game_id gc Hgc). lia.
    + rewrite lookup_insert_ne by done. apply Hpos.
Qed.

Lemma execute_action_wins gl game_id guid action_id action_data db :
  sessions_ok db → wins_ok db →
  wins_ok (execute_action gl game_id guid action_id action_data db).1.
Proof.
  intros Hs Hw.
  destruct (execute_action_cases gl game_id guid action_id action_data db Hs)
    as [->|(s & sc & gc & g & _ & _ & _ & _ & Hsc & Hgc & _ & _ & Hl
            & [(block & _ & ->)|(score & _ & ->)])]; [done|..];
    apply wins_ok_commit_action; auto.
Qed.

Lemma reset_game_wins gl game_id card_id command_guid fresh_guid db :
  wins_ok db →
  wins_ok (reset_game gl game_id card_id command_guid fresh_guid db).1.
Proof.
  intros Hok.
  destruct (reset_game_cases gl game_id card_id command_guid fresh_guid db)
    as [[detail ->]|(guid & sc & r & Hsc & _ & ->)]; [done|].
  intros c sc0. unfold commit. simpl_fields.
  destruct (decide (c = card_id)) as [->|Hne];
    [|rewrite lookup_insert_ne by done; apply Hok].
  rewrite lookup_insert_eq. intros [= <-].
  destruct (Hok card_id sc Hsc) as [Hwins Hpos].
  assert (Hst : count_wins [(get_game_state gl game_id "level_1").1] = 0).
  { unfold get_game_state. by destruct (load_level gl game_id "level_1"). }
  simpl_fields. split.
  - destruct (sc_cards sc !! game_id) as [gc|] eqn:Hgc; simpl.
    + rewrite (cards_total_insert_Some _ _ _ gc) by done.
      unfold plays_won at 2 3. simpl_fields. rewrite count_wins_app, Hst. lia.
    + rewrite cards_total_insert_None by done.
      unfold plays_won at 1. simpl_fields. rewrite Hst. lia.
  - intros g gc'. destruct (decide (g = game_id)) as [->|Hneg].
    + rewrite lookup_insert_eq. intros [= <-]. simpl.
      destruct (sc_cards sc !! game_id) as [gc|] eqn:Hgc; simpl.
      * destruct (Hpos game_id gc Hgc). lia.
      * lia.
    + rewrite lookup_insert_ne by done. apply Hpos.
Qed.

Lemma reachable_wins gl db : reachable gl db → wins_ok db.
Proof.
  induction 1 as [|c db Hr IH Hfresh].
  - intros card sc H. simpl in H. by rewrite lookup_empty in H.
  - destruct c as [card_id api_key source_url tags| |]; cbn [run].
    + intros c sc. cbn [open_scorecard fst scorecards_db].
      destruct (decide (c = card_id)) as [->|Hne].
      * rewrite lookup_insert_eq. intros [= <-]. simpl_fields.
        rewrite cards_total_empty. split; [done|].
        intros g gc H. by rewrite lookup_empty in H.
      * rewrite lookup_insert_ne by done. apply IH.
    + by apply reset_game_wins.
    + apply execute_action_wins; [|done].
      by destruct (reachable_ok gl db Hr).
Qed.

(** X20.  In every reachable state, the summary of a scorecard filtered
    to one of its games never reports more than the full summary: its
    [won], the plays of the game whose recorded state is WIN, is at most
    the scorecard's [won]; its [played] and [total_actions] are at most
    the scorecard's; and so is its score. *)
Theorem filtered_summary_at_most_full gl db card_id game_id sc gc :
  reachable gl db →
  scorecards_db db !! card_id = Some sc →
  sc_cards sc !! game_id = Some gc →
  ∃ part full,
    get_scorecard_for_game card_id game_id db = Returned part ∧
    get_scorecard card_id db = Returned full ∧
    ss_won part = plays_won gc ∧
    0 <= ss_won part <= ss_won full ∧
    0 <= ss_played part <= ss_played full ∧
    0 <= ss_total_actions part <= ss_total_actions full ∧
    ss_score part <= ss_score full.
Proof.
  intros Hr Hsc Hgc.
  destruct (reachable_wins gl db Hr card_id sc Hsc) as [Hwins Hpos].
  destruct (reachable_books gl db Hr card_id sc Hsc)
    as (_ & _ & _ & Hplayed & Hactions & _).
  unfold get_scorecard_for_game, get_scorecard. rewrite Hsc, Hgc.
  eexists _, _. split; [done|]. split; [done|].
  unfold summary_of. simpl_fields.
  assert (Hwon : ∀ l, match l with
                      | [] => 0
                      | a :: l' => count_wins (a :: l')
                      end = count_wins l) by (by intros []).
  rewrite !Hwon. fold (plays_won gc).
  assert (Hle : plays_won gc <= sc_won sc).
  { etrans; [|exact Hwins].
    apply (cards_total_ge plays_won _ game_id gc); [|done].
    intros k gc' _. apply count_wins_nonneg. }
  pose proof (count_wins_nonneg (gc_states gc)) as H0. fold (plays_won gc) in H0.
  destruct (Hpos game_id gc Hgc) as [Hp Ha].
  assert (gc_total_plays gc <= sc_played sc).
  { rewrite Hplayed. apply (cards_total_ge gc_total_plays _ game_id gc); [|done].
    intros k gc' Hk. by destruct (Hpos k gc' Hk). }
  assert (gc_total_actions gc <= sc_total_actions sc).
  { rewrite Hactions. apply (cards_total_ge gc_total_actions _ game_id gc); [|done].
    intros k gc' Hk. by destruct (Hpos k gc' Hk). }
  cbn [ss_won ss_played ss_total_actions ss_score].
  split; [done|]. split; [lia|]. split; [lia|]. split; [lia|].
  destruct (Z.gtb_spec (plays_won gc) 0), (Z.gtb_spec (sc_won sc) 0); lia.
Qed.

Lemma filtered_summary_at_most_full_witness :
  ∃ part full,
    get_scorecard_for_game "card" "G"
      (run_all demo_loader demo_start empty_stores) = Returned part ∧
    get_scorecard "card" (run_all demo_loader demo_start empty_stores)
    = Returned full ∧
    ss_won part <= ss_won full ∧
    ss_played part <= ss_played full.
Proof.
  destruct (filtered_summary_at_most_full demo_loader _ "card" "G" _ _
              reachable_demo_start demo_scorecard demo_game_card)
    as (part & full & Hpart & Hfull & _ & [_ Hwon] & [_ Hplayed] & _).
  exists part, full.
  split_and!; [exact Hpart|exact Hfull|exact Hwon|exact Hplayed].
Defined.
